(** * JMP: rate store and auth store

    A shallow embedding of [src/lib/db.ts] (rates and their change history)
    and [src/lib/actions/auth.ts] (users, admin login, one-time codes), and
    of the session the browser keeps for a logged-in user ([AuthContext]).

    Both TypeScript modules keep their data in JSON files under [data/] and
    run every operation as: read the whole file, work on the parsed array,
    write the whole file back.  The three files are the state here, and every
    exported function is a computation over it.  What the functions read from
    their surroundings is passed in: [now] is the time value of [new Date()]
    taken during the call, [boot] is [Date.now()] when [db.ts] was loaded, and
    [rnd] is the draw of [Math.random()].  Calls run one after the other;
    creating the data directory and writing a file are taken to succeed; the
    50 ms delays of [auth.ts] and the console output are left out.

    Numbers are those of JavaScript where the code computes with them.  The
    one-time code is computed in binary64 ([Auth.otpNumberOf]).  Ids are
    integers; [Db64] is [db.ts] with every generated id the result of a
    binary64 addition, and [Db] has the same functions with the ids added in
    [Z], which is what the code computes as long as the ids stay below 2^53.
    Ids of users are compared through [toLowerCase], the function of
    JavaScript on ASCII text. *)

From Stdlib Require Import String Ascii ZArith QArith Qround Qpower Lqa List Bool
  Lia.
From Stdlib Require Import NArith DecimalString.
From Stdlib Require DecimalFacts DecimalPos.
Import ListNotations.
Local Open Scope string_scope.
Local Open Scope list_scope.
Local Open Scope Z_scope.

(** ** Data model *)

(** Modelled from the spec: [src/lib/types.ts] is not among the sources.  A
    rate is [{ id, key, value }]; [id] is optional in the TypeScript type and
    every test on it is a truthiness test ([!rate.id], [rate.id || 0]), so an
    absent id and the id [0] are one value, [0].  A value is a decimal
    number; the store copies values and never computes with them. *)
Module BoppRate.
Record t : Type := mk { id : Z; key : string; value : Q }.
End BoppRate.
Abbreviation BoppRate := BoppRate.t (only parsing).

(** Modelled from the spec: the history entry of [src/lib/types.ts];
    [changed_at] is the time value of the [Date], in milliseconds. *)
Module BoppRateHistory.
Record t : Type := mk {
  id : Z;
  changed_at : Z;
  changed_by_id : string;
  changed_by_name : string;
  rates_snapshot : list BoppRate
}.
End BoppRateHistory.
Abbreviation BoppRateHistory := BoppRateHistory.t (only parsing).

(** Modelled from the spec: [Role] of [src/lib/types.ts]. *)
Inductive Role : Type := admin | employee.

(** Modelled from the spec: the user of [src/lib/types.ts].  The optional
    fields are options; [otp_created_at] is the time value of the [Date],
    which the users file holds as ISO-8601 text or [null]. *)
Module AuthenticatedUser.
Record t : Type := mk {
  id : string;
  name : string;
  role : Role;
  password : option string;
  otp : option string;
  otp_created_at : option Z
}.
End AuthenticatedUser.
Abbreviation AuthenticatedUser := AuthenticatedUser.t (only parsing).

(** ** JavaScript helpers *)

Definition Role_eqb (a b : Role) : bool :=
  match a, b with
  | admin, admin | employee, employee => true
  | _, _ => false
  end.

(** [a === b] on optional strings ([undefined] is [None]). *)
Definition opt_string_eqb (a b : option string) : bool :=
  match a, b with
  | Some x, Some y => String.eqb x y
  | None, None => true
  | _, _ => false
  end.

(** Truthiness of an optional string: [undefined] and [""] are falsy. *)
Definition truthy_string (s : option string) : bool :=
  match s with
  | Some x => negb (String.eqb x "")
  | None => false
  end.

(** Truthiness of an optional [Date]: every object is truthy. *)
Definition truthy_date (d : option Z) : bool :=
  match d with
  | Some _ => true
  | None => false
  end.

(** [a || b] on numbers. *)
Definition js_or (a b : Z) : Z := if a =? 0 then b else a.

Definition lower_ascii (c : ascii) : ascii :=
  let n := nat_of_ascii c in
  if andb (Nat.leb 65 n) (Nat.leb n 90) then ascii_of_nat (n + 32) else c.

(** [s.toLowerCase()] of a text of ASCII characters: the letters [A] to [Z]
    change, nothing else does.  On other text the function of JavaScript
    also lowers the letters outside ASCII, which this one leaves alone: what
    is stated through [toLowerCase] is stated for ASCII text, see
    [asciiOnly]. *)
Fixpoint toLowerCase (s : string) : string :=
  match s with
  | EmptyString => EmptyString
  | String c s' => String (lower_ascii c) (toLowerCase s')
  end.

(** A text of ASCII characters alone (codes 0 to 127). *)
Fixpoint asciiOnly (s : string) : bool :=
  match s with
  | EmptyString => true
  | String c s' => andb (Nat.ltb (nat_of_ascii c) 128) (asciiOnly s')
  end.

(** [n.toString()] of an integer. *)
Definition toString (n : Z) : string := NilZero.string_of_int (Z.to_int n).

(** *** Numbers

    A JavaScript number is a binary64 floating-point number: 53 significant
    bits, the result of every addition and multiplication rounded to the
    nearest such number, to the one with the even last bit when two are
    equally near.  [binary64 x] is the binary64 number that [x] is rounded
    to; the exponents stay far from the range where binary64 overflows. *)

(** [floor (log2 x)] of a positive rational. *)
Definition log2Q (x : Q) : Z :=
  let l := Z.log2 (Qnum x) - Z.log2 (Z.pos (Qden x)) in
  if Qle_bool (2 ^ l) x then l else l - 1.

(** The integer nearest to [y], the even one of two equally near. *)
Definition roundHalfEven (y : Q) : Z :=
  let f := Qfloor y in
  match (y - inject_Z f ?= 1 # 2)%Q with
  | Lt => f
  | Gt => f + 1
  | Eq => if Z.even f then f else f + 1
  end.

(** The exponent of the last bit of the binary64 numbers around [x]; -1074
    is the exponent of the smallest of all. *)
Definition quantum (x : Q) : Z := Z.max (log2Q x - 52) (-1074).

Definition binary64pos (x : Q) : Q :=
  (inject_Z (roundHalfEven (x / 2 ^ quantum x)) * 2 ^ quantum x)%Q.

Definition binary64 (x : Q) : Q :=
  match (x ?= 0)%Q with
  | Eq => 0%Q
  | Gt => binary64pos x
  | Lt => (- binary64pos (- x))%Q
  end.

(** [n + 1] and [++n] on a number that holds an integer. *)
Definition inc64 (n : Z) : Z := Qfloor (binary64 (inject_Z (n + 1))).

(** The largest binary64 number below 1, [1 - 2^-53]. *)
Definition lastBelowOne : Q := 9007199254740991 # 9007199254740992.

(** [arr.slice(0, end)]: a negative [end] counts from the end of the array. *)
Definition slice0 {A : Type} (l : list A) (e : Z) : list A :=
  let len := Z.of_nat (length l) in
  let stop := if e <? 0 then Z.max (len + e) 0 else Z.min e len in
  firstn (Z.to_nat stop) l.

(** [arr.find(p)] is [List.find]; [arr.findIndex(p)] gives [None] for -1. *)
Fixpoint findIndex {A : Type} (p : A -> bool) (l : list A) : option nat :=
  match l with
  | [] => None
  | x :: l' => if p x then Some O else option_map S (findIndex p l')
  end.

(** Assignment to a field of [arr[i]]: the object sits in the array, so the
    array sees the change. *)
Fixpoint update_at {A : Type} (i : nat) (f : A -> A) (l : list A) : list A :=
  match l, i with
  | [], _ => []
  | x :: l', O => f x :: l'
  | x :: l', S i' => x :: update_at i' f l'
  end.

(** [find] hands out the object that sits in the array: assigning to its
    fields changes the array at the first element that satisfies [p]. *)
Fixpoint update_found {A : Type} (p : A -> bool) (f : A -> A) (l : list A)
  : list A :=
  match l with
  | [] => []
  | x :: l' => if p x then f x :: l' else x :: update_found p f l'
  end.

(** A JavaScript [Map<string, V>]: [set] on a present key keeps its place,
    on a new key appends; [values()] runs in insertion order. *)
Definition JsMap (V : Type) : Type := list (string * V).

Fixpoint map_get {V : Type} (k : string) (m : JsMap V) : option V :=
  match m with
  | [] => None
  | (k', v) :: m' => if String.eqb k' k then Some v else map_get k m'
  end.

Fixpoint map_set {V : Type} (k : string) (v : V) (m : JsMap V) : JsMap V :=
  match m with
  | [] => [(k, v)]
  | (k', v') :: m' =>
      if String.eqb k' k then (k', v) :: m' else (k', v') :: map_set k v m'
  end.

Definition map_values {V : Type} (m : JsMap V) : list V := map snd m.

(** ** Storage *)

(** A file of the data directory: absent ([readFile] fails with [ENOENT]),
    present but not usable (any other failure of [readFile], of [JSON.parse]
    or of the code working on the parsed value), or a parsed array. *)
Inductive File (A : Type) : Type :=
| Missing
| Unreadable
| Content (a : A).
Arguments Missing {A}.
Arguments Unreadable {A}.
Arguments Content {A} a.

Record Storage : Type := mkStorage {
  rates_file : File (list BoppRate);
  history_file : File (list BoppRateHistory);
  users_file : File (list AuthenticatedUser)
}.

(** The data directory before the first run. *)
Definition fresh : Storage := mkStorage Missing Missing Missing.

(** Computations over the storage; [await] is sequencing. *)
Definition IO (A : Type) : Type := Storage -> A * Storage.

Definition ret {A : Type} (a : A) : IO A := fun s => (a, s).

Definition bind {A B : Type} (m : IO A) (f : A -> IO B) : IO B :=
  fun s => let (a, s') := m s in f a s'.

Notation "x <- c ;; k" := (bind c (fun x => k))
  (at level 61, c at next level, right associativity).
Notation "c ;;; k" := (bind c (fun _ => k))
  (at level 61, right associativity).

Definition readFile {A : Type} (file : Storage -> File A) : IO (File A) :=
  fun s => (file s, s).

Definition writeRatesFile (rates : list BoppRate) : IO unit :=
  fun s => (tt, mkStorage (Content rates) (history_file s) (users_file s)).

Definition writeHistoryFile (history : list BoppRateHistory) : IO unit :=
  fun s => (tt, mkStorage (rates_file s) (Content history) (users_file s)).

Definition writeUsersFile (users : list AuthenticatedUser) : IO unit :=
  fun s => (tt, mkStorage (rates_file s) (history_file s) (Content users)).

(** ** [src/lib/db.ts]: the rate store *)

(** In [Db] the ids are integers and [++maxId] and [+ 1] add 1 to them in
    [Z].  The code adds in binary64, where the sum is that integer as long
    as it is at most 2^53 and is rounded beyond: [Db64], after [Db], has
    the functions that add 1 to an id with [inc64] in that place. *)
Module Db.

Definition initialDefaultRates : list BoppRate := [
  BoppRate.mk 1 "adhesive_less_rate" 80.0000%Q;
  BoppRate.mk 2 "adhesive_rate" 90.0000%Q;
  BoppRate.mk 3 "bopp_film_rate" 118.0000%Q;
  BoppRate.mk 4 "brown_tape" 105.0000%Q;
  BoppRate.mk 5 "coating_exp" 12.0000%Q;
  BoppRate.mk 6 "color_tape" 250.0000%Q;
  BoppRate.mk 7 "double_colour_printed" 225.0000%Q;
  BoppRate.mk 8 "four_colour_printed" 350.0000%Q;
  BoppRate.mk 9 "full_print" 1000.0000%Q;
  BoppRate.mk 10 "milky_white" 160.0000%Q;
  BoppRate.mk 11 "natural" 0.0000%Q;
  BoppRate.mk 12 "packing_cost" 60.0000%Q;
  BoppRate.mk 13 "profit" 10.0000%Q;
  BoppRate.mk 14 "single_colour_printed" 150.0000%Q;
  BoppRate.mk 15 "three_colour_printed" 300.0000%Q;
  BoppRate.mk 16 "transparent" 0.0000%Q
].

(** The two seeded entries are dated two days and one day before [boot]. *)
Definition initialMockRateHistory (boot : Z) : list BoppRateHistory := [
  BoppRateHistory.mk 1 (boot - 2 * 24 * 60 * 60 * 1000)
    "system-init" "System Initialization"
    [ BoppRate.mk 3 "bopp_film_rate" 110.00%Q;
      BoppRate.mk 2 "adhesive_rate" 80.00%Q;
      BoppRate.mk 12 "packing_cost" 50.00%Q;
      BoppRate.mk 13 "profit" 7.00%Q ];
  BoppRateHistory.mk 2 (boot - 1 * 24 * 60 * 60 * 1000)
    "system-init" "System Initialization"
    [ BoppRate.mk 3 "bopp_film_rate" 115.00%Q;
      BoppRate.mk 2 "adhesive_rate" 85.00%Q;
      BoppRate.mk 12 "packing_cost" 55.00%Q;
      BoppRate.mk 13 "profit" 8.00%Q ]
].

(** [if (rate.id && rate.id > maxId) maxId = rate.id], over an array. *)
Definition maxPresentId (rates : list BoppRate) : Z :=
  fold_left
    (fun maxId rate =>
       if andb (negb (BoppRate.id rate =? 0)) (BoppRate.id rate >? maxId)
       then BoppRate.id rate else maxId)
    rates 0.

(** [rates.map(rate => !rate.id ? {...rate, id: ++maxId} : rate)]. *)
Fixpoint assignIds (maxId : Z) (rates : list BoppRate) : list BoppRate :=
  match rates with
  | [] => []
  | rate :: rest =>
      if BoppRate.id rate =? 0
      then BoppRate.mk (maxId + 1) (BoppRate.key rate) (BoppRate.value rate)
             :: assignIds (maxId + 1) rest
      else rate :: assignIds maxId rest
  end.

(** The defaults with their ids, as both [catch] branches compute them. *)
Definition defaultRatesWithIds : list BoppRate :=
  assignIds (maxPresentId initialDefaultRates) initialDefaultRates.

(** [{...base, ...over}]: [over] has all three fields of a rate, so they
    all win. *)
Definition spread (base : option BoppRate) (over : BoppRate) : BoppRate :=
  BoppRate.mk (BoppRate.id over) (BoppRate.key over) (BoppRate.value over).

(** Body of the second [forEach] of the [try] branch: seed one default. *)
Definition seedDefault (acc : Z * JsMap BoppRate) (defaultRate : BoppRate)
  : Z * JsMap BoppRate :=
  let (maxId, finalRatesMap) := acc in
  if BoppRate.id defaultRate =? 0
  then (maxId + 1,
        map_set (BoppRate.key defaultRate)
          (BoppRate.mk (maxId + 1) (BoppRate.key defaultRate)
             (BoppRate.value defaultRate))
          finalRatesMap)
  else (maxId, map_set (BoppRate.key defaultRate) defaultRate finalRatesMap).

(** Body of the third [forEach]: lay one rate of the file over the map. *)
Definition overlayFileRate (acc : Z * JsMap BoppRate) (rateFromFile : BoppRate)
  : Z * JsMap BoppRate :=
  let (maxId, finalRatesMap) := acc in
  let (maxId', withId) :=
    if BoppRate.id rateFromFile =? 0
    then (maxId + 1,
          BoppRate.mk (maxId + 1) (BoppRate.key rateFromFile)
            (BoppRate.value rateFromFile))
    else (if BoppRate.id rateFromFile >? maxId
          then BoppRate.id rateFromFile else maxId,
          rateFromFile) in
  (maxId',
   map_set (BoppRate.key withId)
     (spread (map_get (BoppRate.key withId) finalRatesMap) withId)
     finalRatesMap).

(** The [try] branch of [loadRatesFromFile] on the parsed file. *)
Definition overlayOnDefaults (ratesFromFile : list BoppRate) : list BoppRate :=
  let maxId := maxPresentId initialDefaultRates in
  let seeded := fold_left seedDefault initialDefaultRates (maxId, []) in
  map_values (snd (fold_left overlayFileRate ratesFromFile seeded)).

Definition loadRatesFromFile : IO (list BoppRate) :=
  file <- readFile rates_file ;;
  match file with
  | Content ratesFromFile => ret (overlayOnDefaults ratesFromFile)
  | Missing =>
      writeRatesFile defaultRatesWithIds ;;;
      ret defaultRatesWithIds
  | Unreadable => ret defaultRatesWithIds
  end.

Definition saveRatesToFile (rates : list BoppRate) : IO unit :=
  writeRatesFile rates.

(** [parseFloat] of a number is that number. *)
Definition parseFloat (v : Q) : Q := v.

(** What [loadHistoryFromFile] rebuilds from one parsed entry. *)
Definition reviveEntry (entry : BoppRateHistory) : BoppRateHistory :=
  BoppRateHistory.mk
    (BoppRateHistory.id entry)
    (BoppRateHistory.changed_at entry)
    (BoppRateHistory.changed_by_id entry)
    (BoppRateHistory.changed_by_name entry)
    (map (fun r => BoppRate.mk (BoppRate.id r) (BoppRate.key r)
                     (parseFloat (BoppRate.value r)))
       (BoppRateHistory.rates_snapshot entry)).

Definition loadHistoryFromFile (boot : Z) : IO (list BoppRateHistory) :=
  file <- readFile history_file ;;
  match file with
  | Content history => ret (map reviveEntry history)
  | Missing =>
      writeHistoryFile (initialMockRateHistory boot) ;;;
      ret (initialMockRateHistory boot)
  | Unreadable => ret (initialMockRateHistory boot)
  end.

Definition saveHistoryToFile (history : list BoppRateHistory) : IO unit :=
  writeHistoryFile history.

Definition getBoppRates : IO (list BoppRate) := loadRatesFromFile.

(** [Math.max(0, ...history.map(h => h.id || 0))]. *)
Definition maxHistoryId (history : list BoppRateHistory) : Z :=
  fold_left Z.max (map (fun h => js_or (BoppRateHistory.id h) 0) history) 0.

(** [JSON.parse(JSON.stringify(rates))]: a copy, field by field. *)
Definition deepCopy (rates : list BoppRate) : list BoppRate :=
  map (fun r => BoppRate.mk (BoppRate.id r) (BoppRate.key r) (BoppRate.value r))
    rates.

(** Body of [newRatesFromForm.forEach]: the map and the running
    [maxCurrentId]. *)
Definition applyFormRate (acc : JsMap BoppRate * Z) (formRate : BoppRate)
  : JsMap BoppRate * Z :=
  let (updatedRatesForFileMap, maxCurrentId) := acc in
  match map_get (BoppRate.key formRate) updatedRatesForFileMap with
  | Some existingRate =>
      (map_set (BoppRate.key formRate)
         (BoppRate.mk (BoppRate.id existingRate) (BoppRate.key existingRate)
            (BoppRate.value formRate))
         updatedRatesForFileMap,
       maxCurrentId)
  | None =>
      if BoppRate.id formRate =? 0
      then (map_set (BoppRate.key formRate)
              (BoppRate.mk (maxCurrentId + 1) (BoppRate.key formRate)
                 (BoppRate.value formRate))
              updatedRatesForFileMap,
            maxCurrentId + 1)
      else (map_set (BoppRate.key formRate)
              (BoppRate.mk (BoppRate.id formRate) (BoppRate.key formRate)
                 (BoppRate.value formRate))
              updatedRatesForFileMap,
            maxCurrentId)
  end.

(** The map built from the rates read, keyed by [rate.key]. *)
Definition mapOfRates (rates : list BoppRate) : JsMap BoppRate :=
  fold_left (fun m rate => map_set (BoppRate.key rate) rate m) rates [].

(** [rates.reduce((max, rate) => Math.max(max, rate.id || 0), 0)]. *)
Definition maxIdOf (rates : list BoppRate) : Z :=
  fold_left (fun max rate => Z.max max (js_or (BoppRate.id rate) 0)) rates 0.

(** The merge of [updateBoppRates]: the rates read, then the form. *)
Definition mergeRates (currentRatesInFile newRatesFromForm : list BoppRate)
  : list BoppRate :=
  map_values
    (fst (fold_left applyFormRate newRatesFromForm
            (mapOfRates currentRatesInFile, maxIdOf currentRatesInFile))).

Definition updateBoppRates (boot now : Z) (newRatesFromForm : list BoppRate)
  (userId userName : string) : IO unit :=
  currentRatesInFile <- loadRatesFromFile ;;
  history <- loadHistoryFromFile boot ;;
  let newHistoryId :=
    if (0 <? Z.of_nat (length history)) then maxHistoryId history + 1 else 1 in
  let snapshotForHistory := deepCopy currentRatesInFile in
  let history' :=
    BoppRateHistory.mk newHistoryId now userId userName snapshotForHistory
      :: history in
  let finalUpdatedRates := mergeRates currentRatesInFile newRatesFromForm in
  saveRatesToFile finalUpdatedRates ;;;
  saveHistoryToFile (slice0 history' 50).

(** [limit] is [None] when the caller leaves it out: the default is 5. *)
Definition getRateHistory (boot : Z) (limit : option Z)
  : IO (list BoppRateHistory) :=
  let limit' := match limit with Some l => l | None => 5 end in
  history <- loadHistoryFromFile boot ;;
  ret (slice0 history limit').

(** One call of [updateBoppRates], and a run of calls. *)
Record Update : Type := mkUpdate {
  at_time : Z;
  form : list BoppRate;
  actorId : string;
  actorName : string
}.

Definition applyUpdate (boot : Z) (s : Storage) (u : Update) : Storage :=
  snd (updateBoppRates boot (at_time u) (form u) (actorId u) (actorName u) s).

Definition runUpdates (boot : Z) (us : list Update) (s : Storage) : Storage :=
  fold_left (applyUpdate boot) us s.

End Db.

(** ** [src/lib/db.ts], the ids added as JavaScript adds them *)

(** The functions of [db.ts] that generate an id, with every [++maxId] and
    [+ 1] in binary64 ([inc64]).  What has no such addition is taken from
    [Db]: the constants, [maxPresentId], [spread], the history file and its
    reading, [maxHistoryId], [deepCopy], [mapOfRates], [maxIdOf],
    [getRateHistory].  As long as the ids read are below 2^53 the functions
    here and those of [Db] return the same. *)
Module Db64.

(** [rates.map(rate => !rate.id ? {...rate, id: ++maxId} : rate)]. *)
Fixpoint assignIds (maxId : Z) (rates : list BoppRate) : list BoppRate :=
  match rates with
  | [] => []
  | rate :: rest =>
      if BoppRate.id rate =? 0
      then BoppRate.mk (inc64 maxId) (BoppRate.key rate) (BoppRate.value rate)
             :: assignIds (inc64 maxId) rest
      else rate :: assignIds maxId rest
  end.

Definition defaultRatesWithIds : list BoppRate :=
  assignIds (Db.maxPresentId Db.initialDefaultRates) Db.initialDefaultRates.

Definition seedDefault (acc : Z * JsMap BoppRate) (defaultRate : BoppRate)
  : Z * JsMap BoppRate :=
  let (maxId, finalRatesMap) := acc in
  if BoppRate.id defaultRate =? 0
  then (inc64 maxId,
        map_set (BoppRate.key defaultRate)
          (BoppRate.mk (inc64 maxId) (BoppRate.key defaultRate)
             (BoppRate.value defaultRate))
          finalRatesMap)
  else (maxId, map_set (BoppRate.key defaultRate) defaultRate finalRatesMap).

Definition overlayFileRate (acc : Z * JsMap BoppRate) (rateFromFile : BoppRate)
  : Z * JsMap BoppRate :=
  let (maxId, finalRatesMap) := acc in
  let (maxId', withId) :=
    if BoppRate.id rateFromFile =? 0
    then (inc64 maxId,
          BoppRate.mk (inc64 maxId) (BoppRate.key rateFromFile)
            (BoppRate.value rateFromFile))
    else (if BoppRate.id rateFromFile >? maxId
          then BoppRate.id rateFromFile else maxId,
          rateFromFile) in
  (maxId',
   map_set (BoppRate.key withId)
     (Db.spread (map_get (BoppRate.key withId) finalRatesMap) withId)
     finalRatesMap).

Definition overlayOnDefaults (ratesFromFile : list BoppRate) : list BoppRate :=
  let maxId := Db.maxPresentId Db.initialDefaultRates in
  let seeded := fold_left seedDefault Db.initialDefaultRates (maxId, []) in
  map_values (snd (fold_left overlayFileRate ratesFromFile seeded)).

Definition loadRatesFromFile : IO (list BoppRate) :=
  file <- readFile rates_file ;;
  match file with
  | Content ratesFromFile => ret (overlayOnDefaults ratesFromFile)
  | Missing =>
      writeRatesFile defaultRatesWithIds ;;;
      ret defaultRatesWithIds
  | Unreadable => ret defaultRatesWithIds
  end.

Definition getBoppRates : IO (list BoppRate) := loadRatesFromFile.

Definition applyFormRate (acc : JsMap BoppRate * Z) (formRate : BoppRate)
  : JsMap BoppRate * Z :=
  let (updatedRatesForFileMap, maxCurrentId) := acc in
  match map_get (BoppRate.key formRate) updatedRatesForFileMap with
  | Some existingRate =>
      (map_set (BoppRate.key formRate)
         (BoppRate.mk (BoppRate.id existingRate) (BoppRate.key existingRate)
            (BoppRate.value formRate))
         updatedRatesForFileMap,
       maxCurrentId)
  | None =>
      if BoppRate.id formRate =? 0
      then (map_set (BoppRate.key formRate)
              (BoppRate.mk (inc64 maxCurrentId) (BoppRate.key formRate)
                 (BoppRate.value formRate))
              updatedRatesForFileMap,
            inc64 maxCurrentId)
      else (map_set (BoppRate.key formRate)
              (BoppRate.mk (BoppRate.id formRate) (BoppRate.key formRate)
                 (BoppRate.value formRate))
              updatedRatesForFileMap,
            maxCurrentId)
  end.

Definition mergeRates (currentRatesInFile newRatesFromForm : list BoppRate)
  : list BoppRate :=
  map_values
    (fst (fold_left applyFormRate newRatesFromForm
            (Db.mapOfRates currentRatesInFile,
             Db.maxIdOf currentRatesInFile))).

Definition updateBoppRates (boot now : Z) (newRatesFromForm : list BoppRate)
  (userId userName : string) : IO unit :=
  currentRatesInFile <- loadRatesFromFile ;;
  history <- Db.loadHistoryFromFile boot ;;
  let newHistoryId :=
    if (0 <? Z.of_nat (length history))
    then inc64 (Db.maxHistoryId history) else 1 in
  let snapshotForHistory := Db.deepCopy currentRatesInFile in
  let history' :=
    BoppRateHistory.mk newHistoryId now userId userName snapshotForHistory
      :: history in
  let finalUpdatedRates := mergeRates currentRatesInFile newRatesFromForm in
  Db.saveRatesToFile finalUpdatedRates ;;;
  Db.saveHistoryToFile (slice0 history' 50).

Definition applyUpdate (boot : Z) (s : Storage) (u : Db.Update) : Storage :=
  snd (updateBoppRates boot (Db.at_time u) (Db.form u) (Db.actorId u)
         (Db.actorName u) s).

Definition runUpdates (boot : Z) (us : list Db.Update) (s : Storage)
  : Storage :=
  fold_left (applyUpdate boot) us s.

End Db64.

(** ** [src/lib/actions/auth.ts]: the auth store *)

Module LoginResponse.
Record t : Type := mk {
  success : bool;
  user : option AuthenticatedUser;
  error : option string
}.
End LoginResponse.
Abbreviation LoginResponse := LoginResponse.t (only parsing).

Module UserDetailsResponse.
Record t : Type := mk {
  success : bool;
  user : option (string * string * Role);
  error : option string
}.
End UserDetailsResponse.
Abbreviation UserDetailsResponse := UserDetailsResponse.t (only parsing).

Module BasicResponse.
Record t : Type := mk {
  success : bool;
  message : option string;
  error : option string;
  otp : option string
}.
End BasicResponse.
Abbreviation BasicResponse := BasicResponse.t (only parsing).

Module Auth.

Definition initialMockUsers : list AuthenticatedUser := [
  AuthenticatedUser.mk "admin" "Administrator" admin None None None;
  AuthenticatedUser.mk "employee" "Default Employee" employee None None None;
  AuthenticatedUser.mk "emp001" "Alice Smith" employee None None None;
  AuthenticatedUser.mk "adm001" "Bob Johnson (Admin)" admin None None None
].

(** [{ id: user.id, name: user.name, role: user.role }]. *)
Definition publicUser (u : AuthenticatedUser) : AuthenticatedUser :=
  AuthenticatedUser.mk (AuthenticatedUser.id u) (AuthenticatedUser.name u)
    (AuthenticatedUser.role u) None None None.

Definition loginSuccess (u : AuthenticatedUser) : LoginResponse :=
  LoginResponse.mk true (Some (publicUser u)) None.

Definition loginFailure (e : string) : LoginResponse :=
  LoginResponse.mk false None (Some e).

Definition basicSuccess (m : string) (code : option string) : BasicResponse :=
  BasicResponse.mk true (Some m) None code.

Definition basicFailure (e : string) : BasicResponse :=
  BasicResponse.mk false None (Some e) None.

(** The object [loadUsersFromFile] builds from a parsed one:
    [otp_created_at] becomes a [Date] when the file has one. *)
Definition reviveUser (u : AuthenticatedUser) : AuthenticatedUser :=
  AuthenticatedUser.mk (AuthenticatedUser.id u) (AuthenticatedUser.name u)
    (AuthenticatedUser.role u) (AuthenticatedUser.password u)
    (AuthenticatedUser.otp u)
    (match AuthenticatedUser.otp_created_at u with
     | Some t => Some t
     | None => None
     end).

Definition loadUsersFromFile : IO (list AuthenticatedUser) :=
  file <- readFile users_file ;;
  match file with
  | Content usersFromFile => ret (map reviveUser usersFromFile)
  | Missing =>
      writeUsersFile initialMockUsers ;;;
      ret (map (fun u => u) initialMockUsers)
  | Unreadable => ret (map (fun u => u) initialMockUsers)
  end.

(** The object [saveUsersToFile] writes for a user: the [Date] as ISO text,
    [null] without one. *)
Definition userToSave (u : AuthenticatedUser) : AuthenticatedUser :=
  AuthenticatedUser.mk (AuthenticatedUser.id u) (AuthenticatedUser.name u)
    (AuthenticatedUser.role u) (AuthenticatedUser.password u)
    (AuthenticatedUser.otp u)
    (match AuthenticatedUser.otp_created_at u with
     | Some t => Some t
     | None => None
     end).

Definition saveUsersToFile (users : list AuthenticatedUser) : IO unit :=
  writeUsersFile (map userToSave users).

Definition idIs (userId : string) (u : AuthenticatedUser) : bool :=
  String.eqb (AuthenticatedUser.id u) userId.

Definition idIsNoCase (userId : string) (u : AuthenticatedUser) : bool :=
  String.eqb (toLowerCase (AuthenticatedUser.id u)) (toLowerCase userId).

Definition idAndRoleAre (userId : string) (r : Role) (u : AuthenticatedUser)
  : bool :=
  andb (String.eqb (AuthenticatedUser.id u) userId)
       (Role_eqb (AuthenticatedUser.role u) r).

Definition fetchUserDetails (userId : string) : IO UserDetailsResponse :=
  users <- loadUsersFromFile ;;
  match find (idIsNoCase userId) users with
  | Some user =>
      ret (UserDetailsResponse.mk true
             (Some (AuthenticatedUser.id user, AuthenticatedUser.name user,
                    AuthenticatedUser.role user))
             None)
  | None => ret (UserDetailsResponse.mk false None (Some "User not found"))
  end.

Definition loginUser (userId : string) (password : option string)
  : IO LoginResponse :=
  users <- loadUsersFromFile ;;
  match find (idIs userId) users with
  | None => ret (loginFailure "User not found")
  | Some user =>
      if Role_eqb (AuthenticatedUser.role user) admin then
        if andb (String.eqb (AuthenticatedUser.id user) "admin")
                (opt_string_eqb password (Some "admin"))
        then ret (loginSuccess user)
        else if andb (negb (String.eqb (AuthenticatedUser.id user) "admin"))
                     (opt_string_eqb (AuthenticatedUser.password user) password)
        then ret (loginSuccess user)
        else ret (loginFailure "Invalid credentials for this admin user.")
      else
        ret (loginFailure "Login method not applicable for this user type here.")
  end.

(** [Math.floor(100000 + Math.random() * 900000)]: the product is rounded
    to binary64, then the sum is. *)
Definition otpNumberOf (rnd : Q) : Z :=
  Qfloor (binary64 (inject_Z 100000 + binary64 (rnd * inject_Z 900000))%Q).

(** [Math.floor(100000 + Math.random() * 900000).toString()]. *)
Definition newOtpOf (rnd : Q) : string := toString (otpNumberOf rnd).

Definition generateAndStoreOTP (now : Z) (rnd : Q) (userId : string)
  : IO BasicResponse :=
  users <- loadUsersFromFile ;;
  match findIndex (idAndRoleAre userId employee) users with
  | Some userIndex =>
      let newOtp := newOtpOf rnd in
      let users' :=
        update_at userIndex
          (fun user =>
             AuthenticatedUser.mk (AuthenticatedUser.id user)
               (AuthenticatedUser.name user) (AuthenticatedUser.role user)
               (AuthenticatedUser.password user) (Some newOtp) (Some now))
          users in
      saveUsersToFile users' ;;;
      ret (basicSuccess "OTP generated successfully." (Some newOtp))
  | None =>
      ret (basicFailure
             "Failed to generate OTP. User not found or not an employee.")
  end.

Definition fiveMinutes : Z := 5 * 60 * 1000.

(** After [loadUsersFromFile] a present [otp_created_at] is a [Date], so of
    the two ways [verifyOtp] reads the time value the first is the one
    taken; the second, with its error, stands in the last branch. *)
Definition verifyOtp (now : Z) (userId otp : string) : IO LoginResponse :=
  users <- loadUsersFromFile ;;
  match find (idAndRoleAre userId employee) users with
  | None => ret (loginFailure "User not found")
  | Some user =>
      if orb (negb (truthy_string (AuthenticatedUser.otp user)))
             (negb (truthy_date (AuthenticatedUser.otp_created_at user)))
      then ret (loginFailure
                  "No active OTP found for this user. Please generate one.")
      else
        match AuthenticatedUser.otp_created_at user with
        | Some otpCreatedAtTime =>
            let otpAge := now - otpCreatedAtTime in
            if otpAge >? fiveMinutes
            then ret (loginFailure
                        "OTP has expired. Please generate a new one.")
            else if opt_string_eqb (Some otp) (AuthenticatedUser.otp user)
            then ret (loginSuccess user)
            else ret (loginFailure "Invalid OTP")
        | None =>
            ret (loginFailure
                   "Internal error processing OTP timestamp. Contact admin.")
        end
  end.

Definition addUser (userId userName passwordProvided : string) (role : Role)
  : IO BasicResponse :=
  users <- loadUsersFromFile ;;
  match find (idIsNoCase userId) users with
  | Some existingUserById =>
      ret (basicFailure "User with this ID already exists.")
  | None =>
      let newUser :=
        AuthenticatedUser.mk userId userName role
          (if Role_eqb role admin then Some passwordProvided else None)
          None None in
      saveUsersToFile (users ++ [newUser]) ;;;
      ret (basicSuccess ("User " ++ userName ++ " added successfully.")%string
             None)
  end.

Definition deleteUser (userIdToDelete : string) : IO BasicResponse :=
  users <- loadUsersFromFile ;;
  if orb (String.eqb userIdToDelete "admin")
         (String.eqb userIdToDelete "employee")
  then ret (basicFailure
              ("The default '" ++ userIdToDelete
                 ++ "' account cannot be deleted.")%string)
  else
    let initialLength := length users in
    let users' := filter (fun u => negb (idIs userIdToDelete u)) users in
    if Nat.ltb (length users') initialLength
    then saveUsersToFile users' ;;;
         ret (basicSuccess "User deleted successfully." None)
    else ret (basicFailure "User not found.").

Definition updateAdminDetails (adminId name : string)
  (newPassword : option string) : IO BasicResponse :=
  users <- loadUsersFromFile ;;
  match find (idAndRoleAre adminId admin) users with
  | None => ret (basicFailure "Admin user not found.")
  | Some _ =>
      let users' :=
        update_found (idAndRoleAre adminId admin)
          (fun adminUser =>
             AuthenticatedUser.mk (AuthenticatedUser.id adminUser)
               (if truthy_string (Some name) then name
                else AuthenticatedUser.name adminUser)
               (AuthenticatedUser.role adminUser)
               (if truthy_string newPassword then newPassword
                else AuthenticatedUser.password adminUser)
               (AuthenticatedUser.otp adminUser)
               (AuthenticatedUser.otp_created_at adminUser))
          users in
      saveUsersToFile users' ;;;
      ret (basicSuccess "Admin details updated successfully." None)
  end.

Definition getAllUsers : IO (list AuthenticatedUser) := loadUsersFromFile.

Definition revokeOTP (userId : string) : IO BasicResponse :=
  users <- loadUsersFromFile ;;
  match find (idAndRoleAre userId employee) users with
  | Some user =>
      let users' :=
        update_found (idAndRoleAre userId employee)
          (fun user =>
             AuthenticatedUser.mk (AuthenticatedUser.id user)
               (AuthenticatedUser.name user) (AuthenticatedUser.role user)
               (AuthenticatedUser.password user) None None)
          users in
      saveUsersToFile users' ;;;
      ret (basicSuccess
             ("OTP for " ++ AuthenticatedUser.name user
                ++ " has been revoked.")%string
             None)
  | None => ret (basicFailure "User not found or not an employee.")
  end.

End Auth.

(** ** Views of the storage, used to state the properties *)

(** What [getBoppRates], [loadHistoryFromFile] and [getAllUsers] return. *)
Definition ratesOf (s : Storage) : list BoppRate := fst (Db.getBoppRates s).

Definition historyOf (boot : Z) (s : Storage) : list BoppRateHistory :=
  fst (Db.loadHistoryFromFile boot s).

Definition usersOf (s : Storage) : list AuthenticatedUser :=
  fst (Auth.getAllUsers s).

Definition keysOf (l : list BoppRate) : list string := map BoppRate.key l.

Definition idsOf (l : list BoppRate) : list Z := map BoppRate.id l.

(** The map entry under which a rate is kept. *)
Definition entryOf (r : BoppRate) : string * BoppRate := (BoppRate.key r, r).

(** [set] of every rate of [l], each under its own key, onto the map [m]. *)
Definition setAll (l : list BoppRate) (m : JsMap BoppRate) : JsMap BoppRate :=
  fold_left (fun m rate => map_set (BoppRate.key rate) rate m) l m.

(** The shape of every rate set the store hands out: the default keys first
    and in their order, no key twice, every id present. *)
Definition wellFormedRates (l : list BoppRate) : Prop :=
  (exists extra, keysOf l = keysOf Db.initialDefaultRates ++ extra)
  /\ NoDup (keysOf l)
  /\ Forall (fun r => BoppRate.id r <> 0) l.

(** Every entry of the map sits under the key of its rate. *)
Definition keyedMap (m : JsMap BoppRate) : Prop :=
  Forall (fun kv => fst kv = BoppRate.key (snd kv)) m.

(** An incoming rate that leaves the choice of a new id to the store: it
    carries no id, or its key is already in the current set. *)
Definition suppliesNoNewId (current : list BoppRate) (formRate : BoppRate)
  : bool :=
  orb (BoppRate.id formRate =? 0)
      (existsb (fun r => String.eqb (BoppRate.key r) (BoppRate.key formRate))
         current).

Definition generatedIdsOnly (current newRatesFromForm : list BoppRate) : bool :=
  forallb (suppliesNoNewId current) newRatesFromForm.

(** The same along a run of calls, each looked at in the state it meets. *)
Fixpoint generatedIdsOnlyRun (boot : Z) (s : Storage) (us : list Db.Update)
  : bool :=
  match us with
  | [] => true
  | u :: us' =>
      andb (generatedIdsOnly (ratesOf s) (Db.form u))
           (generatedIdsOnlyRun boot (Db.applyUpdate boot s u) us')
  end.

(** What the fold over the form keeps true of the map and the running
    maximum when every new id is generated: ids stay distinct and below the
    maximum, the keys of the set read stay in the map, and a rate under any
    other key has an id above every id of the set read. *)
Definition generatedInv (current : list BoppRate)
  (acc : JsMap BoppRate * Z) : Prop :=
  keyedMap (fst acc)
  /\ NoDup (idsOf (map_values (fst acc)))
  /\ Forall (fun r => BoppRate.id r <= snd acc) (map_values (fst acc))
  /\ incl (keysOf current) (map fst (fst acc))
  /\ Db.maxIdOf current <= snd acc
  /\ Forall (fun r => ~ In (BoppRate.key r) (keysOf current) ->
                      Db.maxIdOf current < BoppRate.id r)
       (map_values (fst acc)).

(** The entry [updateBoppRates] puts in front of the history. *)
Definition newEntry (boot now : Z) (userId userName : string) (s : Storage)
  : BoppRateHistory :=
  BoppRateHistory.mk (Db.maxHistoryId (historyOf boot s) + 1) now userId
    userName (ratesOf s).

(** The user a lookup by exact id yields, and the one a lookup by exact id
    and role yields: the first such user of the array. *)
Definition userWithId (userId : string) (s : Storage)
  : option AuthenticatedUser :=
  find (Auth.idIs userId) (usersOf s).

Definition userWithIdAndRole (userId : string) (r : Role) (s : Storage)
  : option AuthenticatedUser :=
  find (Auth.idAndRoleAre userId r) (usersOf s).

(** The storage once the users file has been read: a missing file has been
    written with the default users. *)
Definition usersRead (s : Storage) : Storage :=
  mkStorage (rates_file s) (history_file s)
    (match users_file s with
     | Missing => Content Auth.initialMockUsers
     | file => file
     end).

(** A users file with a second admin who has a password, and an employee
    with a code on record; used for concrete instances. *)
Definition sampleUsers : list AuthenticatedUser := [
  AuthenticatedUser.mk "admin" "Administrator" admin None None None;
  AuthenticatedUser.mk "boss" "Bo Ss" admin (Some "s3cret") None None;
  AuthenticatedUser.mk "emp001" "Alice Smith" employee None
    (Some "325000") (Some 1000)
].

Definition sampleStorage : Storage :=
  mkStorage Missing Missing (Content sampleUsers).

(** ** Calls and the states they lead to *)

(** A call of one of the exported functions, with what it reads from its
    surroundings. *)
Inductive Call : Type :=
| GetBoppRates
| UpdateBoppRates (now : Z) (newRatesFromForm : list BoppRate)
    (userId userName : string)
| GetRateHistory (limit : option Z)
| FetchUserDetails (userId : string)
| LoginUser (userId : string) (password : option string)
| GenerateAndStoreOTP (now : Z) (rnd : Q) (userId : string)
| VerifyOtp (now : Z) (userId otp : string)
| AddUser (userId userName passwordProvided : string) (role : Role)
| DeleteUser (userIdToDelete : string)
| UpdateAdminDetails (adminId name : string) (newPassword : option string)
| GetAllUsers
| RevokeOTP (userId : string).

Definition storageAfter (boot : Z) (c : Call) (s : Storage) : Storage :=
  match c with
  | GetBoppRates => snd (Db.getBoppRates s)
  | UpdateBoppRates now newRatesFromForm userId userName =>
      snd (Db.updateBoppRates boot now newRatesFromForm userId userName s)
  | GetRateHistory limit => snd (Db.getRateHistory boot limit s)
  | FetchUserDetails userId => snd (Auth.fetchUserDetails userId s)
  | LoginUser userId password => snd (Auth.loginUser userId password s)
  | GenerateAndStoreOTP now rnd userId =>
      snd (Auth.generateAndStoreOTP now rnd userId s)
  | VerifyOtp now userId otp => snd (Auth.verifyOtp now userId otp s)
  | AddUser userId userName passwordProvided role =>
      snd (Auth.addUser userId userName passwordProvided role s)
  | DeleteUser userIdToDelete => snd (Auth.deleteUser userIdToDelete s)
  | UpdateAdminDetails adminId name newPassword =>
      snd (Auth.updateAdminDetails adminId name newPassword s)
  | GetAllUsers => snd (Auth.getAllUsers s)
  | RevokeOTP userId => snd (Auth.revokeOTP userId s)
  end.

(** The states of the storage that calls lead to from a new data
    directory; [boot] may change from call to call, as the process may be
    started anew between them. *)
Inductive reachable : Storage -> Prop :=
| reachable_fresh : reachable fresh
| reachable_call (boot : Z) (s : Storage) (c : Call) :
    reachable s -> reachable (storageAfter boot c s).

(** A code on record comes with its time and is not empty; without a code
    there is no time either. *)
Definition otpPaired (u : AuthenticatedUser) : Prop :=
  match AuthenticatedUser.otp u, AuthenticatedUser.otp_created_at u with
  | Some code, Some _ => code <> ""
  | None, None => True
  | _, _ => False
  end.

(** What holds of the users in every reachable state: no two ids alike, with
    upper and lower case taken as the same; codes and their times in pairs;
    and a user ["admin"] with role [admin]. *)
Definition usersInv (users : list AuthenticatedUser) : Prop :=
  NoDup (map (fun u => toLowerCase (AuthenticatedUser.id u)) users)
  /\ Forall otpPaired users
  /\ exists u, find (Auth.idIs "admin") users = Some u
               /\ AuthenticatedUser.role u = admin.

(** ** Further views *)

(** The rate a set holds under a key: the first one, as [Array.find]
    would give it. *)
Definition rateUnder (k : string) (l : list BoppRate) : option BoppRate :=
  find (fun r => String.eqb (BoppRate.key r) k) l.

(** What identifies a rate: its id and its key. *)
Definition idKeyOf (r : BoppRate) : Z * string :=
  (BoppRate.id r, BoppRate.key r).

(** The rates as the code reads them, ids added in binary64. *)
Definition ratesOf64 (s : Storage) : list BoppRate :=
  fst (Db64.getBoppRates s).

(** The entry the code puts in front of the history. *)
Definition newEntry64 (boot now : Z) (userId userName : string) (s : Storage)
  : BoppRateHistory :=
  BoppRateHistory.mk (inc64 (Db.maxHistoryId (historyOf boot s))) now userId
    userName (ratesOf64 s).

(** A rates file as the store itself writes it, if there is one: every rate
    carries an id. *)
Definition ratesFileHasIds (s : Storage) : Prop :=
  match rates_file s with
  | Content ratesFromFile =>
      Forall (fun r => BoppRate.id r <> 0) ratesFromFile
  | _ => True
  end.

(** [generatedIdsOnlyRun] along a run of [Db64.updateBoppRates]. *)
Fixpoint generatedIdsOnlyRun64 (boot : Z) (s : Storage) (us : list Db.Update)
  : bool :=
  match us with
  | [] => true
  | u :: us' =>
      andb (generatedIdsOnly (ratesOf64 s) (Db.form u))
           (generatedIdsOnlyRun64 boot (Db64.applyUpdate boot s u) us')
  end.

(** The rates that come in during a run of calls. *)
Definition incoming (us : list Db.Update) : list BoppRate :=
  flat_map Db.form us.

(** Users whose ids are ASCII text. *)
Definition asciiIds (users : list AuthenticatedUser) : bool :=
  forallb (fun u => asciiOnly (AuthenticatedUser.id u)) users.

(** What a user carries by its role: [addUser] gives a password to an admin
    only, [generateAndStoreOTP] a code and its time to an employee only. *)
Definition secretsFitRole (u : AuthenticatedUser) : Prop :=
  match AuthenticatedUser.role u with
  | admin => AuthenticatedUser.otp u = None
             /\ AuthenticatedUser.otp_created_at u = None
  | employee => AuthenticatedUser.password u = None
  end.

(** The second account [deleteUser] refuses to remove. *)
Definition defaultEmployeeKept (users : list AuthenticatedUser) : Prop :=
  exists u, find (Auth.idIs "employee") users = Some u
            /\ AuthenticatedUser.role u = employee.

(** What [fetchUserDetails] answers for a user. *)
Definition detailsOf (u : AuthenticatedUser) : UserDetailsResponse :=
  UserDetailsResponse.mk true
    (Some (AuthenticatedUser.id u, AuthenticatedUser.name u,
           AuthenticatedUser.role u))
    None.

(** The decimal digit [k] written in front of the digits [d]. *)
Definition digit (k : N) (d : Decimal.uint) : Decimal.uint :=
  match k with
  | 0 => Decimal.D0 d | 1 => Decimal.D1 d | 2 => Decimal.D2 d
  | 3 => Decimal.D3 d | 4 => Decimal.D4 d | 5 => Decimal.D5 d
  | 6 => Decimal.D6 d | 7 => Decimal.D7 d | 8 => Decimal.D8 d
  | _ => Decimal.D9 d
  end%N.

(** ** The session in the browser *)

(** [AuthProvider] keeps the logged-in user in a React state and under the
    key ["emsUser"] of [localStorage], and sends the browser to a page with
    [router.push].  The state of the provider, the stored text and the pages
    asked for are one record here; the effect run at mount and the three
    callbacks are functions on it.  A session is the mount effect followed
    by calls of the callbacks, one after the other. *)
Module AuthContext.

(** The text under ["emsUser"]: the empty text, a text on which the [try]
    block of the mount effect throws, or the JSON text of a user, as
    [JSON.stringify] wrote it. *)
Inductive Item : Type :=
| EmptyText
| Unparsable
| UserJson (u : AuthenticatedUser).

(** [Partial<AuthenticatedUser>]: every field may be left out; one of the
    optional fields may also be there with the value [undefined]. *)
Record PartialUser : Type := mkPartial {
  p_id : option string;
  p_name : option string;
  p_role : option Role;
  p_password : option (option string);
  p_otp : option (option string);
  p_otp_created_at : option (option Z)
}.

Record t : Type := mk {
  user : option AuthenticatedUser;
  isLoading : bool;
  emsUser : option Item;
  pushed : list string
}.

(** The provider as [useState] sets it up, over what the browser has
    stored. *)
Definition initial (item : option Item) : t := mk None true item [].

(** [otp_created_at] made a [Date] where there is one. *)
Definition withDate (u : AuthenticatedUser) : AuthenticatedUser :=
  AuthenticatedUser.mk (AuthenticatedUser.id u) (AuthenticatedUser.name u)
    (AuthenticatedUser.role u) (AuthenticatedUser.password u)
    (AuthenticatedUser.otp u)
    (match AuthenticatedUser.otp_created_at u with
     | Some t => Some t
     | None => None
     end).

(** The effect of [useEffect(..., [])]. *)
Definition mountEffect (c : t) : t :=
  match emsUser c with
  | Some (UserJson parsedUser) =>
      mk (Some (withDate parsedUser)) false (emsUser c) (pushed c)
  | Some Unparsable => mk (user c) false None (pushed c)
  | Some EmptyText | None => mk (user c) false (emsUser c) (pushed c)
  end.

Definition login (userData : AuthenticatedUser) (c : t) : t :=
  let userToStore := withDate userData in
  mk (Some userToStore) (isLoading c) (Some (UserJson userToStore))
    (pushed c
       ++ [if Role_eqb (AuthenticatedUser.role userData) admin
           then "/admin/dashboard" else "/employee/dashboard"]).

Definition logout (c : t) : t :=
  mk None (isLoading c) None (pushed c ++ ["/"]).

(** [{ ...prevUser, ...updatedUserData }]. *)
Definition merged (prevUser : AuthenticatedUser)
  (updatedUserData : PartialUser) : AuthenticatedUser :=
  let pick {A : Type} (over : option A) (base : A) : A :=
    match over with Some x => x | None => base end in
  AuthenticatedUser.mk
    (pick (p_id updatedUserData) (AuthenticatedUser.id prevUser))
    (pick (p_name updatedUserData) (AuthenticatedUser.name prevUser))
    (pick (p_role updatedUserData) (AuthenticatedUser.role prevUser))
    (pick (p_password updatedUserData) (AuthenticatedUser.password prevUser))
    (pick (p_otp updatedUserData) (AuthenticatedUser.otp prevUser))
    (pick (p_otp_created_at updatedUserData)
       (AuthenticatedUser.otp_created_at prevUser)).

Definition updateLoggedInUser (updatedUserData : PartialUser) (c : t) : t :=
  match user c with
  | None => c
  | Some prevUser =>
      let newUser := withDate (merged prevUser updatedUserData) in
      mk (Some newUser) (isLoading c) (Some (UserJson newUser)) (pushed c)
  end.

(** A call of one of the callbacks the provider hands out. *)
Inductive Action : Type :=
| Login (userData : AuthenticatedUser)
| Logout
| UpdateLoggedInUser (updatedUserData : PartialUser).

Definition act (c : t) (a : Action) : t :=
  match a with
  | Login userData => login userData c
  | Logout => logout c
  | UpdateLoggedInUser updatedUserData => updateLoggedInUser updatedUserData c
  end.

(** The provider after the page was loaded over [item] and the actions were
    taken. *)
Definition session (item : option Item) (actions : list Action) : t :=
  fold_left act actions (mountEffect (initial item)).

End AuthContext.

(** * Facts *)

(** ** Binary64 *)

Lemma pow2_pos (e : Z) : (0 < 2 ^ e)%Q.
Proof. apply Qpower_0_lt. reflexivity. Qed.

Lemma pow2_plus (a b : Z) : (2 ^ (a + b) == 2 ^ a * 2 ^ b)%Q.
Proof. apply Qpower_plus. discriminate. Qed.

Lemma pow2_Z (a : Z) : 0 <= a -> (inject_Z (2 ^ a) == 2 ^ a)%Q.
Proof. intros H. now rewrite Zpower_Qpower. Qed.

Lemma pow2_le (a b : Z) : a <= b -> (2 ^ a <= 2 ^ b)%Q.
Proof. intros H. apply Qpower_le_compat_l; [exact H | discriminate]. Qed.

Lemma pow2_lt (a b : Z) : a < b -> (2 ^ a < 2 ^ b)%Q.
Proof. intros H. apply Qpower_lt_compat_l; [exact H | reflexivity]. Qed.

Lemma pow2_succ (a : Z) : (2 ^ (a + 1) == 2 * 2 ^ a)%Q.
Proof. rewrite pow2_plus. change (2 ^ 1)%Q with 2%Q. ring. Qed.

(** The exponent. *)

Lemma log2Q_spec (x : Q) :
  (0 < x)%Q -> (2 ^ log2Q x <= x)%Q /\ (x < 2 ^ (log2Q x + 1))%Q.
Proof.
  intros Hx. unfold log2Q.
  destruct x as [n d]. cbn [Qnum Qden].
  assert (Hn : 0 < n) by (unfold Qlt in Hx; cbn in Hx; lia).
  set (a := Z.log2 n). set (b := Z.log2 (Z.pos d)).
  destruct (Z.log2_spec n Hn) as (Ha1 & Ha2). fold a in Ha1, Ha2.
  destruct (Z.log2_spec (Z.pos d) eq_refl) as (Hb1 & Hb2). fold b in Hb1, Hb2.
  assert (Ha0 : 0 <= a) by apply Z.log2_nonneg.
  assert (Hb0 : 0 <= b) by apply Z.log2_nonneg.
  assert (HP : (inject_Z (2 ^ a) == 2 ^ a)%Q) by now apply pow2_Z.
  assert (HD : (inject_Z (2 ^ b) == 2 ^ b)%Q) by now apply pow2_Z.
  assert (Hx' : (n # d == inject_Z n / inject_Z (Z.pos d))%Q)
    by apply Qmake_Qdiv.
  assert (Hdpos : (0 < inject_Z (Z.pos d))%Q) by reflexivity.
  assert (Hl : (2 ^ (a - b) * 2 ^ b == 2 ^ a)%Q).
  { rewrite <- pow2_plus. now replace (a - b + b) with a by lia. }
  pose proof (pow2_pos a) as Pa. pose proof (pow2_pos b) as Pb.
  pose proof (pow2_pos (a - b)) as Pl.
  assert (Hn1 : (2 ^ a <= inject_Z n)%Q)
    by (rewrite <- HP; now rewrite <- Zle_Qle).
  assert (Hn2 : (inject_Z n < 2 * 2 ^ a)%Q).
  { rewrite <- HP. change 2%Q with (inject_Z 2). rewrite <- inject_Z_mult.
    rewrite <- Zlt_Qlt. rewrite Z.pow_succ_r in Ha2 by exact Ha0. exact Ha2. }
  assert (Hd1 : (2 ^ b <= inject_Z (Z.pos d))%Q)
    by (rewrite <- HD; now rewrite <- Zle_Qle).
  assert (Hd2 : (inject_Z (Z.pos d) < 2 * 2 ^ b)%Q).
  { rewrite <- HD. change 2%Q with (inject_Z 2). rewrite <- inject_Z_mult.
    rewrite <- Zlt_Qlt. rewrite Z.pow_succ_r in Hb2 by exact Hb0. exact Hb2. }
  set (N := inject_Z n) in *. set (D := inject_Z (Z.pos d)) in *.
  set (L := (2 ^ (a - b))%Q) in *.
  assert (Hup : (N < 2 * L * D)%Q).
  { assert (H0 : (0 <= L * (D - 2 ^ b))%Q)
      by (apply Qmult_le_0_compat; lra).
    set (B := (2 ^ b)%Q) in *. set (A := (2 ^ a)%Q) in *.
    clearbody L B A N D. clear -Hl Hn2 H0. lra. }
  assert (Hlo : (L * D < 2 * N)%Q).
  { assert (H0 : (0 < L * (2 * 2 ^ b - D))%Q)
      by (apply Qmult_lt_0_compat; lra).
    set (B := (2 ^ b)%Q) in *. set (A := (2 ^ a)%Q) in *.
    clearbody L B A N D. clear -Hl Hn1 H0. lra. }
  destruct (Qle_bool L (n # d)) eqn:E.
  - apply Qle_bool_iff in E. split; [exact E|].
    rewrite pow2_succ, Hx'. fold L.
    apply Qlt_shift_div_r; [exact Hdpos | exact Hup].
  - assert (Hlt : (n # d < L)%Q).
    { apply Qnot_le_lt. intros H. apply Qle_bool_iff in H. congruence. }
    replace (a - b - 1 + 1) with (a - b) by lia. split; [|exact Hlt].
    assert (H2 : (L == 2 * 2 ^ (a - b - 1))%Q).
    { unfold L. rewrite <- pow2_succ.
      now replace (a - b - 1 + 1) with (a - b) by lia. }
    rewrite Hx'. apply Qle_shift_div_l; [exact Hdpos|].
    rewrite H2 in Hlo. set (M := (2 ^ (a - b - 1))%Q) in *.
    clearbody M N D. clear -Hlo. lra.
Qed.

Lemma log2Q_unique (x : Q) (b : Z) :
  (2 ^ b <= x)%Q -> (x < 2 ^ (b + 1))%Q -> log2Q x = b.
Proof.
  intros H1 H2.
  assert (Hx : (0 < x)%Q) by (eapply Qlt_le_trans; [apply (pow2_pos b) | exact H1]).
  destruct (log2Q_spec x Hx) as (L1 & L2).
  assert (Hlt1 : (2 ^ log2Q x < 2 ^ (b + 1))%Q) by (eapply Qle_lt_trans; eassumption).
  assert (Hlt2 : (2 ^ b < 2 ^ (log2Q x + 1))%Q) by (eapply Qle_lt_trans; eassumption).
  apply Qpower_lt_compat_l_inv in Hlt1; [|reflexivity].
  apply Qpower_lt_compat_l_inv in Hlt2; [|reflexivity].
  lia.
Qed.

(** Rounding to an integer. *)

Lemma roundHalfEven_bounds (y : Q) :
  (inject_Z (roundHalfEven y) - (1 # 2) <= y)%Q
  /\ (y <= inject_Z (roundHalfEven y) + (1 # 2))%Q.
Proof.
  unfold roundHalfEven.
  pose proof (Qfloor_le y) as H1. pose proof (Qlt_floor y) as H2.
  rewrite inject_Z_plus in H2. change (inject_Z 1) with 1%Q in H2.
  destruct (Qcompare_spec (y - inject_Z (Qfloor y)) (1 # 2)) as [E|E|E].
  - destruct (Z.even (Qfloor y));
      rewrite ?inject_Z_plus; change (inject_Z 1) with 1%Q; split; lra.
  - split; lra.
  - rewrite inject_Z_plus. change (inject_Z 1) with 1%Q. split; lra.
Qed.

Lemma roundHalfEven_le (y : Q) (k : Z) :
  (y <= inject_Z k)%Q -> roundHalfEven y <= k.
Proof.
  intros H. destruct (roundHalfEven_bounds y) as (H1 & _).
  assert (Hlt : (inject_Z (roundHalfEven y) < inject_Z (k + 1))%Q).
  { rewrite inject_Z_plus. change (inject_Z 1) with 1%Q. lra. }
  rewrite <- Zlt_Qlt in Hlt. lia.
Qed.

Lemma roundHalfEven_ge (y : Q) (k : Z) :
  (inject_Z k <= y)%Q -> k <= roundHalfEven y.
Proof.
  intros H. destruct (roundHalfEven_bounds y) as (_ & H2).
  assert (Hlt : (inject_Z k < inject_Z (roundHalfEven y + 1))%Q).
  { rewrite inject_Z_plus. change (inject_Z 1) with 1%Q. lra. }
  rewrite <- Zlt_Qlt in Hlt. lia.
Qed.

Lemma roundHalfEven_below_half (y : Q) (k : Z) :
  (y < inject_Z k - (1 # 2))%Q -> roundHalfEven y <= k - 1.
Proof.
  intros H. destruct (roundHalfEven_bounds y) as (H1 & _).
  assert (Hlt : (inject_Z (roundHalfEven y) < inject_Z k)%Q) by lra.
  rewrite <- Zlt_Qlt in Hlt. lia.
Qed.

(** Rounding to binary64. *)

Lemma binary64_positive (x : Q) : (0 < x)%Q -> binary64 x = binary64pos x.
Proof.
  intros H. unfold binary64.
  destruct (Qcompare_spec x 0) as [E|E|E]; [lra | lra | reflexivity].
Qed.

Lemma binary64_nonneg (x : Q) : (0 <= x)%Q -> (0 <= binary64 x)%Q.
Proof.
  intros H. unfold binary64.
  destruct (Qcompare_spec x 0) as [E|E|E]; [lra | lra |].
  unfold binary64pos. apply Qmult_le_0_compat.
  - change 0%Q with (inject_Z 0). rewrite <- Zle_Qle.
    apply roundHalfEven_ge. change (inject_Z 0) with 0%Q.
    apply Qle_shift_div_l; [apply pow2_pos | lra].
  - apply Qlt_le_weak, pow2_pos.
Qed.

(** A number of the grid of [x], or of a coarser one, is not crossed. *)
Lemma binary64_grid (x : Q) (k e : Z) :
  (0 < x)%Q -> quantum x <= e ->
  ((x <= inject_Z k * 2 ^ e)%Q -> (binary64 x <= inject_Z k * 2 ^ e)%Q)
  /\ ((inject_Z k * 2 ^ e <= x)%Q -> (inject_Z k * 2 ^ e <= binary64 x)%Q).
Proof.
  intros Hx He. rewrite (binary64_positive x Hx). unfold binary64pos.
  set (q := quantum x) in *.
  pose proof (pow2_pos q) as Pq.
  assert (Hc : (inject_Z k * 2 ^ e == inject_Z (k * 2 ^ (e - q)) * 2 ^ q)%Q).
  { rewrite inject_Z_mult, pow2_Z by lia.
    rewrite <- Qmult_assoc, <- pow2_plus.
    now replace (e - q + q) with e by lia. }
  rewrite Hc. split; intros H.
  - apply Qmult_le_compat_r; [|lra]. rewrite <- Zle_Qle.
    apply roundHalfEven_le. apply Qle_shift_div_r; [exact Pq | exact H].
  - apply Qmult_le_compat_r; [|lra]. rewrite <- Zle_Qle.
    apply roundHalfEven_ge. apply Qle_shift_div_l; [exact Pq | exact H].
Qed.

Lemma quantum_below (x : Q) (t : Z) :
  (0 < x)%Q -> (x < 2 ^ t)%Q -> quantum x <= Z.max (t - 53) (-1074).
Proof.
  intros Hx Ht. unfold quantum.
  destruct (log2Q_spec x Hx) as (L1 & _).
  assert (Hlt : (2 ^ log2Q x < 2 ^ t)%Q) by (eapply Qle_lt_trans; eassumption).
  apply Qpower_lt_compat_l_inv in Hlt; [|reflexivity]. lia.
Qed.

Lemma binary64_int (k : Z) :
  0 <= k <= 2 ^ 53 -> (binary64 (inject_Z k) == inject_Z k)%Q.
Proof.
  intros Hk.
  destruct (Z.eq_dec k 0) as [->|H0]; [reflexivity|].
  destruct (Z.eq_dec k (2 ^ 53)) as [->|H53]; [vm_compute; reflexivity|].
  assert (Hx : (0 < inject_Z k)%Q)
    by (change 0%Q with (inject_Z 0); rewrite <- Zlt_Qlt; lia).
  assert (Hq : quantum (inject_Z k) <= 0).
  { pose proof (quantum_below (inject_Z k) 53 Hx) as H.
    cbn [Z.max Z.sub Z.add Z.opp Z.compare Z.pos_sub] in H. apply H.
    rewrite <- pow2_Z by lia. rewrite <- Zlt_Qlt. lia. }
  destruct (binary64_grid (inject_Z k) k 0 Hx Hq) as (Hle & Hge).
  change (2 ^ 0)%Q with 1%Q in Hle, Hge. rewrite Qmult_1_r in Hle, Hge.
  apply Qle_antisym; [apply Hle | apply Hge]; apply Qle_refl.
Qed.

Lemma inc64_exact (n : Z) : 0 <= n < 2 ^ 53 -> inc64 n = n + 1.
Proof.
  intros Hn. unfold inc64.
  rewrite (Qfloor_comp _ _ (binary64_int (n + 1) ltac:(lia))).
  apply Qfloor_Z.
Qed.

Lemma inc64_stuck : inc64 (2 ^ 53) = 2 ^ 53.
Proof. vm_compute. reflexivity. Qed.

(** Three numbers as a program has them: [0.1] is not a tenth, and of the
    integers next to 2^53 every second one is missing, a tie going to the
    even neighbour. *)
Lemma binary64_examples :
  (binary64 (1 # 10) == 3602879701896397 # 36028797018963968)%Q
  /\ (binary64 (inject_Z (2 ^ 53 + 1)) == inject_Z (2 ^ 53))%Q
  /\ (binary64 (inject_Z (2 ^ 53 + 3)) == inject_Z (2 ^ 53 + 4))%Q.
Proof. vm_compute. repeat split. Qed.

(** Counting up from 0 never gives 0. *)
Lemma inc64_positive (n : Z) : 0 <= n -> 1 <= inc64 n.
Proof.
  intros H. unfold inc64.
  set (x := inject_Z (n + 1)).
  assert (Hx1 : (1 <= x)%Q).
  { unfold x. change 1%Q with (inject_Z 1). rewrite <- Zle_Qle. lia. }
  assert (Hx : (0 < x)%Q) by (eapply Qlt_le_trans; [|exact Hx1]; reflexivity).
  assert (Hb : (1 <= binary64 x)%Q).
  { destruct (Z_le_gt_dec (quantum x) 0) as [Hq|Hq].
    - destruct (binary64_grid x 1 0 Hx Hq) as (_ & Hge).
      change (inject_Z 1 * 2 ^ 0)%Q with (1 * 1)%Q in Hge.
      rewrite Qmult_1_l in Hge. now apply Hge.
    - destruct (binary64_grid x 1 (quantum x) Hx (Z.le_refl _)) as (_ & Hge).
      destruct (log2Q_spec x Hx) as (Hlo & _).
      assert (H1 : (2 ^ quantum x <= 2 ^ log2Q x)%Q).
      { apply pow2_le. unfold quantum in *. lia. }
      assert (H2 : (2 ^ 0 <= 2 ^ quantum x)%Q) by (apply pow2_le; lia).
      change (2 ^ 0)%Q with 1%Q in H2.
      change (inject_Z 1) with 1%Q in Hge. rewrite Qmult_1_l in Hge.
      eapply Qle_trans; [exact H2|]. apply Hge.
      eapply Qle_trans; [exact H1 | exact Hlo]. }
  change 1 with (Qfloor 1). apply Qfloor_resp_le. exact Hb.
Qed.

Lemma binary64_below_one (rnd : Q) :
  (binary64 rnd == rnd)%Q -> (0 <= rnd)%Q -> (rnd < 1)%Q ->
  (rnd <= lastBelowOne)%Q.
Proof.
  intros Hd H0 H1. unfold lastBelowOne.
  destruct (Qlt_le_dec rnd (1 # 2)) as [Hs|Hs]; [lra|].
  assert (Hx : (0 < rnd)%Q) by lra.
  assert (Hl : log2Q rnd = -1).
  { apply log2Q_unique; [exact Hs | exact H1]. }
  rewrite (binary64_positive rnd Hx) in Hd. unfold binary64pos in Hd.
  unfold quantum in Hd. rewrite Hl in Hd.
  change (Z.max (-1 - 52) (-1074)) with (-53) in Hd.
  set (K := roundHalfEven (rnd / 2 ^ (-53))) in *.
  change (2 ^ (-53))%Q with (1 # 9007199254740992)%Q in Hd.
  assert (HK : K < 9007199254740992).
  { rewrite Zlt_Qlt.
    change (inject_Z 9007199254740992) with (9007199254740992 # 1)%Q. lra. }
  assert (HK' : (inject_Z K <= inject_Z 9007199254740991)%Q)
    by (rewrite <- Zle_Qle; lia).
  change (inject_Z 9007199254740991) with (9007199254740991 # 1)%Q in HK'.
  lra.
Qed.

(** For a draw from 0 up to the last number below 1, the number of the
    code lies between 100000 and 999999. *)
Lemma otpNumberOf_range (rnd : Q) :
  (0 <= rnd)%Q -> (rnd <= lastBelowOne)%Q ->
  100000 <= Auth.otpNumberOf rnd <= 999999.
Proof.
  intros H0 H1. unfold Auth.otpNumberOf.
  set (x := (rnd * inject_Z 900000)%Q).
  set (cp := (inject_Z (900000 * 2 ^ 33 - 1) * 2 ^ (-33))%Q).
  assert (Hx0 : (0 <= x)%Q) by (apply Qmult_le_0_compat; [exact H0 | discriminate]).
  assert (HxA : (x <= lastBelowOne * inject_Z 900000)%Q)
    by (apply Qmult_le_compat_r; [exact H1 | discriminate]).
  assert (Hp0 : (0 <= binary64 x)%Q) by now apply binary64_nonneg.
  assert (Hp : (binary64 x <= cp)%Q).
  { destruct (Qlt_le_dec 0 x) as [Hpos|Hz].
    - destruct (Qlt_le_dec x (2 ^ 19)) as [Hs|Hs].
      + pose proof (quantum_below x 19 Hpos Hs) as Hq.
        apply (binary64_grid x _ (-33) Hpos); [cbn in Hq |- *; lia|].
        apply Qlt_le_weak. eapply Qlt_le_trans; [exact Hs|]. discriminate.
      + assert (Hl : log2Q x = 19).
        { apply log2Q_unique; [exact Hs|].
          eapply Qle_lt_trans; [exact HxA|]. reflexivity. }
        rewrite (binary64_positive x Hpos). unfold binary64pos, quantum.
        rewrite Hl. change (Z.max (19 - 52) (-1074)) with (-33).
        unfold cp. apply Qmult_le_compat_r; [|discriminate].
        rewrite <- Zle_Qle. apply roundHalfEven_below_half.
        eapply Qle_lt_trans.
        * apply Qmult_le_compat_r; [exact HxA | discriminate].
        * reflexivity.
    - assert (E : (x == 0)%Q) by lra.
      unfold binary64. rewrite (proj1 (Qeq_alt x 0) E). discriminate. }
  set (y := (inject_Z 100000 + binary64 x)%Q).
  assert (Hy1 : (inject_Z 100000 * 2 ^ 0 <= y)%Q).
  { unfold y. change (2 ^ 0)%Q with 1%Q. rewrite Qmult_1_r. lra. }
  assert (Hy2 : (y <= inject_Z (1000000 * 2 ^ 33 - 1) * 2 ^ (-33))%Q).
  { unfold y.
    assert (E : (inject_Z (1000000 * 2 ^ 33 - 1) * 2 ^ (-33)
                 == inject_Z 100000 + cp)%Q) by reflexivity.
    rewrite E. lra. }
  assert (Hypos : (0 < y)%Q).
  { eapply Qlt_le_trans; [|exact Hy1]. reflexivity. }
  assert (Hq : quantum y <= -33).
  { pose proof (quantum_below y 20 Hypos) as Hq. cbn in Hq. apply Hq.
    eapply Qle_lt_trans; [exact Hy2|]. reflexivity. }
  destruct (binary64_grid y 100000 0 Hypos ltac:(lia)) as (_ & Hlo).
  destruct (binary64_grid y (1000000 * 2 ^ 33 - 1) (-33) Hypos Hq) as (Hhi & _).
  specialize (Hlo Hy1). specialize (Hhi Hy2).
  split.
  - rewrite <- (Qfloor_Z 100000). apply Qfloor_resp_le.
    change (2 ^ 0)%Q with 1%Q in Hlo. now rewrite Qmult_1_r in Hlo.
  - apply Z.lt_succ_r. change (Z.succ 999999) with 1000000.
    rewrite Zlt_Qlt. eapply Qle_lt_trans; [apply Qfloor_le|].
    eapply Qle_lt_trans; [exact Hhi|]. reflexivity.
Qed.


(** ** JavaScript maps *)

Section JsMapFacts.

Context {V : Type}.

Implicit Types (k : string) (v : V) (m : JsMap V).

Lemma map_get_None k m : map_get k m = None <-> ~ In k (map fst m).
Proof.
  induction m as [|[k' v'] m IH]; simpl.
  - tauto.
  - destruct (String.eqb_spec k' k) as [->|Hne].
    + split; [discriminate | intros H; exfalso; apply H; now left].
    + rewrite IH. tauto.
Qed.

Lemma map_set_app_absent k v m1 m2 :
  ~ In k (map fst m1) -> map_set k v (m1 ++ m2) = m1 ++ map_set k v m2.
Proof.
  induction m1 as [|[k' v'] m1 IH]; simpl; intros H; [reflexivity|].
  destruct (String.eqb_spec k' k) as [->|Hne]; [tauto|].
  rewrite IH by tauto. reflexivity.
Qed.

Lemma map_set_absent k v m :
  ~ In k (map fst m) -> map_set k v m = m ++ [(k, v)].
Proof.
  intros H. rewrite <- (app_nil_r m) at 1.
  rewrite map_set_app_absent by exact H. reflexivity.
Qed.

Lemma map_set_present k v v0 m1 m2 :
  ~ In k (map fst m1) ->
  map_set k v (m1 ++ (k, v0) :: m2) = m1 ++ (k, v) :: m2.
Proof.
  intros H. rewrite map_set_app_absent by exact H. simpl.
  rewrite String.eqb_refl. reflexivity.
Qed.

Lemma map_get_Some_split k v0 m :
  map_get k m = Some v0 ->
  exists m1 m2, m = m1 ++ (k, v0) :: m2 /\ ~ In k (map fst m1).
Proof.
  induction m as [|[k' v'] m IH]; simpl; [discriminate|].
  destruct (String.eqb_spec k' k) as [->|Hne].
  - intros [= ->]. exists [], m. simpl. tauto.
  - intros H. destruct (IH H) as (m1 & m2 & -> & Hn).
    exists ((k', v') :: m1), m2. simpl. split; [reflexivity|].
    intros [Heq|Hin]; [now apply Hne | now apply Hn].
Qed.

End JsMapFacts.

(** ** Lists *)

Lemma NoDup_snoc {A : Type} (l : list A) (x : A) :
  NoDup l -> ~ In x l -> NoDup (l ++ [x]).
Proof.
  intros Hl Hx. apply NoDup_app; [exact Hl | repeat constructor; simpl; tauto |].
  intros a Ha [<-|[]]. exact (Hx Ha).
Qed.

(** No id twice among the users: the lookup by id and role yields the one
    user with that id and role. *)
Lemma NoDup_map_inj {A B : Type} (f : A -> B) (l : list A) (x y : A) :
  NoDup (map f l) -> In x l -> In y l -> f x = f y -> x = y.
Proof.
  induction l as [|a l IH]; cbn [map]; intros Hnd Hx Hy Hf; [destruct Hx|].
  inversion Hnd as [|? ? Hna Hnd']; subst.
  destruct Hx as [<-|Hx], Hy as [<-|Hy].
  - reflexivity.
  - exfalso. apply Hna. rewrite Hf. now apply in_map.
  - exfalso. apply Hna. rewrite <- Hf. now apply in_map.
  - now apply IH.
Qed.

Lemma NoDup_filter_map {A B : Type} (g : A -> B) (q : A -> bool)
  (l : list A) :
  NoDup (map g l) -> NoDup (map g (filter q l)).
Proof.
  induction l as [|x l IH]; cbn [map filter]; [trivial|].
  intros Hnd. inversion Hnd as [|? ? Hn Hnd']; subst.
  destruct (q x); cbn [map]; [|now apply IH].
  constructor; [|now apply IH].
  intros Hin. apply Hn. apply in_map_iff in Hin as (y & Hy & Hin).
  apply filter_In in Hin as (Hin & _). apply in_map_iff. now exists y.
Qed.

Lemma map_same {A : Type} (f : A -> A) (l : list A) :
  (forall x, f x = x) -> map f l = l.
Proof.
  intros H. induction l as [|x l IH]; cbn [map]; [reflexivity|].
  now rewrite H, IH.
Qed.

Lemma filter_length_lt {A : Type} (p : A -> bool) (l : list A) :
  (length (filter p l) < length l)%nat
  <-> exists x, In x l /\ p x = false.
Proof.
  induction l as [|x l IH]; cbn [filter length].
  - split; [lia | intros (x & [] & _)].
  - pose proof (filter_length_le p l) as Hle.
    destruct (p x) eqn:E; cbn [length].
    + rewrite <- Nat.succ_lt_mono, IH. split.
      * intros (y & Hy & Hp). exists y. split; [now right | exact Hp].
      * intros (y & [<-|Hy] & Hp); [congruence|]. now exists y.
    + split; [|lia]. intros _. exists x. split; [now left | exact E].
Qed.

Lemma find_app_Some {A : Type} (p : A -> bool) (l l' : list A) (u : A) :
  find p l = Some u -> find p (l ++ l') = Some u.
Proof.
  induction l as [|x l IH]; cbn [find app]; [discriminate|].
  destruct (p x); [trivial | exact IH].
Qed.

Lemma find_filter {A : Type} (p q : A -> bool) (l : list A) :
  (forall x, p x = true -> q x = true) ->
  find p (filter q l) = find p l.
Proof.
  intros Hpq. induction l as [|x l IH]; cbn [find filter]; [reflexivity|].
  destruct (q x) eqn:Eq; cbn [find].
  - now rewrite IH.
  - destruct (p x) eqn:Ep; [|exact IH].
    rewrite (Hpq x Ep) in Eq. discriminate.
Qed.

(** ** Arrays changed in place *)

Lemma update_found_findIndex {A : Type} (p : A -> bool) (f : A -> A)
  (l : list A) :
  update_found p f l = match findIndex p l with
                       | Some i => update_at i f l
                       | None => l
                       end.
Proof.
  induction l as [|x l IH]; cbn [update_found findIndex]; [reflexivity|].
  destruct (p x); [reflexivity|]. rewrite IH.
  destruct (findIndex p l); reflexivity.
Qed.

Lemma update_at_map {A B : Type} (g : A -> B) (f : A -> A) (l : list A) :
  (forall x, g (f x) = g x) ->
  forall i, map g (update_at i f l) = map g l.
Proof.
  intros Hg. induction l as [|x l IH]; intros [|i]; cbn [update_at map];
    try reflexivity.
  - now rewrite Hg.
  - now rewrite IH.
Qed.

Lemma update_at_Forall {A : Type} (P : A -> Prop) (f : A -> A) (l : list A) :
  (forall x, P x -> P (f x)) -> Forall P l ->
  forall i, Forall P (update_at i f l).
Proof.
  intros Hf. induction 1 as [|x l Hx Hl IH]; intros [|i]; cbn [update_at];
    constructor; auto.
Qed.

Lemma update_at_find {A : Type} (p : A -> bool) (f : A -> A) (l : list A)
  (u : A) :
  (forall x, p (f x) = p x) ->
  find p l = Some u ->
  forall i, exists u', find p (update_at i f l) = Some u'
                       /\ (u' = u \/ u' = f u).
Proof.
  intros Hp. induction l as [|x l IH]; cbn [find]; [discriminate|].
  intros Hfind [|i]; cbn [update_at find].
  - rewrite Hp. destruct (p x).
    + injection Hfind as <-. exists (f x). split; [reflexivity | now right].
    + exists u. split; [exact Hfind | now left].
  - destruct (p x).
    + exists u. split; [exact Hfind | now left].
    + now apply IH.
Qed.

(** ** Slices *)

Lemma slice0_nonneg {A : Type} (l : list A) (e : Z) :
  0 <= e -> slice0 l e = firstn (Z.to_nat e) l.
Proof.
  intros He. unfold slice0.
  destruct (Z.ltb_spec e 0) as [Hlt|_]; [lia|].
  destruct (Z.le_gt_cases e (Z.of_nat (length l))) as [Hle|Hgt].
  - now rewrite Z.min_l.
  - rewrite Z.min_r by lia. rewrite Nat2Z.id, firstn_all.
    symmetry. apply firstn_all2. lia.
Qed.

Lemma slice0_neg {A : Type} (l : list A) (e : Z) :
  e < 0 -> slice0 l e = firstn (length l - Z.to_nat (- e)) l.
Proof.
  intros He. unfold slice0.
  destruct (Z.ltb_spec e 0) as [_|Hge]; [|lia].
  f_equal. lia.
Qed.

Lemma slice0_50_length {A : Type} (l : list A) :
  length (slice0 l 50) = Nat.min 50 (length l).
Proof.
  rewrite slice0_nonneg by lia. rewrite length_firstn.
  change (Z.to_nat 50) with 50%nat. reflexivity.
Qed.

(** ** Copies that change nothing *)

Lemma BoppRate_eta (r : BoppRate) :
  BoppRate.mk (BoppRate.id r) (BoppRate.key r) (BoppRate.value r) = r.
Proof. destruct r; reflexivity. Qed.

Lemma deepCopy_same (l : list BoppRate) : Db.deepCopy l = l.
Proof.
  unfold Db.deepCopy. induction l as [|r l IH]; simpl; [reflexivity|].
  rewrite BoppRate_eta, IH. reflexivity.
Qed.

Lemma reviveEntry_same (e : BoppRateHistory) : Db.reviveEntry e = e.
Proof.
  destruct e as [i t bi bn snap]. unfold Db.reviveEntry, Db.parseFloat. simpl.
  f_equal. apply deepCopy_same.
Qed.

Lemma map_reviveEntry_same (h : list BoppRateHistory) :
  map Db.reviveEntry h = h.
Proof.
  induction h as [|e h IH]; simpl; [reflexivity|].
  rewrite reviveEntry_same, IH. reflexivity.
Qed.

Lemma reviveUser_same (u : AuthenticatedUser) : Auth.reviveUser u = u.
Proof. destruct u as [i n r p o [t|]]; reflexivity. Qed.

Lemma userToSave_same (u : AuthenticatedUser) : Auth.userToSave u = u.
Proof. destruct u as [i n r p o [t|]]; reflexivity. Qed.

(** ** Rate maps keyed by the rates' own keys *)

Lemma map_fst_entryOf (l : list BoppRate) : map fst (map entryOf l) = keysOf l.
Proof. unfold keysOf. rewrite map_map. reflexivity. Qed.

Lemma map_values_entryOf (l : list BoppRate) : map_values (map entryOf l) = l.
Proof. unfold map_values. rewrite map_map. simpl. apply map_id. Qed.

(** Rates laid one by one over entries that already hold their keys, in the
    same order, take the place of those entries. *)
Lemma setAll_overwrite (R : list BoppRate) :
  forall (P Q : JsMap BoppRate),
    map fst Q = keysOf R ->
    NoDup (map fst P ++ keysOf R) ->
    setAll R (P ++ Q) = P ++ map entryOf R.
Proof.
  induction R as [|r R IH]; intros P Q HQ Hnd.
  - destruct Q; [reflexivity | discriminate].
  - destruct Q as [|[k v] Q]; [discriminate|].
    simpl in HQ. injection HQ as -> HQ.
    unfold setAll. simpl. fold (setAll R).
    assert (Hr : ~ In (BoppRate.key r) (map fst P)).
    { intros Hin. apply NoDup_remove_2 in Hnd. apply Hnd.
      apply in_or_app. now left. }
    rewrite map_set_present by exact Hr.
    change (P ++ (BoppRate.key r, r) :: Q) with (P ++ [entryOf r] ++ Q).
    rewrite app_assoc. rewrite IH.
    + rewrite <- app_assoc. reflexivity.
    + exact HQ.
    + rewrite map_app. simpl. rewrite <- app_assoc. exact Hnd.
Qed.

(** Rates under keys the map does not hold are appended in their order. *)
Lemma setAll_append (R : list BoppRate) :
  forall (P : JsMap BoppRate),
    NoDup (map fst P ++ keysOf R) ->
    setAll R P = P ++ map entryOf R.
Proof.
  induction R as [|r R IH]; intros P Hnd.
  - simpl. now rewrite app_nil_r.
  - unfold setAll. simpl. fold (setAll R).
    assert (Hr : ~ In (BoppRate.key r) (map fst P)).
    { intros Hin. apply NoDup_remove_2 in Hnd. apply Hnd.
      apply in_or_app. now left. }
    rewrite map_set_absent by exact Hr.
    rewrite IH.
    + rewrite <- app_assoc. reflexivity.
    + rewrite map_app. simpl. rewrite <- app_assoc. exact Hnd.
Qed.

Lemma setAll_app (l1 l2 : list BoppRate) (m : JsMap BoppRate) :
  setAll (l1 ++ l2) m = setAll l2 (setAll l1 m).
Proof. apply fold_left_app. Qed.

Lemma mapOfRates_entries (l : list BoppRate) :
  NoDup (keysOf l) -> Db.mapOfRates l = map entryOf l.
Proof.
  intros H. change (Db.mapOfRates l) with (setAll l []).
  rewrite setAll_append; [reflexivity | exact H].
Qed.

Lemma keyedMap_entries (l : list BoppRate) : keyedMap (map entryOf l).
Proof.
  unfold keyedMap. apply Forall_forall. intros kv Hin.
  apply in_map_iff in Hin as (r & <- & _). reflexivity.
Qed.

Lemma keyedMap_keys (m : JsMap BoppRate) :
  keyedMap m -> map fst m = keysOf (map_values m).
Proof.
  unfold keyedMap, keysOf, map_values.
  induction 1 as [|[k r] m Hk _ IH]; simpl; [reflexivity|].
  simpl in Hk. now rewrite Hk, IH.
Qed.

Lemma keyedMap_entries_of_values (m : JsMap BoppRate) :
  keyedMap m -> map entryOf (map_values m) = m.
Proof.
  unfold keyedMap, map_values.
  induction 1 as [|[k r] m Hk _ IH]; simpl; [reflexivity|].
  simpl in Hk. unfold entryOf at 1. now rewrite <- Hk, IH.
Qed.

(** [set] of a rate that has an id, under its own key, keeps the shape. *)
Lemma set_keeps_shape (m : JsMap BoppRate) (r : BoppRate) :
  keyedMap m -> wellFormedRates (map_values m) -> BoppRate.id r <> 0 ->
  keyedMap (map_set (BoppRate.key r) r m)
  /\ wellFormedRates (map_values (map_set (BoppRate.key r) r m)).
Proof.
  intros Hk (Hpre & Hnd & Hid) Hr.
  destruct (map_get (BoppRate.key r) m) as [v0|] eqn:E.
  - apply map_get_Some_split in E as (m1 & m2 & -> & Hn).
    rewrite map_set_present by exact Hn.
    unfold keyedMap in *. apply Forall_app in Hk as (Hk1 & Hk2).
    apply Forall_cons_iff in Hk2 as (Hk0 & Hk2). simpl in Hk0.
    split.
    + apply Forall_app. split; [exact Hk1|]. constructor; [reflexivity|exact Hk2].
    + unfold wellFormedRates, map_values, keysOf in *.
      rewrite !map_app in *. cbn [map app fst snd] in *. rewrite <- Hk0 in *.
      apply Forall_app in Hid as (Hid1 & Hid2).
      apply Forall_cons_iff in Hid2 as (_ & Hid2).
      repeat split; [exact Hpre | exact Hnd |].
      apply Forall_app. split; [exact Hid1|]. now constructor.
  - apply map_get_None in E.
    rewrite map_set_absent by exact E.
    split.
    + unfold keyedMap in *. apply Forall_app. split; [exact Hk|].
      now repeat constructor.
    + rewrite (keyedMap_keys m Hk) in E.
      unfold wellFormedRates, map_values, keysOf in *.
      rewrite !map_app. cbn [map app fst snd].
      destruct Hpre as (extra & Hpre).
      repeat split.
      * exists (extra ++ [BoppRate.key r]). rewrite app_assoc.
        f_equal. exact Hpre.
      * now apply NoDup_snoc.
      * apply Forall_app. split; [exact Hid|]. now repeat constructor.
Qed.

(** ** Reading the rates file *)

Lemma defaultRatesWithIds_defaults :
  Db.defaultRatesWithIds = Db.initialDefaultRates.
Proof. reflexivity. Qed.

Lemma seeded_defaults :
  fold_left Db.seedDefault Db.initialDefaultRates
    (Db.maxPresentId Db.initialDefaultRates, [])
  = (16, map entryOf Db.initialDefaultRates).
Proof. reflexivity. Qed.

Lemma defaults_wellFormed : wellFormedRates Db.initialDefaultRates.
Proof.
  repeat split.
  - exists []. now rewrite app_nil_r.
  - assert (H : nodup string_dec (keysOf Db.initialDefaultRates)
                = keysOf Db.initialDefaultRates) by (vm_compute; reflexivity).
    rewrite <- H. apply NoDup_nodup.
  - unfold Db.initialDefaultRates.
    repeat (constructor; [simpl; discriminate|]). constructor.
Qed.

Lemma defaults_ids_unique : NoDup (idsOf Db.initialDefaultRates).
Proof.
  assert (H : nodup Z.eq_dec (idsOf Db.initialDefaultRates)
              = idsOf Db.initialDefaultRates) by (vm_compute; reflexivity).
  rewrite <- H. apply NoDup_nodup.
Qed.

(** With every id present, the third loop is [setAll]. *)
Lemma overlay_with_ids (l : list BoppRate) :
  Forall (fun r => BoppRate.id r <> 0) l ->
  forall maxId m, snd (fold_left Db.overlayFileRate l (maxId, m)) = setAll l m.
Proof.
  induction 1 as [|r l Hr _ IH]; intros maxId m; [reflexivity|].
  unfold setAll. cbn [fold_left]. fold (setAll l).
  unfold Db.overlayFileRate at 2.
  apply Z.eqb_neq in Hr. rewrite Hr.
  unfold Db.spread. rewrite BoppRate_eta. apply IH.
Qed.

Lemma overlay_step_shape (maxId : Z) (m : JsMap BoppRate) (r : BoppRate) :
  keyedMap m -> wellFormedRates (map_values m) -> 0 <= maxId ->
  keyedMap (snd (Db.overlayFileRate (maxId, m) r))
  /\ wellFormedRates (map_values (snd (Db.overlayFileRate (maxId, m) r)))
  /\ 0 <= fst (Db.overlayFileRate (maxId, m) r).
Proof.
  intros Hk Hwf Hmax. unfold Db.overlayFileRate, Db.spread.
  destruct (Z.eqb_spec (BoppRate.id r) 0) as [H0|H0]; cbn [fst snd BoppRate.key BoppRate.id BoppRate.value].
  - pose proof (set_keeps_shape m
      (BoppRate.mk (maxId + 1) (BoppRate.key r) (BoppRate.value r)) Hk Hwf)
      as Hs.
    cbn [BoppRate.key BoppRate.id] in Hs.
    destruct Hs as (H1 & H2); [lia|]. repeat split; try assumption; try apply H2. lia.
  - rewrite BoppRate_eta.
    destruct (set_keeps_shape m r Hk Hwf H0) as (H1 & H2).
    repeat split; try assumption; try apply H2.
    destruct (BoppRate.id r >? maxId) eqn:E; lia.
Qed.

Lemma overlay_fold_shape (l : list BoppRate) :
  forall maxId m,
    keyedMap m -> wellFormedRates (map_values m) -> 0 <= maxId ->
    wellFormedRates
      (map_values (snd (fold_left Db.overlayFileRate l (maxId, m)))).
Proof.
  induction l as [|r l IH]; intros maxId m Hk Hwf Hmax; [exact Hwf|].
  cbn [fold_left].
  destruct (overlay_step_shape maxId m r Hk Hwf Hmax) as (H1 & H2 & H3).
  destruct (Db.overlayFileRate (maxId, m) r) as [maxId' m'].
  now apply IH.
Qed.

(** Whatever the rates file holds, what is read from it has the shape. *)
Lemma overlay_wellFormed (ratesFromFile : list BoppRate) :
  wellFormedRates (Db.overlayOnDefaults ratesFromFile).
Proof.
  unfold Db.overlayOnDefaults. cbv zeta. rewrite seeded_defaults.
  apply overlay_fold_shape.
  - apply keyedMap_entries.
  - rewrite map_values_entryOf. apply defaults_wellFormed.
  - lia.
Qed.

(** A rate set of that shape, written to the file, is read back as it is. *)
Lemma overlay_fixed (l : list BoppRate) :
  wellFormedRates l -> Db.overlayOnDefaults l = l.
Proof.
  intros ((extra & Hpre) & Hnd & Hid).
  unfold Db.overlayOnDefaults. cbv zeta. rewrite seeded_defaults.
  rewrite overlay_with_ids by exact Hid.
  set (n := length (keysOf Db.initialDefaultRates)).
  assert (Hl : l = firstn n l ++ skipn n l) by (symmetry; apply firstn_skipn).
  assert (Hk1 : keysOf (firstn n l) = keysOf Db.initialDefaultRates).
  { unfold keysOf in *. rewrite <- firstn_map, Hpre.
    unfold n. rewrite firstn_app, Nat.sub_diag, firstn_all.
    cbn [firstn]. apply app_nil_r. }
  assert (Hnd' : NoDup (keysOf (firstn n l) ++ keysOf (skipn n l))).
  { unfold keysOf. rewrite <- map_app, <- Hl. exact Hnd. }
  rewrite Hl at 1. rewrite setAll_app.
  pose proof (setAll_overwrite (firstn n l) []
                (map entryOf Db.initialDefaultRates)) as Hover.
  cbn [app map] in Hover. rewrite Hover.
  - rewrite setAll_append.
    + rewrite <- map_app, <- Hl. apply map_values_entryOf.
    + rewrite map_fst_entryOf. exact Hnd'.
  - rewrite map_fst_entryOf. now symmetry.
  - now apply NoDup_app_remove_r in Hnd'.
Qed.

(** ** One incoming rate *)

Lemma applyFormRate_present (m : JsMap BoppRate) (maxId : Z) (f e : BoppRate) :
  map_get (BoppRate.key f) m = Some e ->
  exists m1 m2,
    m = m1 ++ (BoppRate.key f, e) :: m2
    /\ ~ In (BoppRate.key f) (map fst m1)
    /\ Db.applyFormRate (m, maxId) f
       = (m1 ++ (BoppRate.key f,
                 BoppRate.mk (BoppRate.id e) (BoppRate.key e) (BoppRate.value f))
             :: m2,
          maxId).
Proof.
  intros E. unfold Db.applyFormRate. rewrite E.
  apply map_get_Some_split in E as (m1 & m2 & -> & Hn).
  exists m1, m2. repeat split; [exact Hn|].
  now rewrite map_set_present.
Qed.

Lemma applyFormRate_absent (m : JsMap BoppRate) (maxId : Z) (f : BoppRate) :
  map_get (BoppRate.key f) m = None ->
  ~ In (BoppRate.key f) (map fst m)
  /\ Db.applyFormRate (m, maxId) f
     = (m ++ [(BoppRate.key f,
               BoppRate.mk
                 (if BoppRate.id f =? 0 then maxId + 1 else BoppRate.id f)
                 (BoppRate.key f) (BoppRate.value f))],
        if BoppRate.id f =? 0 then maxId + 1 else maxId).
Proof.
  intros E. unfold Db.applyFormRate. rewrite E.
  apply map_get_None in E. split; [exact E|].
  destruct (BoppRate.id f =? 0); now rewrite map_set_absent.
Qed.

Lemma js_or_0 (x : Z) : js_or x 0 = x.
Proof. unfold js_or. destruct (Z.eqb_spec x 0); congruence. Qed.

Lemma maxIdOf_fold_bounds (l : list BoppRate) :
  forall a,
    a <= fold_left (fun max rate => Z.max max (js_or (BoppRate.id rate) 0)) l a
    /\ Forall (fun r => BoppRate.id r
                 <= fold_left
                      (fun max rate => Z.max max (js_or (BoppRate.id rate) 0))
                      l a) l.
Proof.
  induction l as [|r l IH]; intros a; cbn [fold_left].
  - split; [lia | constructor].
  - destruct (IH (Z.max a (js_or (BoppRate.id r) 0))) as (H1 & H2).
    rewrite js_or_0 in *. split; [lia|]. constructor; [lia | exact H2].
Qed.

Lemma maxIdOf_nonneg (l : list BoppRate) : 0 <= Db.maxIdOf l.
Proof. apply (maxIdOf_fold_bounds l 0). Qed.

Lemma maxIdOf_bounds (l : list BoppRate) :
  Forall (fun r => BoppRate.id r <= Db.maxIdOf l) l.
Proof. apply (maxIdOf_fold_bounds l 0). Qed.

Lemma applyFormRate_shape (m : JsMap BoppRate) (maxId : Z) (f : BoppRate) :
  keyedMap m -> wellFormedRates (map_values m) -> 0 <= maxId ->
  keyedMap (fst (Db.applyFormRate (m, maxId) f))
  /\ wellFormedRates (map_values (fst (Db.applyFormRate (m, maxId) f)))
  /\ 0 <= snd (Db.applyFormRate (m, maxId) f).
Proof.
  intros Hk Hwf Hmax.
  destruct (map_get (BoppRate.key f) m) as [e|] eqn:E.
  - assert (Hstep : Db.applyFormRate (m, maxId) f
             = (map_set (BoppRate.key f)
                  (BoppRate.mk (BoppRate.id e) (BoppRate.key e)
                     (BoppRate.value f)) m, maxId))
      by (unfold Db.applyFormRate; now rewrite E).
    rewrite Hstep. cbn [fst snd].
    apply map_get_Some_split in E as (m1 & m2 & Hm & _).
    assert (Hin : In (BoppRate.key f, e) m)
      by (rewrite Hm; apply in_or_app; right; now left).
    assert (Hke : BoppRate.key f = BoppRate.key e).
    { unfold keyedMap in Hk. rewrite Forall_forall in Hk.
      exact (Hk _ Hin). }
    assert (Hie : BoppRate.id e <> 0).
    { destruct Hwf as (_ & _ & Hid). rewrite Forall_forall in Hid.
      apply Hid. unfold map_values. apply in_map_iff.
      now exists (BoppRate.key f, e). }
    rewrite Hke.
    pose proof (set_keeps_shape m
      (BoppRate.mk (BoppRate.id e) (BoppRate.key e) (BoppRate.value f))
      Hk Hwf Hie) as (H1 & H2).
    cbn [BoppRate.key] in H1, H2.
    split; [exact H1 | split; [exact H2 | exact Hmax]].
  - apply (applyFormRate_absent m maxId f) in E as (Hn & Hstep).
    rewrite Hstep. cbn [fst snd].
    rewrite <- map_set_absent by exact Hn.
    set (r := BoppRate.mk
                (if BoppRate.id f =? 0 then maxId + 1 else BoppRate.id f)
                (BoppRate.key f) (BoppRate.value f)).
    assert (Hr : BoppRate.id r <> 0).
    { unfold r. cbn [BoppRate.id].
      destruct (Z.eqb_spec (BoppRate.id f) 0); lia. }
    pose proof (set_keeps_shape m r Hk Hwf Hr) as (H1 & H2).
    split; [exact H1 | split; [exact H2 |]].
    destruct (BoppRate.id f =? 0); lia.
Qed.

Lemma applyFormRate_fold_shape (form : list BoppRate) :
  forall m maxId,
    keyedMap m -> wellFormedRates (map_values m) -> 0 <= maxId ->
    wellFormedRates
      (map_values (fst (fold_left Db.applyFormRate form (m, maxId)))).
Proof.
  induction form as [|f form IH]; intros m maxId Hk Hwf Hmax; [exact Hwf|].
  cbn [fold_left].
  destruct (applyFormRate_shape m maxId f Hk Hwf Hmax) as (H1 & H2 & H3).
  destruct (Db.applyFormRate (m, maxId) f) as [m' maxId'].
  now apply IH.
Qed.

Lemma mergeRates_entries (current form : list BoppRate) :
  NoDup (keysOf current) ->
  Db.mergeRates current form
  = map_values
      (fst (fold_left Db.applyFormRate form
              (map entryOf current, Db.maxIdOf current))).
Proof. intros H. unfold Db.mergeRates. now rewrite mapOfRates_entries. Qed.

Lemma mergeRates_wellFormed (current form : list BoppRate) :
  wellFormedRates current -> wellFormedRates (Db.mergeRates current form).
Proof.
  intros Hwf. rewrite mergeRates_entries by apply Hwf.
  apply applyFormRate_fold_shape.
  - apply keyedMap_entries.
  - now rewrite map_values_entryOf.
  - apply maxIdOf_nonneg.
Qed.

Lemma applyFormRate_keys (m : JsMap BoppRate) (maxId : Z) (f : BoppRate) :
  incl (map fst m) (map fst (fst (Db.applyFormRate (m, maxId) f)))
  /\ In (BoppRate.key f) (map fst (fst (Db.applyFormRate (m, maxId) f))).
Proof.
  destruct (map_get (BoppRate.key f) m) as [e|] eqn:E.
  - apply (applyFormRate_present m maxId f e) in E as (m1 & m2 & -> & _ & ->).
    cbn [fst]. rewrite !map_app. cbn [map fst]. split; [apply incl_refl|].
    apply in_or_app. right. now left.
  - apply (applyFormRate_absent m maxId f) in E as (_ & ->).
    cbn [fst]. rewrite map_app. split; [now apply incl_appl, incl_refl|].
    apply in_or_app. right. now left.
Qed.

Lemma applyFormRate_fold_keys (form : list BoppRate) :
  forall acc,
    incl (map fst (fst acc))
         (map fst (fst (fold_left Db.applyFormRate form acc)))
    /\ forall f, In f form ->
         In (BoppRate.key f)
            (map fst (fst (fold_left Db.applyFormRate form acc))).
Proof.
  induction form as [|f form IH]; intros [m maxId]; cbn [fold_left].
  - split; [apply incl_refl | intros f []].
  - destruct (IH (Db.applyFormRate (m, maxId) f)) as (Hincl & Hin).
    destruct (applyFormRate_keys m maxId f) as (Hstep & Hkey).
    split.
    + eapply incl_tran; [exact Hstep | exact Hincl].
    + intros f' [<-|Hf']; [now apply Hincl | now apply Hin].
Qed.

Lemma applyFormRate_fold_keyed (form : list BoppRate) :
  forall m maxId,
    keyedMap m -> wellFormedRates (map_values m) -> 0 <= maxId ->
    keyedMap (fst (fold_left Db.applyFormRate form (m, maxId))).
Proof.
  induction form as [|f form IH]; intros m maxId Hk Hwf Hmax; [exact Hk|].
  cbn [fold_left].
  destruct (applyFormRate_shape m maxId f Hk Hwf Hmax) as (H1 & H2 & H3).
  destruct (Db.applyFormRate (m, maxId) f) as [m' maxId'].
  now apply IH.
Qed.

Lemma applyFormRate_idKeys (m : JsMap BoppRate) (maxId : Z) (f : BoppRate) :
  exists added,
    map idKeyOf (map_values (fst (Db.applyFormRate (m, maxId) f)))
    = map idKeyOf (map_values m) ++ added
    /\ forall p, In p added ->
                 ~ In (snd p) (map fst m) /\ snd p = BoppRate.key f.
Proof.
  destruct (map_get (BoppRate.key f) m) as [e|] eqn:E.
  - apply (applyFormRate_present m maxId f e) in E as (m1 & m2 & -> & _ & ->).
    exists []. split; [|intros p []].
    cbn [fst]. unfold map_values. rewrite !map_app. cbn [map snd].
    now rewrite app_nil_r.
  - apply (applyFormRate_absent m maxId f) in E as (Hn & ->).
    eexists. split.
    + cbn [fst]. unfold map_values. rewrite !map_app. cbn [map snd].
      reflexivity.
    + intros p [<-|[]]. cbn [idKeyOf snd BoppRate.key]. now split.
Qed.

Lemma applyFormRate_fold_idKeys (form : list BoppRate) :
  forall m maxId,
    exists added,
      map idKeyOf
        (map_values (fst (fold_left Db.applyFormRate form (m, maxId))))
      = map idKeyOf (map_values m) ++ added
      /\ forall p, In p added ->
                   ~ In (snd p) (map fst m)
                   /\ exists f, In f form /\ BoppRate.key f = snd p.
Proof.
  induction form as [|f form IH]; intros m maxId; cbn [fold_left].
  - exists []. split; [now rewrite app_nil_r | intros p []].
  - destruct (applyFormRate_idKeys m maxId f) as (a1 & H1 & Ha1).
    destruct (applyFormRate_keys m maxId f) as (Hincl & _).
    destruct (Db.applyFormRate (m, maxId) f) as [m' maxId'].
    cbn [fst] in *.
    destruct (IH m' maxId') as (a2 & H2 & Ha2).
    exists (a1 ++ a2). split; [now rewrite H2, H1, app_assoc|].
    intros p Hp. apply in_app_or in Hp as [Hp|Hp].
    + destruct (Ha1 p Hp) as (Hn & Hk).
      split; [exact Hn|]. exists f. split; [now left | now symmetry].
    + destruct (Ha2 p Hp) as (Hn & (f' & Hf' & Hk)).
      split; [intros Hin; apply Hn; now apply Hincl|].
      exists f'. split; [now right | exact Hk].
Qed.

Lemma mergeRates_has_key (current form : list BoppRate) (f : BoppRate) :
  wellFormedRates current -> In f form ->
  count_occ string_dec (keysOf (Db.mergeRates current form)) (BoppRate.key f)
  = 1%nat.
Proof.
  intros Hwf Hin.
  pose proof (mergeRates_wellFormed current form Hwf) as (_ & Hnd & _).
  apply NoDup_count_occ'; [exact Hnd|].
  rewrite mergeRates_entries by apply Hwf.
  rewrite <- keyedMap_keys.
  - now apply applyFormRate_fold_keys.
  - apply applyFormRate_fold_keyed.
    + apply keyedMap_entries.
    + now rewrite map_values_entryOf.
    + apply maxIdOf_nonneg.
Qed.

Lemma mergeRates_nil (current : list BoppRate) :
  wellFormedRates current -> Db.mergeRates current [] = current.
Proof.
  intros Hwf. rewrite mergeRates_entries by apply Hwf.
  cbn [fold_left fst]. apply map_values_entryOf.
Qed.

(** ** Generated ids *)

Lemma suppliesNoNewId_absent (current : list BoppRate) (f : BoppRate) :
  suppliesNoNewId current f = true ->
  ~ In (BoppRate.key f) (keysOf current) ->
  BoppRate.id f = 0.
Proof.
  unfold suppliesNoNewId. intros H Hn.
  apply orb_true_iff in H as [H|H]; [now apply Z.eqb_eq|].
  exfalso. apply Hn. apply existsb_exists in H as (r & Hin & Hr).
  apply String.eqb_eq in Hr. rewrite <- Hr. unfold keysOf. now apply in_map.
Qed.

Lemma generatedInv_step (current : list BoppRate) (m : JsMap BoppRate)
  (maxId : Z) (f : BoppRate) :
  generatedInv current (m, maxId) ->
  suppliesNoNewId current f = true ->
  generatedInv current (Db.applyFormRate (m, maxId) f).
Proof.
  unfold generatedInv. cbn [fst snd].
  intros (Hk & Hnd & Hle & Hincl & Hmax & Hnew) Hf.
  destruct (map_get (BoppRate.key f) m) as [e|] eqn:E.
  - apply (applyFormRate_present m maxId f e) in E
      as (m1 & m2 & -> & Hn & ->).
    cbn [fst snd].
    unfold keyedMap, map_values, idsOf in *.
    rewrite !map_app in *. cbn [map fst snd BoppRate.id] in *.
    apply Forall_app in Hk as (Hk1 & Hk2).
    apply Forall_cons_iff in Hk2 as (Hk0 & Hk2). cbn [fst snd] in Hk0.
    apply Forall_app in Hle as (Hle1 & Hle2).
    apply Forall_cons_iff in Hle2 as (Hle0 & Hle2).
    apply Forall_app in Hnew as (Hnew1 & Hnew2).
    apply Forall_cons_iff in Hnew2 as (Hnew0 & Hnew2).
    repeat split; try assumption.
    + apply Forall_app. split; [exact Hk1|]. now constructor.
    + apply Forall_app. split; [exact Hle1|]. now constructor.
    + apply Forall_app. split; [exact Hnew1|]. now constructor.
  - apply (applyFormRate_absent m maxId f) in E as (Hn & ->).
    assert (Hcur : ~ In (BoppRate.key f) (keysOf current))
      by (intros Hin; apply Hn; now apply Hincl).
    rewrite (suppliesNoNewId_absent current f Hf Hcur).
    cbn [fst snd Z.eqb].
    unfold keyedMap, map_values, idsOf in *.
    rewrite !map_app in *. cbn [map fst snd BoppRate.id] in *.
    repeat split.
    + apply Forall_app. split; [exact Hk|]. now repeat constructor.
    + apply NoDup_snoc; [exact Hnd|]. intros Hin.
      apply in_map_iff in Hin as (r & Hr & Hin).
      rewrite Forall_forall in Hle. specialize (Hle r Hin). lia.
    + apply Forall_app. split.
      * eapply Forall_impl; [|exact Hle]. cbn beta. intros; lia.
      * repeat constructor. cbn [BoppRate.id]. lia.
    + intros k Hin. apply in_or_app. left. now apply Hincl.
    + lia.
    + apply Forall_app. split; [exact Hnew|].
      repeat constructor. cbn [BoppRate.id]. intros _. lia.
Qed.

Lemma generatedInv_fold (current form : list BoppRate) :
  forall acc,
    generatedInv current acc ->
    generatedIdsOnly current form = true ->
    generatedInv current (fold_left Db.applyFormRate form acc).
Proof.
  induction form as [|f form IH]; intros [m maxId] Hinv Hall; [exact Hinv|].
  cbn [fold_left]. unfold generatedIdsOnly in Hall. cbn [forallb] in Hall.
  apply andb_true_iff in Hall as (Hf & Hall).
  apply IH; [now apply generatedInv_step | exact Hall].
Qed.

Lemma generatedInv_start (current : list BoppRate) :
  NoDup (idsOf current) ->
  generatedInv current (map entryOf current, Db.maxIdOf current).
Proof.
  intros Hnd. unfold generatedInv. cbn [fst snd].
  rewrite map_values_entryOf, map_fst_entryOf.
  repeat split.
  - apply keyedMap_entries.
  - exact Hnd.
  - apply maxIdOf_bounds.
  - apply incl_refl.
  - lia.
  - apply Forall_forall. intros r Hin Hn. exfalso. apply Hn.
    unfold keysOf. now apply in_map.
Qed.

Lemma mergeRates_generated (current form : list BoppRate) :
  wellFormedRates current ->
  NoDup (idsOf current) ->
  generatedIdsOnly current form = true ->
  NoDup (idsOf (Db.mergeRates current form))
  /\ forall r, In r (Db.mergeRates current form) ->
               ~ In (BoppRate.key r) (keysOf current) ->
               forall r0, In r0 current -> BoppRate.id r0 < BoppRate.id r.
Proof.
  intros Hwf Hnd Hgen. rewrite mergeRates_entries by apply Hwf.
  pose proof (generatedInv_fold current form _
                (generatedInv_start current Hnd) Hgen)
    as (_ & Hnd' & _ & _ & _ & Hnew).
  split; [exact Hnd'|].
  intros r Hin Hkey r0 Hin0. rewrite Forall_forall in Hnew.
  specialize (Hnew r Hin Hkey).
  pose proof (maxIdOf_bounds current) as Hb. rewrite Forall_forall in Hb.
  specialize (Hb r0 Hin0). cbn beta in Hb. lia.
Qed.

(** ** The rate store on the storage *)

Lemma ratesOf_file (s : Storage) :
  ratesOf s = match rates_file s with
              | Content ratesFromFile => Db.overlayOnDefaults ratesFromFile
              | _ => Db.initialDefaultRates
              end.
Proof.
  unfold ratesOf, Db.getBoppRates, Db.loadRatesFromFile, bind, readFile.
  destruct (rates_file s); reflexivity.
Qed.

Lemma ratesOf_wellFormed (s : Storage) : wellFormedRates (ratesOf s).
Proof.
  rewrite ratesOf_file.
  destruct (rates_file s);
    [apply defaults_wellFormed | apply defaults_wellFormed
     | apply overlay_wellFormed].
Qed.

Lemma historyOf_file (boot : Z) (s : Storage) :
  historyOf boot s = match history_file s with
                     | Content history => history
                     | _ => Db.initialMockRateHistory boot
                     end.
Proof.
  unfold historyOf, Db.loadHistoryFromFile, bind, readFile.
  destruct (history_file s); cbn [fst ret]; try reflexivity.
  apply map_reviveEntry_same.
Qed.

Lemma newHistoryId_max (history : list BoppRateHistory) :
  (if 0 <? Z.of_nat (length history) then Db.maxHistoryId history + 1 else 1)
  = Db.maxHistoryId history + 1.
Proof. destruct history; reflexivity. Qed.

(** What one call of [updateBoppRates] leaves in the storage. *)
Lemma updateBoppRates_run (boot now : Z) (form : list BoppRate)
  (userId userName : string) (s : Storage) :
  Db.updateBoppRates boot now form userId userName s
  = (tt,
     mkStorage
       (Content (Db.mergeRates (ratesOf s) form))
       (Content (slice0 (newEntry boot now userId userName s
                           :: historyOf boot s) 50))
       (users_file s)).
Proof.
  unfold newEntry. rewrite historyOf_file, ratesOf_file.
  unfold Db.updateBoppRates, Db.loadRatesFromFile, Db.loadHistoryFromFile,
    Db.saveRatesToFile, Db.saveHistoryToFile, writeRatesFile, writeHistoryFile,
    bind, readFile, ret.
  destruct s as [rf hf uf]. cbn [rates_file history_file users_file].
  destruct rf, hf; cbn [rates_file history_file users_file];
    rewrite ?map_reviveEntry_same, newHistoryId_max, deepCopy_same;
    reflexivity.
Qed.

Lemma ratesOf_update (boot now : Z) (form : list BoppRate)
  (userId userName : string) (s : Storage) :
  ratesOf (snd (Db.updateBoppRates boot now form userId userName s))
  = Db.mergeRates (ratesOf s) form.
Proof.
  rewrite updateBoppRates_run, ratesOf_file. cbn [snd rates_file].
  apply overlay_fixed, mergeRates_wellFormed, ratesOf_wellFormed.
Qed.

Lemma historyOf_update (boot now : Z) (form : list BoppRate)
  (userId userName : string) (s : Storage) :
  historyOf boot (snd (Db.updateBoppRates boot now form userId userName s))
  = slice0 (newEntry boot now userId userName s :: historyOf boot s) 50.
Proof.
  rewrite updateBoppRates_run, historyOf_file. reflexivity.
Qed.

Lemma getRateHistory_run (boot : Z) (limit : option Z) (s : Storage) :
  Db.getRateHistory boot limit s
  = (slice0 (historyOf boot s) (match limit with Some l => l | None => 5 end),
     mkStorage (rates_file s)
       (match history_file s with
        | Missing => Content (Db.initialMockRateHistory boot)
        | file => file
        end)
       (users_file s)).
Proof.
  rewrite historyOf_file.
  unfold Db.getRateHistory, Db.loadHistoryFromFile, writeHistoryFile, bind,
    readFile, ret.
  destruct s as [rf hf uf]. cbn [rates_file history_file users_file].
  destruct hf; rewrite ?map_reviveEntry_same; reflexivity.
Qed.

(** [fold_right Z.max 0] is an upper bound, and is 0 or one of the
    numbers. *)
Lemma fold_max_bound (l : list Z) :
  (forall x, In x l -> x <= fold_right Z.max 0 l)
  /\ (fold_right Z.max 0 l = 0 \/ In (fold_right Z.max 0 l) l).
Proof.
  induction l as [|a l (IHle & IHin)]; cbn [fold_right In].
  - split; [intros x [] | now left].
  - split.
    + intros x [<-|Hx]; [lia|]. specialize (IHle x Hx). lia.
    + destruct (Z.max_spec a (fold_right Z.max 0 l)) as [(_ & ->)|(_ & ->)].
      * destruct IHin as [H0|Hin]; [now left | right; now right].
      * right. now left.
Qed.

Lemma fold_max_nonneg (l : list Z) : 0 <= fold_right Z.max 0 l.
Proof. induction l; cbn [fold_right]; lia. Qed.

Lemma maxHistoryId_fold (l : list Z) :
  forall a, 0 <= a -> fold_left Z.max l a = Z.max a (fold_right Z.max 0 l).
Proof.
  induction l as [|x l IH]; intros a Ha; cbn [fold_left fold_right].
  - lia.
  - rewrite IH by lia. lia.
Qed.

Lemma maxHistoryId_max (history : list BoppRateHistory) :
  Db.maxHistoryId history
  = fold_right Z.max 0 (map BoppRateHistory.id history).
Proof.
  unfold Db.maxHistoryId.
  rewrite (map_ext _ BoppRateHistory.id) by (intros; apply js_or_0).
  rewrite maxHistoryId_fold by lia.
  assert (H : forall l, 0 <= fold_right Z.max 0 l)
    by (induction l; cbn [fold_right]; lia).
  specialize (H (map BoppRateHistory.id history)). lia.
Qed.

Lemma applyUpdate_history (boot : Z) (s : Storage) (u : Db.Update) :
  history_file (Db.applyUpdate boot s u)
  = Content (slice0 (newEntry boot (Db.at_time u) (Db.actorId u)
                       (Db.actorName u) s :: historyOf boot s) 50).
Proof. unfold Db.applyUpdate. now rewrite updateBoppRates_run. Qed.

Lemma runUpdates_history (boot : Z) (us : list Db.Update) :
  forall s u,
    exists h, history_file (Db.runUpdates boot (u :: us) s) = Content h
              /\ (length h <= 50)%nat.
Proof.
  induction us as [|u' us IH]; intros s u.
  - cbn [Db.runUpdates fold_left]. rewrite applyUpdate_history.
    eexists. split; [reflexivity|]. rewrite slice0_50_length. lia.
  - destruct (IH (Db.applyUpdate boot s u) u') as (h & Hh & Hlen).
    exists h. split; [exact Hh | exact Hlen].
Qed.

Lemma runUpdates_generated (boot : Z) (us : list Db.Update) :
  forall s,
    NoDup (idsOf (ratesOf s)) ->
    generatedIdsOnlyRun boot s us = true ->
    NoDup (idsOf (ratesOf (Db.runUpdates boot us s))).
Proof.
  induction us as [|u us IH]; intros s Hnd Hrun; [exact Hnd|].
  cbn [generatedIdsOnlyRun] in Hrun.
  apply andb_true_iff in Hrun as (Hu & Hrun).
  cbn [Db.runUpdates fold_left]. apply IH; [|exact Hrun].
  unfold Db.applyUpdate. rewrite ratesOf_update.
  now apply mergeRates_generated; [apply ratesOf_wellFormed | |].
Qed.

(** ** The users file *)

Lemma usersOf_file (s : Storage) :
  usersOf s = match users_file s with
              | Content users => users
              | _ => Auth.initialMockUsers
              end.
Proof.
  unfold usersOf, Auth.getAllUsers, Auth.loadUsersFromFile, bind, readFile.
  destruct (users_file s); cbn [fst ret]; try reflexivity.
  apply map_same, reviveUser_same.
Qed.

Lemma loadUsersFromFile_run (s : Storage) :
  Auth.loadUsersFromFile s = (usersOf s, usersRead s).
Proof.
  rewrite usersOf_file. unfold usersRead.
  unfold Auth.loadUsersFromFile, bind, readFile, writeUsersFile, ret.
  destruct s as [rf hf uf]. cbn [rates_file history_file users_file].
  destruct uf; try reflexivity.
  now rewrite (map_same _ a reviveUser_same).
Qed.

Lemma saveUsersToFile_run (users : list AuthenticatedUser) (s : Storage) :
  Auth.saveUsersToFile users s
  = (tt, mkStorage (rates_file s) (history_file s) (Content users)).
Proof.
  unfold Auth.saveUsersToFile, writeUsersFile.
  now rewrite (map_same _ users userToSave_same).
Qed.

Lemma usersRead_present (s : Storage) :
  users_file s <> Missing -> usersRead s = s.
Proof.
  unfold usersRead. destruct s as [rf hf uf]. cbn [rates_file history_file users_file].
  destruct uf; [congruence | reflexivity | reflexivity].
Qed.

Lemma usersOf_usersRead (s : Storage) : usersOf (usersRead s) = usersOf s.
Proof.
  rewrite !usersOf_file. unfold usersRead. cbn [users_file].
  destruct (users_file s); reflexivity.
Qed.

Lemma usersOf_same_file (s1 s2 : Storage) :
  users_file s1 = users_file s2 -> usersOf s1 = usersOf s2.
Proof. intros H. now rewrite !usersOf_file, H. Qed.

Lemma idAndRoleAre_true (userId : string) (r : Role) (u : AuthenticatedUser) :
  Auth.idAndRoleAre userId r u = true
  <-> AuthenticatedUser.id u = userId /\ AuthenticatedUser.role u = r.
Proof.
  unfold Auth.idAndRoleAre. rewrite andb_true_iff, String.eqb_eq.
  destruct (AuthenticatedUser.role u), r; cbn [Role_eqb];
    intuition congruence.
Qed.

Lemma opt_string_eqb_eq (a b : option string) :
  opt_string_eqb a b = true <-> a = b.
Proof.
  destruct a as [x|], b as [y|]; cbn [opt_string_eqb];
    try (split; congruence).
  rewrite String.eqb_eq. split; congruence.
Qed.

Lemma truthy_string_Some (o : option string) :
  truthy_string o = true <-> exists x, o = Some x /\ x <> "".
Proof.
  destruct o as [x|]; cbn [truthy_string].
  - rewrite negb_true_iff. split.
    + intros H. exists x. split; [reflexivity|].
      intros ->. discriminate.
    + intros (y & [= <-] & Hy). now apply String.eqb_neq.
  - split; [discriminate | intros (x & H & _); discriminate].
Qed.

Lemma find_idIs_id (userId : string) (users : list AuthenticatedUser)
  (user : AuthenticatedUser) :
  find (Auth.idIs userId) users = Some user ->
  AuthenticatedUser.id user = userId.
Proof.
  intros H. apply find_some in H as (_ & H). now apply String.eqb_eq in H.
Qed.

Lemma find_idIs_None (userId : string) (users : list AuthenticatedUser) :
  find (Auth.idIs userId) users = None
  <-> forall u, In u users -> AuthenticatedUser.id u <> userId.
Proof.
  split.
  - intros H u Hin Hid.
    pose proof (find_none _ _ H u Hin) as Hn. unfold Auth.idIs in Hn.
    apply String.eqb_neq in Hn. contradiction.
  - intros H. destruct (find (Auth.idIs userId) users) as [u|] eqn:E;
      [|reflexivity].
    apply find_some in E as (Hin & Hid). apply String.eqb_eq in Hid.
    now destruct (H u Hin).
Qed.

Lemma userWithIdAndRole_unique (userId : string) (r : Role) (s : Storage)
  (u : AuthenticatedUser) :
  NoDup (map AuthenticatedUser.id (usersOf s)) ->
  userWithIdAndRole userId r s = Some u
  <-> In u (usersOf s)
      /\ AuthenticatedUser.id u = userId /\ AuthenticatedUser.role u = r.
Proof.
  intros Hnd. unfold userWithIdAndRole. split.
  - intros H. apply find_some in H as (Hin & Hp).
    apply idAndRoleAre_true in Hp. tauto.
  - intros (Hin & Hid & Hr).
    destruct (find (Auth.idAndRoleAre userId r) (usersOf s)) as [v|] eqn:E.
    + apply find_some in E as (Hv & Hp).
      apply idAndRoleAre_true in Hp as (Hvid & _).
      f_equal. apply (NoDup_map_inj AuthenticatedUser.id (usersOf s));
        try assumption. congruence.
    + pose proof (find_none _ _ E u Hin) as Hn.
      assert (Ht : Auth.idAndRoleAre userId r u = true)
        by now apply idAndRoleAre_true.
      congruence.
Qed.

Lemma toString_not_empty (n : Z) : toString n <> "".
Proof.
  unfold toString. destruct (Z.to_int n) as [d|d];
    cbn [NilZero.string_of_int]; destruct d; cbn; discriminate.
Qed.

(** ** The auth store on the storage *)

Ltac auth_run :=
  unfold bind;
  rewrite ?loadUsersFromFile_run, ?saveUsersToFile_run;
  unfold ret; cbn [fst snd rates_file history_file users_file].

Lemma verifyOtp_run (now : Z) (userId otp : string) (s : Storage) :
  snd (Auth.verifyOtp now userId otp s) = usersRead s.
Proof.
  unfold Auth.verifyOtp, bind. rewrite loadUsersFromFile_run.
  destruct (find _ _) as [user|]; [|reflexivity].
  destruct (orb _ _); [reflexivity|].
  destruct (AuthenticatedUser.otp_created_at user); [|reflexivity].
  destruct (_ >? _); [reflexivity|].
  destruct (opt_string_eqb _ _); reflexivity.
Qed.

(** With a code on record, the answer of [verifyOtp] as a function of the
    age of the code and of the code submitted. *)
Lemma verifyOtp_on_record (now : Z) (userId otp : string) (s : Storage)
  (user : AuthenticatedUser) (stored : string) (created : Z) :
  userWithIdAndRole userId employee s = Some user ->
  AuthenticatedUser.otp user = Some stored -> stored <> "" ->
  AuthenticatedUser.otp_created_at user = Some created ->
  fst (Auth.verifyOtp now userId otp s)
  = if now - created >? 300000
    then Auth.loginFailure "OTP has expired. Please generate a new one."
    else if String.eqb otp stored then Auth.loginSuccess user
         else Auth.loginFailure "Invalid OTP".
Proof.
  unfold userWithIdAndRole. intros Hf Ho Hne Hc.
  unfold Auth.verifyOtp, bind. rewrite loadUsersFromFile_run, Hf, Ho, Hc.
  cbn [truthy_string truthy_date negb orb opt_string_eqb].
  apply String.eqb_neq in Hne. rewrite Hne. cbn [negb].
  change Auth.fiveMinutes with 300000.
  destruct (_ >? _); [reflexivity|].
  destruct (String.eqb otp stored); reflexivity.
Qed.

Lemma loginUser_run (userId : string) (password : option string)
  (s : Storage) :
  snd (Auth.loginUser userId password s) = usersRead s.
Proof.
  unfold Auth.loginUser, bind. rewrite loadUsersFromFile_run.
  destruct (find _ _) as [user|]; [|reflexivity].
  destruct (Role_eqb _ _); [|reflexivity].
  destruct (andb _ _); [reflexivity|].
  destruct (andb _ _); reflexivity.
Qed.

Lemma fetchUserDetails_run (userId : string) (s : Storage) :
  snd (Auth.fetchUserDetails userId s) = usersRead s.
Proof.
  unfold Auth.fetchUserDetails. auth_run.
  destruct (find _ _); reflexivity.
Qed.

Lemma deleteUser_run (userId : string) (s : Storage) :
  Auth.deleteUser userId s
  = if orb (String.eqb userId "admin") (String.eqb userId "employee")
    then (Auth.basicFailure
            ("The default '" ++ userId ++ "' account cannot be deleted.")%string,
          usersRead s)
    else if Nat.ltb
              (length (filter (fun u => negb (Auth.idIs userId u)) (usersOf s)))
              (length (usersOf s))
    then (Auth.basicSuccess "User deleted successfully." None,
          mkStorage (rates_file s) (history_file s)
            (Content (filter (fun u => negb (Auth.idIs userId u)) (usersOf s))))
    else (Auth.basicFailure "User not found.", usersRead s).
Proof.
  unfold Auth.deleteUser. auth_run.
  destruct (orb _ _); [reflexivity|].
  destruct (Nat.ltb _ _); [|reflexivity].
  auth_run. reflexivity.
Qed.

Lemma addUser_failure (userId userName passwordProvided : string) (role : Role)
  (s : Storage) :
  BasicResponse.success
    (fst (Auth.addUser userId userName passwordProvided role s)) = false ->
  snd (Auth.addUser userId userName passwordProvided role s) = usersRead s.
Proof.
  unfold Auth.addUser. auth_run.
  destruct (find _ _); auth_run; [reflexivity | discriminate].
Qed.

Lemma deleteUser_failure (userId : string) (s : Storage) :
  BasicResponse.success (fst (Auth.deleteUser userId s)) = false ->
  snd (Auth.deleteUser userId s) = usersRead s.
Proof.
  rewrite deleteUser_run.
  destruct (orb _ _); [reflexivity|].
  destruct (Nat.ltb _ _); [discriminate | reflexivity].
Qed.

Lemma generateAndStoreOTP_failure (now : Z) (rnd : Q) (userId : string)
  (s : Storage) :
  BasicResponse.success (fst (Auth.generateAndStoreOTP now rnd userId s))
  = false ->
  snd (Auth.generateAndStoreOTP now rnd userId s) = usersRead s.
Proof.
  unfold Auth.generateAndStoreOTP. auth_run.
  destruct (findIndex _ _); auth_run; [discriminate | reflexivity].
Qed.

Lemma updateAdminDetails_failure (adminId name : string)
  (newPassword : option string) (s : Storage) :
  BasicResponse.success (fst (Auth.updateAdminDetails adminId name newPassword s))
  = false ->
  snd (Auth.updateAdminDetails adminId name newPassword s) = usersRead s.
Proof.
  unfold Auth.updateAdminDetails. auth_run.
  destruct (find _ _); auth_run; [discriminate | reflexivity].
Qed.

Lemma revokeOTP_failure (userId : string) (s : Storage) :
  BasicResponse.success (fst (Auth.revokeOTP userId s)) = false ->
  snd (Auth.revokeOTP userId s) = usersRead s.
Proof.
  unfold Auth.revokeOTP. auth_run.
  destruct (find _ _); auth_run; [discriminate | reflexivity].
Qed.

Lemma generateAndStoreOTP_users (now : Z) (rnd : Q) (userId : string)
  (s : Storage) :
  usersOf (snd (Auth.generateAndStoreOTP now rnd userId s))
  = match findIndex (Auth.idAndRoleAre userId employee) (usersOf s) with
    | Some userIndex =>
        update_at userIndex
          (fun user =>
             AuthenticatedUser.mk (AuthenticatedUser.id user)
               (AuthenticatedUser.name user) (AuthenticatedUser.role user)
               (AuthenticatedUser.password user) (Some (Auth.newOtpOf rnd))
               (Some now))
          (usersOf s)
    | None => usersOf s
    end.
Proof.
  unfold Auth.generateAndStoreOTP. auth_run.
  destruct (findIndex _ _); auth_run;
    [now rewrite usersOf_file | apply usersOf_usersRead].
Qed.

Lemma addUser_users (userId userName passwordProvided : string) (role : Role)
  (s : Storage) :
  usersOf (snd (Auth.addUser userId userName passwordProvided role s))
  = match find (Auth.idIsNoCase userId) (usersOf s) with
    | Some _ => usersOf s
    | None =>
        usersOf s
          ++ [AuthenticatedUser.mk userId userName role
                (if Role_eqb role admin then Some passwordProvided else None)
                None None]
    end.
Proof.
  unfold Auth.addUser. auth_run.
  destruct (find _ _); auth_run;
    [apply usersOf_usersRead | now rewrite usersOf_file].
Qed.

Lemma deleteUser_users (userId : string) (s : Storage) :
  usersOf (snd (Auth.deleteUser userId s))
  = if orb (String.eqb userId "admin") (String.eqb userId "employee")
    then usersOf s
    else filter (fun u => negb (Auth.idIs userId u)) (usersOf s).
Proof.
  rewrite deleteUser_run.
  destruct (orb _ _); [apply usersOf_usersRead|].
  destruct (Nat.ltb _ _) eqn:E; cbn [snd]; [now rewrite usersOf_file|].
  rewrite usersOf_usersRead. symmetry.
  apply Nat.ltb_ge in E.
  apply forallb_filter_id. apply forallb_forall. intros u Hin.
  destruct (negb (Auth.idIs userId u)) eqn:Ep; [reflexivity|].
  exfalso.
  assert (Hlt : (length (filter (fun u => negb (Auth.idIs userId u))
                           (usersOf s)) < length (usersOf s))%nat)
    by (apply filter_length_lt; now exists u).
  lia.
Qed.

Lemma updateAdminDetails_users (adminId name : string)
  (newPassword : option string) (s : Storage) :
  usersOf (snd (Auth.updateAdminDetails adminId name newPassword s))
  = update_found (Auth.idAndRoleAre adminId admin)
      (fun adminUser =>
         AuthenticatedUser.mk (AuthenticatedUser.id adminUser)
           (if truthy_string (Some name) then name
            else AuthenticatedUser.name adminUser)
           (AuthenticatedUser.role adminUser)
           (if truthy_string newPassword then newPassword
            else AuthenticatedUser.password adminUser)
           (AuthenticatedUser.otp adminUser)
           (AuthenticatedUser.otp_created_at adminUser))
      (usersOf s).
Proof.
  unfold Auth.updateAdminDetails. auth_run.
  destruct (find _ _) eqn:E; auth_run; [now rewrite usersOf_file|].
  rewrite usersOf_usersRead, update_found_findIndex.
  destruct (findIndex _ _) as [i|] eqn:Ei; [|reflexivity].
  exfalso. clear -E Ei. revert i Ei.
  induction (usersOf s) as [|x l IH]; cbn [findIndex find] in *;
    [discriminate|].
  destruct (Auth.idAndRoleAre adminId admin x); [discriminate|].
  intros i Ei. destruct (findIndex _ l) as [j|]; [|discriminate].
  now apply (IH E j).
Qed.

Lemma revokeOTP_users (userId : string) (s : Storage) :
  usersOf (snd (Auth.revokeOTP userId s))
  = update_found (Auth.idAndRoleAre userId employee)
      (fun user =>
         AuthenticatedUser.mk (AuthenticatedUser.id user)
           (AuthenticatedUser.name user) (AuthenticatedUser.role user)
           (AuthenticatedUser.password user) None None)
      (usersOf s).
Proof.
  unfold Auth.revokeOTP. auth_run.
  destruct (find _ _) eqn:E; auth_run; [now rewrite usersOf_file|].
  rewrite usersOf_usersRead, update_found_findIndex.
  destruct (findIndex _ _) as [i|] eqn:Ei; [|reflexivity].
  exfalso. clear -E Ei. revert i Ei.
  induction (usersOf s) as [|x l IH]; cbn [findIndex find] in *;
    [discriminate|].
  destruct (Auth.idAndRoleAre userId employee x); [discriminate|].
  intros i Ei. destruct (findIndex _ l) as [j|]; [|discriminate].
  now apply (IH E j).
Qed.

(** ** Reachable states *)

Lemma usersInv_defaults : usersInv Auth.initialMockUsers.
Proof.
  split; [|split].
  - set (l := map (fun u => toLowerCase (AuthenticatedUser.id u))
                Auth.initialMockUsers).
    assert (H : nodup string_dec l = l) by (vm_compute; reflexivity).
    rewrite <- H. apply NoDup_nodup.
  - unfold Auth.initialMockUsers. repeat constructor.
  - eexists. split; reflexivity.
Qed.

Lemma usersInv_update_at (f : AuthenticatedUser -> AuthenticatedUser)
  (users : list AuthenticatedUser) (i : nat) :
  (forall u, AuthenticatedUser.id (f u) = AuthenticatedUser.id u) ->
  (forall u, AuthenticatedUser.role (f u) = AuthenticatedUser.role u) ->
  (forall u, otpPaired u -> otpPaired (f u)) ->
  usersInv users -> usersInv (update_at i f users).
Proof.
  intros Hid Hrole Hotp (Hnd & Hall & (a & Ha & Har)).
  split; [|split].
  - rewrite update_at_map; [exact Hnd|]. intros u. now rewrite Hid.
  - now apply update_at_Forall.
  - destruct (update_at_find (Auth.idIs "admin") f users a) with (i := i)
      as (a' & Ha' & [->| ->]); try assumption.
    + intros u. unfold Auth.idIs. now rewrite Hid.
    + now exists a.
    + exists (f a). split; [exact Ha' | now rewrite Hrole].
Qed.

Lemma usersInv_update_found (p : AuthenticatedUser -> bool)
  (f : AuthenticatedUser -> AuthenticatedUser)
  (users : list AuthenticatedUser) :
  (forall u, AuthenticatedUser.id (f u) = AuthenticatedUser.id u) ->
  (forall u, AuthenticatedUser.role (f u) = AuthenticatedUser.role u) ->
  (forall u, otpPaired u -> otpPaired (f u)) ->
  usersInv users -> usersInv (update_found p f users).
Proof.
  intros Hid Hrole Hotp Hinv. rewrite update_found_findIndex.
  destruct (findIndex p users); [now apply usersInv_update_at | exact Hinv].
Qed.

Lemma usersInv_add (users : list AuthenticatedUser) (userId userName : string)
  (role : Role) (password : option string) :
  usersInv users ->
  find (Auth.idIsNoCase userId) users = None ->
  usersInv (users ++ [AuthenticatedUser.mk userId userName role password
                        None None]).
Proof.
  intros (Hnd & Hall & (a & Ha & Har)) Hnone.
  split; [|split].
  - rewrite map_app. cbn [map AuthenticatedUser.id].
    apply NoDup_snoc; [exact Hnd|].
    intros Hin. apply in_map_iff in Hin as (u & Hu & Hin).
    pose proof (find_none _ _ Hnone u Hin) as Hn.
    unfold Auth.idIsNoCase in Hn. apply String.eqb_neq in Hn. contradiction.
  - apply Forall_app. split; [exact Hall|]. now repeat constructor.
  - exists a. split; [now apply find_app_Some | exact Har].
Qed.

Lemma usersInv_filter (users : list AuthenticatedUser) (userId : string) :
  userId <> "admin" ->
  usersInv users ->
  usersInv (filter (fun u => negb (Auth.idIs userId u)) users).
Proof.
  intros Hne (Hnd & Hall & (a & Ha & Har)).
  split; [|split].
  - now apply NoDup_filter_map.
  - apply Forall_forall. intros u Hin. apply filter_In in Hin as (Hin & _).
    rewrite Forall_forall in Hall. now apply Hall.
  - exists a. split; [|exact Har]. rewrite find_filter; [exact Ha|].
    intros u Hu. unfold Auth.idIs in *. apply String.eqb_eq in Hu.
    apply negb_true_iff, String.eqb_neq. congruence.
Qed.

(** The rate store leaves the users file alone, and the auth store the rates
    file and the history file. *)
Lemma db_calls_keep_users_file (boot : Z) (s : Storage) :
  users_file (snd (Db.getBoppRates s)) = users_file s
  /\ (forall now form userId userName,
         users_file (snd (Db.updateBoppRates boot now form userId userName s))
         = users_file s)
  /\ (forall limit,
         users_file (snd (Db.getRateHistory boot limit s)) = users_file s).
Proof.
  split; [|split].
  - unfold Db.getBoppRates, Db.loadRatesFromFile, bind, readFile,
      writeRatesFile, ret.
    destruct (rates_file s); reflexivity.
  - intros. now rewrite updateBoppRates_run.
  - intros. now rewrite getRateHistory_run.
Qed.

Lemma auth_calls_keep_rate_files (boot : Z) (c : Call) (s : Storage) :
  match c with
  | GetBoppRates | UpdateBoppRates _ _ _ _ | GetRateHistory _ => True
  | _ => rates_file (storageAfter boot c s) = rates_file s
         /\ history_file (storageAfter boot c s) = history_file s
  end.
Proof.
  destruct c; cbn [storageAfter]; try exact I.
  - now rewrite fetchUserDetails_run.
  - now rewrite loginUser_run.
  - unfold Auth.generateAndStoreOTP. auth_run.
    destruct (findIndex _ _); auth_run; split; reflexivity.
  - now rewrite verifyOtp_run.
  - unfold Auth.addUser. auth_run.
    destruct (find _ _); auth_run; split; reflexivity.
  - rewrite deleteUser_run. destruct (orb _ _); [split; reflexivity|].
    destruct (Nat.ltb _ _); split; reflexivity.
  - unfold Auth.updateAdminDetails. auth_run.
    destruct (find _ _); auth_run; split; reflexivity.
  - unfold Auth.getAllUsers. now rewrite loadUsersFromFile_run.
  - unfold Auth.revokeOTP. auth_run.
    destruct (find _ _); auth_run; split; reflexivity.
Qed.

Lemma usersInv_preserved (boot : Z) (c : Call) (s : Storage) :
  usersInv (usersOf s) -> usersInv (usersOf (storageAfter boot c s)).
Proof.
  intros Hinv.
  destruct (db_calls_keep_users_file boot s) as (Hget & Hupd & Hhist).
  destruct c; cbn [storageAfter].
  - now rewrite (usersOf_same_file _ s Hget).
  - now rewrite (usersOf_same_file _ s (Hupd _ _ _ _)).
  - now rewrite (usersOf_same_file _ s (Hhist _)).
  - now rewrite fetchUserDetails_run, usersOf_usersRead.
  - now rewrite loginUser_run, usersOf_usersRead.
  - rewrite generateAndStoreOTP_users.
    destruct (findIndex _ _); [|exact Hinv].
    apply usersInv_update_at; try assumption; try reflexivity.
    intros u _. unfold otpPaired. cbn [AuthenticatedUser.otp
      AuthenticatedUser.otp_created_at]. apply toString_not_empty.
  - now rewrite verifyOtp_run, usersOf_usersRead.
  - rewrite addUser_users.
    destruct (find _ _) eqn:E; [exact Hinv | now apply usersInv_add].
  - rewrite deleteUser_users.
    destruct (String.eqb_spec userIdToDelete "admin") as [->|Hne];
      cbn [orb]; [exact Hinv|].
    destruct (String.eqb userIdToDelete "employee"); [exact Hinv|].
    now apply usersInv_filter.
  - rewrite updateAdminDetails_users.
    apply usersInv_update_found; try assumption; try reflexivity.
    intros u Hu. exact Hu.
  - change (Auth.getAllUsers s) with (Auth.loadUsersFromFile s).
    rewrite loadUsersFromFile_run. cbn [snd]. now rewrite usersOf_usersRead.
  - rewrite revokeOTP_users.
    apply usersInv_update_found; try assumption; try reflexivity.
Qed.

Lemma reachable_usersInv (s : Storage) :
  reachable s -> usersInv (usersOf s).
Proof.
  induction 1 as [|boot s c _ IH].
  - exact usersInv_defaults.
  - now apply usersInv_preserved.
Qed.

Lemma usersInv_ids_unique (users : list AuthenticatedUser) :
  usersInv users -> NoDup (map AuthenticatedUser.id users).
Proof.
  intros (Hnd & _). apply (NoDup_map_inv toLowerCase).
  now rewrite map_map.
Qed.

Lemma reachable_history_cap (boot : Z) (s : Storage) :
  reachable s -> (length (historyOf boot s) <= 50)%nat.
Proof.
  intros Hreach. revert boot.
  induction Hreach as [|boot' s c _ IH]; intros boot.
  - rewrite historyOf_file. cbn. lia.
  - specialize (IH boot).
    pose proof (auth_calls_keep_rate_files boot' c s) as Hkeep.
    destruct c; cbn [storageAfter] in *;
      try (destruct Hkeep as (_ & Hh);
           rewrite historyOf_file, Hh, <- historyOf_file; exact IH).
    + rewrite historyOf_file.
      unfold Db.getBoppRates, Db.loadRatesFromFile, bind, readFile,
        writeRatesFile, ret.
      destruct s as [rf hf uf]. rewrite historyOf_file in IH.
      destruct rf; exact IH.
    + rewrite updateBoppRates_run, historyOf_file. cbn [snd history_file].
      rewrite slice0_50_length. lia.
    + rewrite getRateHistory_run, historyOf_file. cbn [snd history_file].
      rewrite historyOf_file in IH.
      destruct (history_file s); [cbn; lia | exact IH | exact IH].
Qed.

(** In any state: success exactly for the code on record, not older than
    300000 ms, of the user the lookup by id and role [employee] yields. *)
Lemma verifyOtp_success_found (now : Z) (userId otp : string) (s : Storage) :
  LoginResponse.success (fst (Auth.verifyOtp now userId otp s)) = true
  <-> exists user stored created,
        userWithIdAndRole userId employee s = Some user
        /\ AuthenticatedUser.otp user = Some stored /\ stored <> ""
        /\ AuthenticatedUser.otp_created_at user = Some created
        /\ now - created <= 300000
        /\ otp = stored.
Proof.
  split.
  - intros Hok.
    unfold Auth.verifyOtp, bind in Hok.
    rewrite loadUsersFromFile_run in Hok.
    fold (userWithIdAndRole userId employee s) in Hok.
    destruct (userWithIdAndRole userId employee s) as [user|];
      [|discriminate].
    destruct (truthy_string (AuthenticatedUser.otp user)) eqn:Eo;
      [|discriminate].
    apply truthy_string_Some in Eo as (stored & Eo & Hne).
    destruct (AuthenticatedUser.otp_created_at user) as [created|] eqn:Ec;
      [|discriminate].
    cbn [truthy_date negb orb] in Hok.
    change Auth.fiveMinutes with 300000 in Hok.
    destruct (Z.gtb_spec (now - created) 300000) as [Hgt|Hle];
      [discriminate|].
    destruct (opt_string_eqb (Some otp) (AuthenticatedUser.otp user)) eqn:Em;
      [|discriminate].
    apply opt_string_eqb_eq in Em. rewrite Eo in Em. injection Em as ->.
    exists user, stored, created. repeat split; try assumption.
  - intros (user & stored & created & Hf & Ho & Hne & Hc & Hage & ->).
    rewrite (verifyOtp_on_record now userId stored s user stored created)
      by assumption.
    destruct (Z.gtb_spec (now - created) 300000) as [Hgt|_]; [lia|].
    now rewrite String.eqb_refl.
Qed.

(** In a reachable state no two users have the same id and a code on record
    is never empty, so the same reads: some user has the id, the role
    [employee] and a code on record, not older than 300000 ms, which is the
    code submitted. *)
Lemma verifyOtp_success_reachable (now : Z) (userId otp : string)
  (s : Storage) :
  reachable s ->
  LoginResponse.success (fst (Auth.verifyOtp now userId otp s)) = true
  <-> exists user stored created,
        In user (usersOf s)
        /\ AuthenticatedUser.id user = userId
        /\ AuthenticatedUser.role user = employee
        /\ AuthenticatedUser.otp user = Some stored
        /\ AuthenticatedUser.otp_created_at user = Some created
        /\ now - created <= 300000
        /\ otp = stored.
Proof.
  intros Hreach. pose proof (reachable_usersInv s Hreach) as Hinv.
  pose proof (usersInv_ids_unique _ Hinv) as Hnd.
  destruct Hinv as (_ & Hpaired & _).
  rewrite verifyOtp_success_found. split.
  - intros (user & stored & created & Hf & Ho & _ & Hc & Hage & Heq).
    apply (userWithIdAndRole_unique userId employee s user Hnd) in Hf
      as (Hin & Hid & Hrole).
    exists user, stored, created. repeat split; assumption.
  - intros (user & stored & created & Hin & Hid & Hrole & Ho & Hc & Hage & Heq).
    exists user, stored, created.
    split; [now apply (userWithIdAndRole_unique userId employee s user Hnd)|].
    split; [exact Ho|]. split; [|repeat split; assumption].
    rewrite Forall_forall in Hpaired. specialize (Hpaired user Hin).
    unfold otpPaired in Hpaired. now rewrite Ho, Hc in Hpaired.
Qed.


(** ** The rate store with the ids added in binary64 *)

Lemma defaultRatesWithIds64 :
  Db64.defaultRatesWithIds = Db.initialDefaultRates.
Proof. reflexivity. Qed.

Lemma seeded_defaults64 :
  fold_left Db64.seedDefault Db.initialDefaultRates
    (Db.maxPresentId Db.initialDefaultRates, [])
  = (16, map entryOf Db.initialDefaultRates).
Proof. reflexivity. Qed.

(** A rate that carries an id is laid over the map without an addition. *)
Lemma overlayFileRate64_with_id (acc : Z * JsMap BoppRate) (r : BoppRate) :
  BoppRate.id r <> 0 -> Db64.overlayFileRate acc r = Db.overlayFileRate acc r.
Proof.
  intros H. destruct acc as [maxId m].
  unfold Db64.overlayFileRate, Db.overlayFileRate.
  apply Z.eqb_neq in H. now rewrite H.
Qed.

Lemma overlay64_with_ids (l : list BoppRate) :
  Forall (fun r => BoppRate.id r <> 0) l ->
  forall acc,
    fold_left Db64.overlayFileRate l acc = fold_left Db.overlayFileRate l acc.
Proof.
  induction 1 as [|r l Hr _ IH]; intros acc; cbn [fold_left]; [reflexivity|].
  rewrite (overlayFileRate64_with_id acc r Hr). apply IH.
Qed.

Lemma overlayOnDefaults64_with_ids (ratesFromFile : list BoppRate) :
  Forall (fun r => BoppRate.id r <> 0) ratesFromFile ->
  Db64.overlayOnDefaults ratesFromFile = Db.overlayOnDefaults ratesFromFile.
Proof.
  intros H. unfold Db64.overlayOnDefaults, Db.overlayOnDefaults. cbv zeta.
  rewrite seeded_defaults64, seeded_defaults.
  now rewrite (overlay64_with_ids _ H).
Qed.

Lemma ratesOf64_file (s : Storage) :
  ratesOf64 s = match rates_file s with
                | Content ratesFromFile => Db64.overlayOnDefaults ratesFromFile
                | _ => Db.initialDefaultRates
                end.
Proof.
  unfold ratesOf64, Db64.getBoppRates, Db64.loadRatesFromFile, bind, readFile.
  destruct (rates_file s); reflexivity.
Qed.

(** Reading a rates file whose rates all carry an id involves no addition:
    [Db64] and [Db] read the same. *)
Lemma ratesOf64_same (s : Storage) :
  ratesFileHasIds s -> ratesOf64 s = ratesOf s.
Proof.
  intros H. rewrite ratesOf64_file, ratesOf_file.
  unfold ratesFileHasIds in H.
  destruct (rates_file s); try reflexivity.
  now apply overlayOnDefaults64_with_ids.
Qed.

Lemma applyFormRate64_same (m : JsMap BoppRate) (maxId : Z) (f : BoppRate) :
  0 <= maxId < 2 ^ 53 ->
  Db64.applyFormRate (m, maxId) f = Db.applyFormRate (m, maxId) f.
Proof.
  intros H. unfold Db64.applyFormRate, Db.applyFormRate.
  now rewrite (inc64_exact maxId H).
Qed.

Lemma applyFormRate_max (m : JsMap BoppRate) (maxId : Z) (f : BoppRate) :
  maxId <= snd (Db.applyFormRate (m, maxId) f) <= maxId + 1.
Proof.
  unfold Db.applyFormRate. destruct (map_get _ _); [cbn [snd]; lia|].
  destruct (_ =? 0); cbn [snd]; lia.
Qed.

Lemma applyFormRate_fold_max (form : list BoppRate) :
  forall m maxId,
    maxId <= snd (fold_left Db.applyFormRate form (m, maxId))
    <= maxId + Z.of_nat (length form).
Proof.
  induction form as [|f form IH]; intros m maxId; cbn [fold_left length];
    [cbn [snd]; lia|].
  pose proof (applyFormRate_max m maxId f) as Hm.
  destruct (Db.applyFormRate (m, maxId) f) as [m' maxId']. cbn [snd] in Hm.
  specialize (IH m' maxId'). lia.
Qed.

(** While the running maximum stays below 2^53, every generated id is the
    one [Db] generates. *)
Lemma applyFormRate64_fold_same (form : list BoppRate) :
  forall m maxId,
    0 <= maxId -> maxId + Z.of_nat (length form) <= 2 ^ 53 ->
    fold_left Db64.applyFormRate form (m, maxId)
    = fold_left Db.applyFormRate form (m, maxId).
Proof.
  induction form as [|f form IH]; intros m maxId H0 Hb;
    cbn [fold_left length] in *; [reflexivity|].
  rewrite applyFormRate64_same by lia.
  pose proof (applyFormRate_max m maxId f) as Hm.
  destruct (Db.applyFormRate (m, maxId) f) as [m' maxId']. cbn [snd] in Hm.
  apply IH; lia.
Qed.

Lemma mergeRates64_same (current form : list BoppRate) :
  Db.maxIdOf current + Z.of_nat (length form) <= 2 ^ 53 ->
  Db64.mergeRates current form = Db.mergeRates current form.
Proof.
  intros H. unfold Db64.mergeRates, Db.mergeRates.
  rewrite applyFormRate64_fold_same;
    [reflexivity | apply maxIdOf_nonneg | exact H].
Qed.

Lemma newHistoryId64_max (history : list BoppRateHistory) :
  (if 0 <? Z.of_nat (length history)
   then inc64 (Db.maxHistoryId history) else 1)
  = inc64 (Db.maxHistoryId history).
Proof. destruct history; [vm_compute; reflexivity | reflexivity]. Qed.

(** What one call of [Db64.updateBoppRates] leaves in the storage. *)
Lemma updateBoppRates64_run (boot now : Z) (form : list BoppRate)
  (userId userName : string) (s : Storage) :
  Db64.updateBoppRates boot now form userId userName s
  = (tt,
     mkStorage
       (Content (Db64.mergeRates (ratesOf64 s) form))
       (Content (slice0 (newEntry64 boot now userId userName s
                           :: historyOf boot s) 50))
       (users_file s)).
Proof.
  unfold newEntry64. rewrite historyOf_file, ratesOf64_file.
  unfold Db64.updateBoppRates, Db64.loadRatesFromFile, Db.loadHistoryFromFile,
    Db.saveRatesToFile, Db.saveHistoryToFile, writeRatesFile, writeHistoryFile,
    bind, readFile, ret.
  destruct s as [rf hf uf]. cbn [rates_file history_file users_file].
  destruct rf, hf; cbn [rates_file history_file users_file];
    rewrite ?map_reviveEntry_same, newHistoryId64_max, deepCopy_same;
    reflexivity.
Qed.

Lemma historyOf_update64 (boot now : Z) (form : list BoppRate)
  (userId userName : string) (s : Storage) :
  historyOf boot (snd (Db64.updateBoppRates boot now form userId userName s))
  = slice0 (newEntry64 boot now userId userName s :: historyOf boot s) 50.
Proof.
  rewrite updateBoppRates64_run, historyOf_file. reflexivity.
Qed.

Lemma applyUpdate64_history (boot : Z) (s : Storage) (u : Db.Update) :
  history_file (Db64.applyUpdate boot s u)
  = Content (slice0 (newEntry64 boot (Db.at_time u) (Db.actorId u)
                       (Db.actorName u) s :: historyOf boot s) 50).
Proof. unfold Db64.applyUpdate. now rewrite updateBoppRates64_run. Qed.

Lemma runUpdates64_history (boot : Z) (us : list Db.Update) :
  forall s u,
    exists h, history_file (Db64.runUpdates boot (u :: us) s) = Content h
              /\ (length h <= 50)%nat.
Proof.
  induction us as [|u' us IH]; intros s u.
  - cbn [Db64.runUpdates fold_left]. rewrite applyUpdate64_history.
    eexists. split; [reflexivity|]. rewrite slice0_50_length. lia.
  - destruct (IH (Db64.applyUpdate boot s u) u') as (h & Hh & Hlen).
    exists h. split; [exact Hh | exact Hlen].
Qed.

(** *** The shape of what is read and merged *)

Lemma overlay64_step_shape (maxId : Z) (m : JsMap BoppRate) (r : BoppRate) :
  keyedMap m -> wellFormedRates (map_values m) -> 0 <= maxId ->
  keyedMap (snd (Db64.overlayFileRate (maxId, m) r))
  /\ wellFormedRates (map_values (snd (Db64.overlayFileRate (maxId, m) r)))
  /\ 0 <= fst (Db64.overlayFileRate (maxId, m) r).
Proof.
  intros Hk Hwf Hmax. pose proof (inc64_positive maxId Hmax) as Hinc.
  unfold Db64.overlayFileRate, Db.spread.
  destruct (Z.eqb_spec (BoppRate.id r) 0) as [H0|H0];
    cbn [fst snd BoppRate.key BoppRate.id BoppRate.value].
  - pose proof (set_keeps_shape m
      (BoppRate.mk (inc64 maxId) (BoppRate.key r) (BoppRate.value r)) Hk Hwf)
      as Hs.
    cbn [BoppRate.key BoppRate.id] in Hs.
    destruct Hs as (H1 & H2); [lia|].
    repeat split; try assumption; try apply H2. lia.
  - rewrite BoppRate_eta.
    destruct (set_keeps_shape m r Hk Hwf H0) as (H1 & H2).
    repeat split; try assumption; try apply H2.
    destruct (BoppRate.id r >? maxId) eqn:E; lia.
Qed.

Lemma overlay64_fold_shape (l : list BoppRate) :
  forall maxId m,
    keyedMap m -> wellFormedRates (map_values m) -> 0 <= maxId ->
    wellFormedRates
      (map_values (snd (fold_left Db64.overlayFileRate l (maxId, m)))).
Proof.
  induction l as [|r l IH]; intros maxId m Hk Hwf Hmax; [exact Hwf|].
  cbn [fold_left].
  destruct (overlay64_step_shape maxId m r Hk Hwf Hmax) as (H1 & H2 & H3).
  destruct (Db64.overlayFileRate (maxId, m) r) as [maxId' m'].
  now apply IH.
Qed.

Lemma overlay64_wellFormed (ratesFromFile : list BoppRate) :
  wellFormedRates (Db64.overlayOnDefaults ratesFromFile).
Proof.
  unfold Db64.overlayOnDefaults. cbv zeta. rewrite seeded_defaults64.
  apply overlay64_fold_shape.
  - apply keyedMap_entries.
  - rewrite map_values_entryOf. apply defaults_wellFormed.
  - lia.
Qed.

Lemma ratesOf64_wellFormed (s : Storage) : wellFormedRates (ratesOf64 s).
Proof.
  rewrite ratesOf64_file.
  destruct (rates_file s);
    [apply defaults_wellFormed | apply defaults_wellFormed
     | apply overlay64_wellFormed].
Qed.

Lemma overlay64_fixed (l : list BoppRate) :
  wellFormedRates l -> Db64.overlayOnDefaults l = l.
Proof.
  intros H. rewrite overlayOnDefaults64_with_ids by apply H.
  now apply overlay_fixed.
Qed.

Lemma applyFormRate64_present (m : JsMap BoppRate) (maxId : Z)
  (f e : BoppRate) :
  map_get (BoppRate.key f) m = Some e ->
  exists m1 m2,
    m = m1 ++ (BoppRate.key f, e) :: m2
    /\ ~ In (BoppRate.key f) (map fst m1)
    /\ Db64.applyFormRate (m, maxId) f
       = (m1 ++ (BoppRate.key f,
                 BoppRate.mk (BoppRate.id e) (BoppRate.key e) (BoppRate.value f))
             :: m2,
          maxId).
Proof.
  intros E. unfold Db64.applyFormRate. rewrite E.
  apply map_get_Some_split in E as (m1 & m2 & -> & Hn).
  exists m1, m2. repeat split; [exact Hn|].
  now rewrite map_set_present.
Qed.

Lemma applyFormRate64_absent (m : JsMap BoppRate) (maxId : Z) (f : BoppRate) :
  map_get (BoppRate.key f) m = None ->
  ~ In (BoppRate.key f) (map fst m)
  /\ Db64.applyFormRate (m, maxId) f
     = (m ++ [(BoppRate.key f,
               BoppRate.mk
                 (if BoppRate.id f =? 0 then inc64 maxId else BoppRate.id f)
                 (BoppRate.key f) (BoppRate.value f))],
        if BoppRate.id f =? 0 then inc64 maxId else maxId).
Proof.
  intros E. unfold Db64.applyFormRate. rewrite E.
  apply map_get_None in E. split; [exact E|].
  destruct (BoppRate.id f =? 0); now rewrite map_set_absent.
Qed.

Lemma applyFormRate64_shape (m : JsMap BoppRate) (maxId : Z) (f : BoppRate) :
  keyedMap m -> wellFormedRates (map_values m) -> 0 <= maxId ->
  keyedMap (fst (Db64.applyFormRate (m, maxId) f))
  /\ wellFormedRates (map_values (fst (Db64.applyFormRate (m, maxId) f)))
  /\ 0 <= snd (Db64.applyFormRate (m, maxId) f).
Proof.
  intros Hk Hwf Hmax. pose proof (inc64_positive maxId Hmax) as Hinc.
  destruct (map_get (BoppRate.key f) m) as [e|] eqn:E.
  - assert (Hstep : Db64.applyFormRate (m, maxId) f
             = (map_set (BoppRate.key f)
                  (BoppRate.mk (BoppRate.id e) (BoppRate.key e)
                     (BoppRate.value f)) m, maxId))
      by (unfold Db64.applyFormRate; now rewrite E).
    rewrite Hstep. cbn [fst snd].
    apply map_get_Some_split in E as (m1 & m2 & Hm & _).
    assert (Hin : In (BoppRate.key f, e) m)
      by (rewrite Hm; apply in_or_app; right; now left).
    assert (Hke : BoppRate.key f = BoppRate.key e).
    { unfold keyedMap in Hk. rewrite Forall_forall in Hk.
      exact (Hk _ Hin). }
    assert (Hie : BoppRate.id e <> 0).
    { destruct Hwf as (_ & _ & Hid). rewrite Forall_forall in Hid.
      apply Hid. unfold map_values. apply in_map_iff.
      now exists (BoppRate.key f, e). }
    rewrite Hke.
    pose proof (set_keeps_shape m
      (BoppRate.mk (BoppRate.id e) (BoppRate.key e) (BoppRate.value f))
      Hk Hwf Hie) as (H1 & H2).
    cbn [BoppRate.key] in H1, H2.
    split; [exact H1 | split; [exact H2 | exact Hmax]].
  - apply (applyFormRate64_absent m maxId f) in E as (Hn & Hstep).
    rewrite Hstep. cbn [fst snd].
    rewrite <- map_set_absent by exact Hn.
    set (r := BoppRate.mk
                (if BoppRate.id f =? 0 then inc64 maxId else BoppRate.id f)
                (BoppRate.key f) (BoppRate.value f)).
    assert (Hr : BoppRate.id r <> 0).
    { unfold r. cbn [BoppRate.id].
      destruct (Z.eqb_spec (BoppRate.id f) 0); lia. }
    pose proof (set_keeps_shape m r Hk Hwf Hr) as (H1 & H2).
    split; [exact H1 | split; [exact H2 |]].
    destruct (BoppRate.id f =? 0); lia.
Qed.

Lemma applyFormRate64_fold_shape (form : list BoppRate) :
  forall m maxId,
    keyedMap m -> wellFormedRates (map_values m) -> 0 <= maxId ->
    keyedMap (fst (fold_left Db64.applyFormRate form (m, maxId)))
    /\ wellFormedRates
         (map_values (fst (fold_left Db64.applyFormRate form (m, maxId)))).
Proof.
  induction form as [|f form IH]; intros m maxId Hk Hwf Hmax;
    [split; assumption|].
  cbn [fold_left].
  destruct (applyFormRate64_shape m maxId f Hk Hwf Hmax) as (H1 & H2 & H3).
  destruct (Db64.applyFormRate (m, maxId) f) as [m' maxId'].
  now apply IH.
Qed.

Lemma mergeRates64_entries (current form : list BoppRate) :
  NoDup (keysOf current) ->
  Db64.mergeRates current form
  = map_values
      (fst (fold_left Db64.applyFormRate form
              (map entryOf current, Db.maxIdOf current))).
Proof. intros H. unfold Db64.mergeRates. now rewrite mapOfRates_entries. Qed.

Lemma mergeRates64_wellFormed (current form : list BoppRate) :
  wellFormedRates current -> wellFormedRates (Db64.mergeRates current form).
Proof.
  intros Hwf. rewrite mergeRates64_entries by apply Hwf.
  apply applyFormRate64_fold_shape.
  - apply keyedMap_entries.
  - now rewrite map_values_entryOf.
  - apply maxIdOf_nonneg.
Qed.

Lemma applyFormRate64_keys (m : JsMap BoppRate) (maxId : Z) (f : BoppRate) :
  incl (map fst m) (map fst (fst (Db64.applyFormRate (m, maxId) f)))
  /\ In (BoppRate.key f) (map fst (fst (Db64.applyFormRate (m, maxId) f))).
Proof.
  destruct (map_get (BoppRate.key f) m) as [e|] eqn:E.
  - apply (applyFormRate64_present m maxId f e) in E
      as (m1 & m2 & -> & _ & ->).
    cbn [fst]. rewrite !map_app. cbn [map fst]. split; [apply incl_refl|].
    apply in_or_app. right. now left.
  - apply (applyFormRate64_absent m maxId f) in E as (_ & ->).
    cbn [fst]. rewrite map_app. split; [now apply incl_appl, incl_refl|].
    apply in_or_app. right. now left.
Qed.

Lemma applyFormRate64_fold_keys (form : list BoppRate) :
  forall acc,
    incl (map fst (fst acc))
         (map fst (fst (fold_left Db64.applyFormRate form acc)))
    /\ forall f, In f form ->
         In (BoppRate.key f)
            (map fst (fst (fold_left Db64.applyFormRate form acc))).
Proof.
  induction form as [|f form IH]; intros [m maxId]; cbn [fold_left].
  - split; [apply incl_refl | intros f []].
  - destruct (IH (Db64.applyFormRate (m, maxId) f)) as (Hincl & Hin).
    destruct (applyFormRate64_keys m maxId f) as (Hstep & Hkey).
    split.
    + eapply incl_tran; [exact Hstep | exact Hincl].
    + intros f' [<-|Hf']; [now apply Hincl | now apply Hin].
Qed.

(** Every incoming key is in the merged set, once. *)
Lemma mergeRates64_has_key (current form : list BoppRate) (f : BoppRate) :
  wellFormedRates current -> In f form ->
  count_occ string_dec (keysOf (Db64.mergeRates current form)) (BoppRate.key f)
  = 1%nat.
Proof.
  intros Hwf Hin.
  pose proof (mergeRates64_wellFormed current form Hwf) as (_ & Hnd & _).
  apply NoDup_count_occ'; [exact Hnd|].
  rewrite mergeRates64_entries by apply Hwf.
  rewrite <- keyedMap_keys.
  - now apply applyFormRate64_fold_keys.
  - apply applyFormRate64_fold_shape.
    + apply keyedMap_entries.
    + now rewrite map_values_entryOf.
    + apply maxIdOf_nonneg.
Qed.

(** The set written by a call is the set read by the next. *)
Lemma ratesOf64_update (boot now : Z) (form : list BoppRate)
  (userId userName : string) (s : Storage) :
  ratesOf64 (snd (Db64.updateBoppRates boot now form userId userName s))
  = Db64.mergeRates (ratesOf64 s) form.
Proof.
  rewrite updateBoppRates64_run, ratesOf64_file. cbn [snd rates_file].
  apply overlay64_fixed, mergeRates64_wellFormed, ratesOf64_wellFormed.
Qed.

(** *** Generated ids below 2^53 *)

Lemma maxIdOf_le (l : list BoppRate) (b : Z) :
  0 <= b -> Forall (fun r => BoppRate.id r <= b) l -> Db.maxIdOf l <= b.
Proof.
  intros Hb Hall. unfold Db.maxIdOf.
  assert (H : forall a, a <= b ->
            fold_left (fun max rate => Z.max max (js_or (BoppRate.id rate) 0))
              l a <= b).
  { induction Hall as [|r l Hr _ IH]; intros a Ha; cbn [fold_left];
      [exact Ha|].
    apply IH. rewrite js_or_0. lia. }
  now apply H.
Qed.

(** With every new id generated, a call raises the greatest id by at most
    the number of incoming rates. *)
Lemma mergeRates_maxId (current form : list BoppRate) :
  wellFormedRates current ->
  NoDup (idsOf current) ->
  generatedIdsOnly current form = true ->
  Db.maxIdOf (Db.mergeRates current form)
  <= Db.maxIdOf current + Z.of_nat (length form).
Proof.
  intros Hwf Hnd Hgen. rewrite mergeRates_entries by apply Hwf.
  pose proof (generatedInv_fold current form _
                (generatedInv_start current Hnd) Hgen)
    as (_ & _ & Hle & _ & _ & _).
  pose proof (applyFormRate_fold_max form (map entryOf current)
                (Db.maxIdOf current)) as Hmax.
  pose proof (maxIdOf_nonneg current) as H0.
  apply maxIdOf_le; [lia|].
  destruct Hmax as (_ & Hmax).
  eapply Forall_impl; [|exact Hle]. cbn beta. intros r Hr.
  eapply Z.le_trans; [exact Hr | exact Hmax].
Qed.

Lemma incoming_cons (u : Db.Update) (us : list Db.Update) :
  Z.of_nat (length (incoming (u :: us)))
  = Z.of_nat (length (Db.form u)) + Z.of_nat (length (incoming us)).
Proof.
  unfold incoming. cbn [flat_map]. rewrite length_app. lia.
Qed.

(** Along a run in which every new id is generated and the ids stay below
    2^53, no id comes twice. *)
Lemma runUpdates64_generated (boot : Z) (us : list Db.Update) :
  forall s,
    NoDup (idsOf (ratesOf64 s)) ->
    generatedIdsOnlyRun64 boot s us = true ->
    Db.maxIdOf (ratesOf64 s) + Z.of_nat (length (incoming us)) <= 2 ^ 53 ->
    NoDup (idsOf (ratesOf64 (Db64.runUpdates boot us s))).
Proof.
  induction us as [|u us IH]; intros s Hnd Hrun Hb; [exact Hnd|].
  cbn [generatedIdsOnlyRun64] in Hrun.
  apply andb_true_iff in Hrun as (Hu & Hrun).
  rewrite incoming_cons in Hb.
  assert (Hstep : ratesOf64 (Db64.applyUpdate boot s u)
                  = Db.mergeRates (ratesOf64 s) (Db.form u)).
  { unfold Db64.applyUpdate. rewrite ratesOf64_update.
    apply mergeRates64_same. lia. }
  cbn [Db64.runUpdates fold_left]. apply IH; [| exact Hrun |].
  - rewrite Hstep.
    now apply mergeRates_generated; [apply ratesOf64_wellFormed | |].
  - rewrite Hstep.
    pose proof (mergeRates_maxId (ratesOf64 s) (Db.form u)
                  (ratesOf64_wellFormed s) Hnd Hu).
    lia.
Qed.

(** A rate that a call puts under a new key has the id that came with it,
    or an id above every id of the set read. *)
Lemma applyFormRate_fold_new (current form0 : list BoppRate)
  (form : list BoppRate) :
  forall m maxId,
    (forall f, In f form -> In f form0) ->
    Db.maxIdOf current <= maxId ->
    Forall (fun r => In (BoppRate.key r) (keysOf current)
                     \/ (exists f, In f form0
                                   /\ BoppRate.key f = BoppRate.key r
                                   /\ BoppRate.id f <> 0
                                   /\ BoppRate.id r = BoppRate.id f)
                     \/ Db.maxIdOf current < BoppRate.id r) (map_values m) ->
    Forall (fun r => In (BoppRate.key r) (keysOf current)
                     \/ (exists f, In f form0
                                   /\ BoppRate.key f = BoppRate.key r
                                   /\ BoppRate.id f <> 0
                                   /\ BoppRate.id r = BoppRate.id f)
                     \/ Db.maxIdOf current < BoppRate.id r)
      (map_values (fst (fold_left Db.applyFormRate form (m, maxId)))).
Proof.
  induction form as [|f form IH]; intros m maxId Hsub Hmax Hall;
    [exact Hall|].
  cbn [fold_left].
  assert (Hsub' : forall f', In f' form -> In f' form0)
    by (intros f' Hf'; apply Hsub; now right).
  destruct (map_get (BoppRate.key f) m) as [e|] eqn:E.
  - apply (applyFormRate_present m maxId f e) in E
      as (m1 & m2 & -> & _ & ->).
    apply IH; [exact Hsub' | exact Hmax |].
    unfold map_values in *. rewrite map_app in *. cbn [map snd] in *.
    apply Forall_app in Hall as (H1 & H2).
    apply Forall_cons_iff in H2 as (He & H2).
    apply Forall_app. split; [exact H1|]. constructor; [|exact H2].
    exact He.
  - apply (applyFormRate_absent m maxId f) in E as (_ & ->).
    destruct (Z.eqb_spec (BoppRate.id f) 0) as [H0|H0].
    + apply IH; [exact Hsub' | lia |].
      unfold map_values in *. rewrite map_app. cbn [map snd].
      apply Forall_app. split; [exact Hall|].
      constructor; [|constructor]. right. right. cbn [BoppRate.id]. lia.
    + apply IH; [exact Hsub' | exact Hmax |].
      unfold map_values in *. rewrite map_app. cbn [map snd].
      apply Forall_app. split; [exact Hall|].
      constructor; [|constructor]. right. left.
      exists f. cbn [BoppRate.id BoppRate.key].
      repeat split; [apply Hsub; now left | exact H0].
Qed.

Lemma mergeRates_new (current form : list BoppRate) (r : BoppRate) :
  wellFormedRates current ->
  In r (Db.mergeRates current form) ->
  ~ In (BoppRate.key r) (keysOf current) ->
  (exists f, In f form /\ BoppRate.key f = BoppRate.key r
             /\ BoppRate.id f <> 0 /\ BoppRate.id r = BoppRate.id f)
  \/ (forall r0, In r0 current -> BoppRate.id r0 < BoppRate.id r).
Proof.
  intros Hwf Hin Hkey. rewrite mergeRates_entries in Hin by apply Hwf.
  pose proof (applyFormRate_fold_new current form form
                (map entryOf current) (Db.maxIdOf current)
                (fun f H => H) (Z.le_refl _)) as Hall.
  rewrite map_values_entryOf in Hall.
  assert (Hstart : Forall (fun r => In (BoppRate.key r) (keysOf current)
                     \/ (exists f, In f form
                                   /\ BoppRate.key f = BoppRate.key r
                                   /\ BoppRate.id f <> 0
                                   /\ BoppRate.id r = BoppRate.id f)
                     \/ Db.maxIdOf current < BoppRate.id r) current).
  { apply Forall_forall. intros r' Hr'. left. unfold keysOf.
    now apply in_map. }
  specialize (Hall Hstart). rewrite Forall_forall in Hall.
  destruct (Hall r Hin) as [H|[H|H]]; [contradiction | now left | right].
  intros r0 Hr0.
  pose proof (maxIdOf_bounds current) as Hb. rewrite Forall_forall in Hb.
  specialize (Hb r0 Hr0). cbn beta in Hb. lia.
Qed.

(** * The claims *)

(** C1. [verifyOtp] succeeds exactly when the lookup by id and role
    [employee] yields a user, that user has a code on record (a non-empty
    [otp]) together with its [otp_created_at], the age [now - otp_created_at]
    is at most 300000 ms and the code submitted is the code on record.  In a
    state reached from a new data directory this is: a user with that id and
    role [employee] exists and has an [otp] and an [otp_created_at], the age
    is at most 300000 ms and the code submitted equals the [otp].  At an age
    of 299999 ms and of 300000 ms the code on record is accepted; at
    300001 ms every code is turned down as expired. *)
Theorem verifyOtp_succeeds_iff (userId : string) (s : Storage) :
  (forall now otp,
      LoginResponse.success (fst (Auth.verifyOtp now userId otp s)) = true
      <-> exists user stored created,
            userWithIdAndRole userId employee s = Some user
            /\ AuthenticatedUser.otp user = Some stored /\ stored <> ""
            /\ AuthenticatedUser.otp_created_at user = Some created
            /\ now - created <= 300000
            /\ otp = stored)
  /\ (forall now otp,
         reachable s ->
         LoginResponse.success (fst (Auth.verifyOtp now userId otp s)) = true
         <-> exists user stored created,
               In user (usersOf s)
               /\ AuthenticatedUser.id user = userId
               /\ AuthenticatedUser.role user = employee
               /\ AuthenticatedUser.otp user = Some stored
               /\ AuthenticatedUser.otp_created_at user = Some created
               /\ now - created <= 300000
               /\ otp = stored)
  /\ (forall user stored created,
         userWithIdAndRole userId employee s = Some user ->
         AuthenticatedUser.otp user = Some stored -> stored <> "" ->
         AuthenticatedUser.otp_created_at user = Some created ->
         fst (Auth.verifyOtp (created + 299999) userId stored s)
         = Auth.loginSuccess user
         /\ fst (Auth.verifyOtp (created + 300000) userId stored s)
            = Auth.loginSuccess user
         /\ forall otp,
              fst (Auth.verifyOtp (created + 300001) userId otp s)
              = Auth.loginFailure
                  "OTP has expired. Please generate a new one.").
Proof.
  split; [|split].
  - intros now otp. apply verifyOtp_success_found.
  - intros now otp. apply verifyOtp_success_reachable.
  - intros user stored created Hf Ho Hne Hc. repeat split; [| |intros otp].
    + rewrite (verifyOtp_on_record _ userId stored s user stored created)
        by assumption.
      destruct (Z.gtb_spec (created + 299999 - created) 300000); [lia|].
      now rewrite String.eqb_refl.
    + rewrite (verifyOtp_on_record _ userId stored s user stored created)
        by assumption.
      destruct (Z.gtb_spec (created + 300000 - created) 300000); [lia|].
      now rewrite String.eqb_refl.
    + rewrite (verifyOtp_on_record _ userId otp s user stored created)
        by assumption.
      destruct (Z.gtb_spec (created + 300001 - created) 300000); [|lia].
      reflexivity.
Qed.

Lemma verifyOtp_succeeds_iff_witness :
  let s := snd (Auth.generateAndStoreOTP 1000 0.25%Q "emp001" fresh) in
  let user := AuthenticatedUser.mk "emp001" "Alice Smith" employee None
                (Some "325000") (Some 1000) in
  LoginResponse.success (fst (Auth.verifyOtp 2000 "emp001" "325000" s)) = true
  /\ fst (Auth.verifyOtp (1000 + 299999) "emp001" "325000" s)
     = Auth.loginSuccess user
  /\ fst (Auth.verifyOtp (1000 + 300000) "emp001" "325000" s)
     = Auth.loginSuccess user
  /\ forall otp,
       fst (Auth.verifyOtp (1000 + 300001) "emp001" otp s)
       = Auth.loginFailure "OTP has expired. Please generate a new one.".
Proof.
  intros s user.
  destruct (verifyOtp_succeeds_iff "emp001" s) as (_ & Hreach & Hedge).
  split.
  - apply (Hreach 2000 "325000").
    + exact (reachable_call 0 fresh
               (GenerateAndStoreOTP 1000 0.25%Q "emp001") reachable_fresh).
    + exists user, "325000", 1000.
      split; [vm_compute; tauto|]. repeat split. lia.
  - apply (Hedge user "325000" 1000).
    + reflexivity.
    + reflexivity.
    + discriminate.
    + reflexivity.
Defined.

(** C2, as the code has it.  The entry [updateBoppRates] puts at the head of
    the history, which [getRateHistory(1)] returns right after, carries as
    snapshot the rate set as it was read before the update (so not the
    updated set, whenever the update changed it).  Its id is the greatest id
    in the history read, 0 when there is none, plus 1 as JavaScript adds
    numbers: while that greatest id is below 2^53 the sum is exact, the id
    is above every id there, and it is 1 or the successor of one of them. *)
Theorem updateBoppRates_snapshots_previous_rates (boot now : Z)
  (form : list BoppRate) (userId userName : string) (s : Storage) :
  let s' := snd (Db64.updateBoppRates boot now form userId userName s) in
  let top := fold_right Z.max 0 (map BoppRateHistory.id (historyOf boot s)) in
  exists e,
    history_file s' = Content (firstn 50 (e :: historyOf boot s))
    /\ fst (Db.getRateHistory boot (Some 1) s') = [e]
    /\ BoppRateHistory.rates_snapshot e = ratesOf64 s
    /\ (ratesOf64 s' <> ratesOf64 s ->
        BoppRateHistory.rates_snapshot e <> ratesOf64 s')
    /\ BoppRateHistory.id e = inc64 top
    /\ (top < 2 ^ 53 ->
        BoppRateHistory.id e = top + 1
        /\ (forall h, In h (historyOf boot s) ->
                      BoppRateHistory.id h < BoppRateHistory.id e)
        /\ (BoppRateHistory.id e = 1
            \/ exists h, In h (historyOf boot s)
                         /\ BoppRateHistory.id e = BoppRateHistory.id h + 1))
    /\ BoppRateHistory.changed_at e = now
    /\ BoppRateHistory.changed_by_id e = userId
    /\ BoppRateHistory.changed_by_name e = userName.
Proof.
  cbv zeta. exists (newEntry64 boot now userId userName s).
  assert (Hid : BoppRateHistory.id (newEntry64 boot now userId userName s)
                = inc64 (fold_right Z.max 0
                           (map BoppRateHistory.id (historyOf boot s))))
    by (cbn [newEntry64 BoppRateHistory.id]; now rewrite maxHistoryId_max).
  destruct (fold_max_bound (map BoppRateHistory.id (historyOf boot s)))
    as (Hle & Hin).
  split; [|split; [|split; [|split; [|split; [|split]]]]].
  - rewrite updateBoppRates64_run. cbn [snd history_file].
    now rewrite slice0_nonneg by lia.
  - rewrite getRateHistory_run. cbn [fst].
    rewrite historyOf_update64. rewrite !slice0_nonneg by lia. reflexivity.
  - reflexivity.
  - intros Hne Heq. apply Hne. now rewrite <- Heq.
  - exact Hid.
  - intros Htop.
    assert (Hid' : BoppRateHistory.id (newEntry64 boot now userId userName s)
                   = fold_right Z.max 0
                       (map BoppRateHistory.id (historyOf boot s)) + 1).
    { rewrite Hid. apply inc64_exact. split; [|exact Htop].
      apply fold_max_nonneg. }
    split; [exact Hid'|]. split.
    + intros h Hh. rewrite Hid'.
      specialize (Hle (BoppRateHistory.id h) (in_map _ _ _ Hh)). lia.
    + rewrite Hid'. destruct Hin as [->|Hin]; [now left | right].
      apply in_map_iff in Hin as (h & Hh & Hin).
      exists h. split; [exact Hin | now rewrite Hh].
  - repeat split.
Qed.

(** The example of the specification: [profit] goes from 10 to 15, and the
    snapshot keeps the 10. *)
Lemma updateBoppRates_snapshots_previous_rates_witness :
  let form := [BoppRate.mk 0 "profit" 15%Q] in
  let s' := snd (Db64.updateBoppRates 0 7 form "admin" "Administrator" fresh) in
  exists e,
    fst (Db.getRateHistory 0 (Some 1) s') = [e]
    /\ BoppRateHistory.rates_snapshot e = Db.initialDefaultRates
    /\ BoppRateHistory.rates_snapshot e <> ratesOf64 s'
    /\ BoppRateHistory.id e = 3.
Proof.
  cbv zeta.
  destruct (updateBoppRates_snapshots_previous_rates 0 7
              [BoppRate.mk 0 "profit" 15%Q] "admin" "Administrator" fresh)
    as (e & _ & Hget & Hsnap & Hpost & _ & Hbelow & _).
  destruct Hbelow as (Hid & _); [vm_compute; reflexivity|].
  exists e. split; [exact Hget|]. split; [exact Hsnap|].
  split; [|exact Hid].
  apply Hpost. vm_compute. discriminate.
Defined.

(** C2, as stated, fails: over a history file whose greatest id is 2^53 the
    sum in binary64 is 2^53 again, so the new entry repeats the id of the
    entry behind it instead of taking the next one. *)
Lemma history_id_is_not_the_successor :
  map BoppRateHistory.id
    (fst (Db.getRateHistory 0 (Some 2)
            (snd (Db64.updateBoppRates 0 7 [] "admin" "Administrator"
                    (mkStorage Missing
                       (Content [BoppRateHistory.mk 9007199254740992 0
                                   "admin" "Administrator" []])
                       Missing)))))
  = [9007199254740992; 9007199254740992]
  /\ ~ (exists e,
          fst (Db.getRateHistory 0 (Some 1)
                 (snd (Db64.updateBoppRates 0 7 [] "admin" "Administrator"
                         (mkStorage Missing
                            (Content [BoppRateHistory.mk 9007199254740992 0
                                        "admin" "Administrator" []])
                            Missing)))) = [e]
          /\ BoppRateHistory.id e = 9007199254740992 + 1).
Proof.
  split; [vm_compute; reflexivity|].
  intros (e & He & Hid). vm_compute in He. injection He as <-.
  vm_compute in Hid. discriminate.
Qed.

(** C3, as the code has it.  When the rate set read has no id twice (the
    default set is one such), in every call of a run each incoming rate
    under a new key comes without an id, and the ids stay below 2^53 (the
    greatest id read plus the number of incoming rates is at most 2^53),
    the set [getBoppRates] returns after the run has no id twice; and in
    such a call every rate under a new key gets an id above every id of the
    set read. *)
Theorem generated_ids_stay_unique (boot : Z) (s : Storage) :
  NoDup (idsOf (ratesOf64 s)) ->
  (forall us,
      generatedIdsOnlyRun64 boot s us = true ->
      Db.maxIdOf (ratesOf64 s) + Z.of_nat (length (incoming us)) <= 2 ^ 53 ->
      NoDup (idsOf (ratesOf64 (Db64.runUpdates boot us s))))
  /\ (forall u,
         generatedIdsOnly (ratesOf64 s) (Db.form u) = true ->
         Db.maxIdOf (ratesOf64 s) + Z.of_nat (length (Db.form u)) <= 2 ^ 53 ->
         forall r r0,
           In r (ratesOf64 (Db64.applyUpdate boot s u)) ->
           ~ In (BoppRate.key r) (keysOf (ratesOf64 s)) ->
           In r0 (ratesOf64 s) ->
           BoppRate.id r0 < BoppRate.id r).
Proof.
  intros Hnd. split.
  - intros us Hrun Hb. now apply runUpdates64_generated.
  - intros u Hgen Hb r r0 Hr Hkey Hr0.
    unfold Db64.applyUpdate in Hr.
    rewrite ratesOf64_update, (mergeRates64_same _ _ Hb) in Hr.
    destruct (mergeRates_generated (ratesOf64 s) (Db.form u)
                (ratesOf64_wellFormed s) Hnd Hgen) as (_ & Hfresh).
    exact (Hfresh r Hr Hkey r0 Hr0).
Qed.

Lemma generated_ids_stay_unique_witness :
  NoDup (idsOf (ratesOf64 (Db64.runUpdates 0
    [ Db.mkUpdate 7 [BoppRate.mk 0 "profit" 15%Q; BoppRate.mk 0 "glue_rate" 42%Q]
        "admin" "Administrator";
      Db.mkUpdate 9 [BoppRate.mk 0 "ink_rate" 3%Q; BoppRate.mk 99 "glue_rate" 43%Q]
        "adm001" "Bob Johnson (Admin)" ]
    fresh))).
Proof.
  apply (proj1 (generated_ids_stay_unique 0 fresh defaults_ids_unique)).
  - vm_compute. reflexivity.
  - vm_compute. discriminate.
Defined.

(** C3, as stated, fails: an incoming rate under a new key that brings the
    id 1 along is stored with it, next to [adhesive_less_rate]. *)
Lemma supplied_id_is_stored_twice :
  ~ NoDup (idsOf (ratesOf (Db.runUpdates 0
      [ Db.mkUpdate 7 [BoppRate.mk 1 "glue_rate" 42%Q] "admin" "Administrator" ]
      fresh))).
Proof.
  intros H. apply (nodup_fixed_point Z.eq_dec) in H.
  vm_compute in H. discriminate.
Qed.

(** C4, where the code goes wrong.  A new data directory starts with the two
    seeded entries in the order of [initialMockRateHistory]: the one of two
    days ago (id 1) in front of the one of yesterday (id 2), although every
    later entry is put in front of the older ones.  After 48 calls of
    [updateBoppRates] the file holds 50 entries, these two last; the 49th
    call cuts the list to 50 again and so drops the entry of yesterday,
    while the older entry of two days ago stays. *)
Theorem seeded_entry_of_yesterday_leaves_first :
  map (fun h => (BoppRateHistory.id h, BoppRateHistory.changed_at h))
    (skipn 48 (historyOf 0 (Db64.runUpdates 0
       (repeat (Db.mkUpdate 7 [] "admin" "Administrator") 48) fresh)))
  = [(1, -172800000); (2, -86400000)]
  /\ map (fun h => (BoppRateHistory.id h, BoppRateHistory.changed_at h))
       (skipn 48 (historyOf 0 (Db64.runUpdates 0
          (repeat (Db.mkUpdate 7 [] "admin" "Administrator") 49) fresh)))
     = [(3, 7); (1, -172800000)]
  /\ length (historyOf 0 (Db64.runUpdates 0
       (repeat (Db.mkUpdate 7 [] "admin" "Administrator") 48) fresh)) = 50%nat
  /\ length (historyOf 0 (Db64.runUpdates 0
       (repeat (Db.mkUpdate 7 [] "admin" "Administrator") 49) fresh)) = 50%nat
  /\ existsb (fun h => BoppRateHistory.id h =? 2)
       (historyOf 0 (Db64.runUpdates 0
          (repeat (Db.mkUpdate 7 [] "admin" "Administrator") 49) fresh))
     = false.
Proof. vm_compute. repeat split. Qed.

(** C5, as the code has it.  The set [getBoppRates] returns after a call is
    the set read before it with the incoming rates applied one by one, and
    for one incoming rate: under a key the map holds, the rate there keeps
    its id and key and takes the incoming value, everything else staying as
    it is; under a new key, one rate is appended, with the id supplied or
    else the running maximum plus 1 as JavaScript adds numbers.  After the
    call every incoming key is there exactly once, and so it is after a
    further call that brings the key again.  While the ids stay below 2^53
    the rates read keep their places, ids and keys, and a rate under a new
    key has the id that came with it or an id above every id of the set
    read. *)
Theorem updateBoppRates_merges_by_key (boot now : Z) (form : list BoppRate)
  (userId userName : string) (s : Storage) :
  let s' := snd (Db64.updateBoppRates boot now form userId userName s) in
  ratesOf64 s'
  = map_values
      (fst (fold_left Db64.applyFormRate form
              (map entryOf (ratesOf64 s), Db.maxIdOf (ratesOf64 s))))
  /\ (forall m maxId formRate existing,
         map_get (BoppRate.key formRate) m = Some existing ->
         exists m1 m2,
           m = m1 ++ (BoppRate.key formRate, existing) :: m2
           /\ ~ In (BoppRate.key formRate) (map fst m1)
           /\ Db64.applyFormRate (m, maxId) formRate
              = (m1 ++ (BoppRate.key formRate,
                        BoppRate.mk (BoppRate.id existing)
                          (BoppRate.key existing) (BoppRate.value formRate))
                    :: m2,
                 maxId))
  /\ (forall m maxId formRate,
         map_get (BoppRate.key formRate) m = None ->
         ~ In (BoppRate.key formRate) (map fst m)
         /\ Db64.applyFormRate (m, maxId) formRate
            = (m ++ [(BoppRate.key formRate,
                      BoppRate.mk
                        (if BoppRate.id formRate =? 0 then inc64 maxId
                         else BoppRate.id formRate)
                        (BoppRate.key formRate) (BoppRate.value formRate))],
               if BoppRate.id formRate =? 0 then inc64 maxId else maxId))
  /\ (forall formRate,
         In formRate form ->
         count_occ string_dec (keysOf (ratesOf64 s')) (BoppRate.key formRate)
         = 1%nat)
  /\ (forall now2 form2 userId2 userName2 formRate formRate2,
         In formRate form -> In formRate2 form2 ->
         BoppRate.key formRate2 = BoppRate.key formRate ->
         let s'' :=
           snd (Db64.updateBoppRates boot now2 form2 userId2 userName2 s') in
         count_occ string_dec (keysOf (ratesOf64 s'')) (BoppRate.key formRate)
         = 1%nat)
  /\ (Db.maxIdOf (ratesOf64 s) + Z.of_nat (length form) <= 2 ^ 53 ->
      (exists added,
          map idKeyOf (ratesOf64 s') = map idKeyOf (ratesOf64 s) ++ added)
      /\ forall r,
           In r (ratesOf64 s') ->
           ~ In (BoppRate.key r) (keysOf (ratesOf64 s)) ->
           (exists formRate,
               In formRate form
               /\ BoppRate.key formRate = BoppRate.key r
               /\ BoppRate.id formRate <> 0
               /\ BoppRate.id r = BoppRate.id formRate)
           \/ (forall r0, In r0 (ratesOf64 s) ->
                          BoppRate.id r0 < BoppRate.id r)).
Proof.
  cbv zeta. split; [|split; [|split; [|split; [|split]]]].
  - rewrite ratesOf64_update. apply mergeRates64_entries.
    apply ratesOf64_wellFormed.
  - intros m maxId formRate existing. apply applyFormRate64_present.
  - intros m maxId formRate. apply applyFormRate64_absent.
  - intros formRate Hin. rewrite ratesOf64_update.
    apply mergeRates64_has_key; [apply ratesOf64_wellFormed | exact Hin].
  - intros now2 form2 userId2 userName2 formRate formRate2 _ Hin2 Hkey.
    rewrite ratesOf64_update, <- Hkey.
    apply mergeRates64_has_key; [apply ratesOf64_wellFormed | exact Hin2].
  - intros Hb. rewrite ratesOf64_update, (mergeRates64_same _ _ Hb). split.
    + rewrite mergeRates_entries by apply ratesOf64_wellFormed.
      destruct (applyFormRate_fold_idKeys form (map entryOf (ratesOf64 s))
                  (Db.maxIdOf (ratesOf64 s))) as (added & Heq & _).
      exists added. now rewrite map_values_entryOf in Heq.
    + intros r Hr Hkey.
      exact (mergeRates_new (ratesOf64 s) form r
               (ratesOf64_wellFormed s) Hr Hkey).
Qed.

Lemma updateBoppRates_merges_by_key_witness :
  let glue := BoppRate.mk 0 "glue_rate" 42%Q in
  let s' := snd (Db64.updateBoppRates 0 7 [glue] "admin" "Administrator" fresh) in
  let s'' :=
    snd (Db64.updateBoppRates 0 9 [BoppRate.mk 0 "glue_rate" 43%Q]
           "admin" "Administrator" s') in
  count_occ string_dec (keysOf (ratesOf64 s')) "glue_rate" = 1%nat
  /\ count_occ string_dec (keysOf (ratesOf64 s'')) "glue_rate" = 1%nat
  /\ Db64.applyFormRate (map entryOf Db.initialDefaultRates, 16) glue
     = (map entryOf Db.initialDefaultRates
          ++ [("glue_rate", BoppRate.mk (inc64 16) "glue_rate" 42%Q)],
        inc64 16)
  /\ inc64 16 = 17
  /\ forall r0, In r0 Db.initialDefaultRates -> BoppRate.id r0 < 17.
Proof.
  cbv zeta.
  pose proof (updateBoppRates_merges_by_key 0 7
                [BoppRate.mk 0 "glue_rate" 42%Q] "admin" "Administrator" fresh)
    as (_ & _ & Hnew & Hone & Hagain & Hbelow).
  split; [|split; [|split; [|split]]].
  - apply (Hone (BoppRate.mk 0 "glue_rate" 42%Q)). now left.
  - apply (Hagain 9 [BoppRate.mk 0 "glue_rate" 43%Q] "admin" "Administrator"
             (BoppRate.mk 0 "glue_rate" 42%Q) (BoppRate.mk 0 "glue_rate" 43%Q)).
    + now left.
    + now left.
    + reflexivity.
  - apply (Hnew (map entryOf Db.initialDefaultRates) 16
             (BoppRate.mk 0 "glue_rate" 42%Q)).
    reflexivity.
  - vm_compute. reflexivity.
  - destruct Hbelow as (_ & Hfresh); [vm_compute; discriminate|].
    destruct (Hfresh (BoppRate.mk 17 "glue_rate" 42%Q))
      as [(f & Hf & _ & Hid & _)|Habove].
    + vm_compute. do 16 right. left. reflexivity.
    + vm_compute. intros H.
      repeat (destruct H as [H|H]; [discriminate H|]). exact H.
    + destruct Hf as [<-|[]]. now elim Hid.
    + exact Habove.
Defined.

(** C5, as stated, fails: once the set holds the id 2^53 (here brought by
    the incoming rate ["x"]), the id generated for the new key ["y"] is
    2^53 again, the id ["x"] has: it is not a fresh one. *)
Lemma generated_id_is_in_use :
  map idKeyOf (skipn 16 (ratesOf64 (Db64.runUpdates 0
    [ Db.mkUpdate 7 [BoppRate.mk 9007199254740992 "x" 1%Q]
        "admin" "Administrator" ]
    fresh)))
  = [(9007199254740992, "x")]
  /\ map idKeyOf (skipn 16 (ratesOf64 (Db64.runUpdates 0
       [ Db.mkUpdate 7 [BoppRate.mk 9007199254740992 "x" 1%Q]
           "admin" "Administrator";
         Db.mkUpdate 9 [BoppRate.mk 0 "y" 2%Q] "admin" "Administrator" ]
       fresh)))
     = [(9007199254740992, "x"); (9007199254740992, "y")].
Proof. vm_compute. split; reflexivity. Qed.



(** C7. [deleteUser] turns down the ids ["admin"] and ["employee"] in every
    state of the storage.  For any other id that a user has, the first call
    succeeds and removes the users with that id, and a second call fails
    with "User not found." *)
Theorem deleteUser_protected_and_once (s : Storage) :
  (fst (Auth.deleteUser "admin" s)
   = Auth.basicFailure "The default 'admin' account cannot be deleted."
   /\ usersOf (snd (Auth.deleteUser "admin" s)) = usersOf s)
  /\ (fst (Auth.deleteUser "employee" s)
      = Auth.basicFailure "The default 'employee' account cannot be deleted."
      /\ usersOf (snd (Auth.deleteUser "employee" s)) = usersOf s)
  /\ forall userId,
       userId <> "admin" -> userId <> "employee" ->
       (exists u, In u (usersOf s) /\ AuthenticatedUser.id u = userId) ->
       let s1 := snd (Auth.deleteUser userId s) in
       fst (Auth.deleteUser userId s)
       = Auth.basicSuccess "User deleted successfully." None
       /\ (forall u, In u (usersOf s1)
                     <-> In u (usersOf s) /\ AuthenticatedUser.id u <> userId)
       /\ fst (Auth.deleteUser userId s1)
          = Auth.basicFailure "User not found."
       /\ snd (Auth.deleteUser userId s1) = s1.
Proof.
  split; [|split].
  - rewrite deleteUser_run. cbn [String.eqb Ascii.eqb Bool.eqb orb fst snd].
    split; [reflexivity | apply usersOf_usersRead].
  - rewrite deleteUser_run. cbn [String.eqb Ascii.eqb Bool.eqb orb fst snd].
    split; [reflexivity | apply usersOf_usersRead].
  - intros userId Ha He (u & Hin & Hid). cbv zeta.
    set (kept := filter (fun u => negb (Auth.idIs userId u)) (usersOf s)).
    assert (Hrun : Auth.deleteUser userId s
                   = (Auth.basicSuccess "User deleted successfully." None,
                      mkStorage (rates_file s) (history_file s) (Content kept))).
    { rewrite deleteUser_run.
      apply String.eqb_neq in Ha, He. rewrite Ha, He. cbn [orb].
      fold kept.
      assert (Hlt : (length kept < length (usersOf s))%nat).
      { apply filter_length_lt. exists u. split; [exact Hin|].
        unfold Auth.idIs. apply negb_false_iff. now apply String.eqb_eq. }
      apply Nat.ltb_lt in Hlt. now rewrite Hlt. }
    rewrite Hrun. cbn [fst snd].
    set (s1 := mkStorage (rates_file s) (history_file s) (Content kept)).
    assert (Hs1 : usersOf s1 = kept) by (now rewrite usersOf_file).
    assert (Hkept : forall v, In v kept
                     <-> In v (usersOf s) /\ AuthenticatedUser.id v <> userId).
    { intros v. unfold kept. rewrite filter_In. unfold Auth.idIs.
      rewrite negb_true_iff, String.eqb_neq. reflexivity. }
    split; [reflexivity|]. split; [now rewrite Hs1|].
    rewrite deleteUser_run.
    apply String.eqb_neq in Ha, He. rewrite Ha, He. cbn [orb].
    rewrite Hs1.
    assert (Hge : Nat.ltb
                    (length (filter (fun u => negb (Auth.idIs userId u)) kept))
                    (length kept) = false).
    { apply Nat.ltb_ge. apply Nat.nlt_ge. intros Hlt.
      apply filter_length_lt in Hlt as (v & Hv & Hp).
      apply negb_false_iff in Hp. unfold Auth.idIs in Hp.
      apply String.eqb_eq in Hp. apply Hkept in Hv as (_ & Hv). contradiction. }
    rewrite Hge. cbn [fst snd]. split; [reflexivity|].
    apply usersRead_present. discriminate.
Qed.

Lemma deleteUser_protected_and_once_witness :
  let s1 := snd (Auth.deleteUser "emp001" fresh) in
  fst (Auth.deleteUser "emp001" fresh)
  = Auth.basicSuccess "User deleted successfully." None
  /\ (forall u, In u (usersOf s1)
                <-> In u (usersOf fresh) /\ AuthenticatedUser.id u <> "emp001")
  /\ fst (Auth.deleteUser "emp001" s1) = Auth.basicFailure "User not found."
  /\ snd (Auth.deleteUser "emp001" s1) = s1.
Proof.
  apply (proj2 (proj2 (deleteUser_protected_and_once fresh)) "emp001").
  - discriminate.
  - discriminate.
  - exists (AuthenticatedUser.mk "emp001" "Alice Smith" employee None None None).
    split; [|reflexivity]. cbn. tauto.
Defined.

(** C8, as the code has it.  [getRateHistory(limit)] returns the first
    [limit] entries of the history read (all of them when there are fewer;
    for a negative [limit], all but the last [-limit]); it leaves the rates
    file and the users file alone, and the history file too when there is
    one, while a missing history file is written with the two default
    entries. *)
Theorem getRateHistory_reads_a_prefix (boot : Z) (limit : option Z)
  (s : Storage) :
  let l := match limit with Some l => l | None => 5 end in
  let stored := match history_file s with
                | Content history => history
                | _ => Db.initialMockRateHistory boot
                end in
  let s' := snd (Db.getRateHistory boot limit s) in
  fst (Db.getRateHistory boot limit s)
  = firstn (if l <? 0 then length stored - Z.to_nat (- l) else Z.to_nat l)
      stored
  /\ rates_file s' = rates_file s
  /\ users_file s' = users_file s
  /\ history_file s' = match history_file s with
                       | Missing => Content (Db.initialMockRateHistory boot)
                       | file => file
                       end.
Proof.
  cbv zeta. rewrite getRateHistory_run, historyOf_file. cbn [fst snd].
  split; [|repeat split].
  destruct (Z.ltb_spec (match limit with Some l => l | None => 5 end) 0).
  - now apply slice0_neg.
  - now apply slice0_nonneg.
Qed.

(** C8, as stated, fails: on a data directory without a history file the
    call creates that file. *)
Lemma getRateHistory_writes_missing_file :
  snd (Db.getRateHistory 0 (Some 5) fresh) <> fresh
  /\ history_file (snd (Db.getRateHistory 0 (Some 5) fresh))
     = Content (Db.initialMockRateHistory 0).
Proof. split; [discriminate | reflexivity]. Qed.

(** C9. With the users file in place, an operation of the auth store that
    answers with a failure leaves the storage, and so the users file, as it
    found it: [addUser], [deleteUser], [verifyOtp], [generateAndStoreOTP],
    [updateAdminDetails], [revokeOTP], and also [loginUser] and
    [fetchUserDetails]. *)
Theorem failures_write_nothing (s : Storage) :
  users_file s <> Missing ->
  (forall userId userName passwordProvided role,
      BasicResponse.success
        (fst (Auth.addUser userId userName passwordProvided role s)) = false ->
      snd (Auth.addUser userId userName passwordProvided role s) = s)
  /\ (forall userId,
         BasicResponse.success (fst (Auth.deleteUser userId s)) = false ->
         snd (Auth.deleteUser userId s) = s)
  /\ (forall now userId otp,
         LoginResponse.success (fst (Auth.verifyOtp now userId otp s)) = false ->
         snd (Auth.verifyOtp now userId otp s) = s)
  /\ (forall now rnd userId,
         BasicResponse.success
           (fst (Auth.generateAndStoreOTP now rnd userId s)) = false ->
         snd (Auth.generateAndStoreOTP now rnd userId s) = s)
  /\ (forall adminId name newPassword,
         BasicResponse.success
           (fst (Auth.updateAdminDetails adminId name newPassword s)) = false ->
         snd (Auth.updateAdminDetails adminId name newPassword s) = s)
  /\ (forall userId,
         BasicResponse.success (fst (Auth.revokeOTP userId s)) = false ->
         snd (Auth.revokeOTP userId s) = s)
  /\ (forall userId password,
         LoginResponse.success (fst (Auth.loginUser userId password s)) = false ->
         snd (Auth.loginUser userId password s) = s)
  /\ (forall userId,
         UserDetailsResponse.success (fst (Auth.fetchUserDetails userId s))
         = false ->
         snd (Auth.fetchUserDetails userId s) = s).
Proof.
  intros Hfile. pose proof (usersRead_present s Hfile) as Hread.
  repeat split; intros.
  - rewrite addUser_failure by assumption. exact Hread.
  - rewrite deleteUser_failure by assumption. exact Hread.
  - rewrite verifyOtp_run. exact Hread.
  - rewrite generateAndStoreOTP_failure by assumption. exact Hread.
  - rewrite updateAdminDetails_failure by assumption. exact Hread.
  - rewrite revokeOTP_failure by assumption. exact Hread.
  - rewrite loginUser_run. exact Hread.
  - rewrite fetchUserDetails_run. exact Hread.
Qed.

Lemma failures_write_nothing_witness :
  snd (Auth.addUser "EMP001" "Alice" "pw" employee sampleStorage)
  = sampleStorage
  /\ snd (Auth.deleteUser "admin" sampleStorage) = sampleStorage
  /\ snd (Auth.deleteUser "nobody" sampleStorage) = sampleStorage
  /\ snd (Auth.verifyOtp 400000 "emp001" "325000" sampleStorage)
     = sampleStorage
  /\ snd (Auth.generateAndStoreOTP 5 0.5%Q "boss" sampleStorage)
     = sampleStorage
  /\ snd (Auth.updateAdminDetails "emp001" "Al" None sampleStorage)
     = sampleStorage
  /\ snd (Auth.revokeOTP "boss" sampleStorage) = sampleStorage.
Proof.
  assert (Hfile : users_file sampleStorage <> Missing) by discriminate.
  pose proof (failures_write_nothing sampleStorage Hfile)
    as (Hadd & Hdel & Hver & Hgen & Hupd & Hrev & _).
  split; [apply Hadd; reflexivity|].
  split; [apply Hdel; reflexivity|].
  split; [apply Hdel; reflexivity|].
  split; [apply Hver; reflexivity|].
  split; [apply Hgen; reflexivity|].
  split; [apply Hupd; reflexivity|].
  apply Hrev; reflexivity.
Defined.

(** C10, as the code has it.  A call of [updateBoppRates] with no incoming
    rate leaves the rate set as it was and still puts an entry with that set
    as snapshot at the head of the history, of which the first 50 entries are
    kept: the history grows by one entry as long as it has fewer than 50, and
    stays at 50 from then on. *)
Theorem empty_update_still_records (boot now : Z) (userId userName : string)
  (s : Storage) :
  let s' := snd (Db.updateBoppRates boot now [] userId userName s) in
  ratesOf s' = ratesOf s
  /\ exists e,
       historyOf boot s' = firstn 50 (e :: historyOf boot s)
       /\ BoppRateHistory.rates_snapshot e = ratesOf s
       /\ BoppRateHistory.changed_at e = now
       /\ length (historyOf boot s')
          = Nat.min 50 (S (length (historyOf boot s))).
Proof.
  cbv zeta. split.
  - rewrite ratesOf_update. apply mergeRates_nil, ratesOf_wellFormed.
  - exists (newEntry boot now userId userName s).
    rewrite historyOf_update, slice0_nonneg by lia.
    repeat split. now rewrite length_firstn.
Qed.

(** C10, as stated, fails: after 48 updates of a new data directory the
    history has 50 entries, and the next update leaves it at 50. *)
Lemma empty_update_at_the_cap :
  let u := Db.mkUpdate 7 [] "admin" "Administrator" in
  let s := Db.runUpdates 0 (repeat u 48) fresh in
  length (historyOf 0 s) = 50%nat
  /\ length (historyOf 0 (Db.applyUpdate 0 s u))
     <> S (length (historyOf 0 s)).
Proof. vm_compute. split; [reflexivity | discriminate]. Qed.

(** * Further facts about the two stores *)

(** An id supplied with a new key does not move the running maximum, so an
    id generated later in the same call can repeat it. *)
Lemma generated_id_repeats_supplied_id :
  idsOf (skipn 16 (ratesOf (Db.runUpdates 0
    [ Db.mkUpdate 7 [BoppRate.mk 17 "glue_rate" 42%Q; BoppRate.mk 0 "ink_rate" 3%Q]
        "admin" "Administrator" ]
    fresh)))
  = [17; 17].
Proof. vm_compute. reflexivity. Qed.

(** At 2^53 the running maximum stays where it is: over a rates file that
    holds the id 2^53 and no id twice, a generated id repeats it. *)
Lemma generated_id_repeats_the_greatest_id :
  idsOf (skipn 16 (ratesOf64 (Db64.runUpdates 0
    [ Db.mkUpdate 9 [BoppRate.mk 0 "ink_rate" 3%Q] "admin" "Administrator" ]
    (mkStorage
       (Content (Db.initialDefaultRates
                   ++ [BoppRate.mk 9007199254740992 "glue_rate" 42%Q]))
       Missing Missing))))
  = [9007199254740992; 9007199254740992].
Proof. vm_compute. reflexivity. Qed.

(** A new data directory yields the 16 default rates, with the ids 1 to 16,
    and writes them to the rates file. *)
Lemma getBoppRates_fresh :
  Db.getBoppRates fresh
  = (Db.initialDefaultRates,
     mkStorage (Content Db.initialDefaultRates) Missing Missing)
  /\ idsOf Db.initialDefaultRates = map Z.of_nat (seq 1 16).
Proof. split; reflexivity. Qed.

(** What [getBoppRates] returns is what the next [getBoppRates] returns. *)
Lemma getBoppRates_stable (s : Storage) :
  ratesOf (snd (Db.getBoppRates s)) = ratesOf s.
Proof.
  rewrite !ratesOf_file.
  unfold Db.getBoppRates, Db.loadRatesFromFile, bind, readFile, writeRatesFile,
    ret.
  destruct s as [rf hf uf]. cbn [rates_file].
  destruct rf; reflexivity.
Qed.

(** Without the users file the first read writes the default users, also
    when the operation then fails. *)
Lemma failure_on_missing_file_writes_defaults :
  fst (Auth.deleteUser "admin" fresh)
  = Auth.basicFailure "The default 'admin' account cannot be deleted."
  /\ users_file (snd (Auth.deleteUser "admin" fresh))
     = Content Auth.initialMockUsers.
Proof. split; reflexivity. Qed.

(** The stored password and the one given are compared as they are, absent
    or not: the default admin [adm001], who has no password, gets in when
    none is given, and only then. *)
Lemma admin_without_password :
  fst (Auth.loginUser "adm001" None fresh)
  = Auth.loginSuccess
      (AuthenticatedUser.mk "adm001" "Bob Johnson (Admin)" admin None None None)
  /\ forall password,
       fst (Auth.loginUser "adm001" (Some password) fresh)
       = Auth.loginFailure "Invalid credentials for this admin user.".
Proof. split; [reflexivity | intros password; reflexivity]. Qed.

(** [addUser] turns down an id that differs from a present one in case
    only. *)
Lemma addUser_same_id_other_case :
  Auth.addUser "Emp001" "Alice Again" "pw" employee sampleStorage
  = (Auth.basicFailure "User with this ID already exists.", sampleStorage).
Proof. reflexivity. Qed.

(** The two default entries of the history stand oldest first, unlike the
    entries [updateBoppRates] puts in front: on a new data directory
    [getRateHistory(1)] returns the entry of two days ago, not the one of
    yesterday. *)
Lemma seeded_history_is_oldest_first (boot : Z) :
  exists e1 e2,
    Db.initialMockRateHistory boot = [e1; e2]
    /\ fst (Db.getRateHistory boot (Some 1) fresh) = [e1]
    /\ BoppRateHistory.id e1 = 1 /\ BoppRateHistory.id e2 = 2
    /\ BoppRateHistory.changed_at e1 < BoppRateHistory.changed_at e2.
Proof.
  eexists. eexists. split; [reflexivity|].
  split; [reflexivity|]. cbn [BoppRateHistory.id BoppRateHistory.changed_at].
  repeat split. lia.
Qed.

(** So of the two default entries the one of yesterday leaves the history
    first: after 49 updates of a new data directory the entry of two days
    ago closes the list of 50, and the entry of yesterday is gone. *)
Lemma seeded_entries_leave_in_stored_order :
  let u := Db.mkUpdate 7 [] "admin" "Administrator" in
  let s := Db.runUpdates 0 (repeat u 49) fresh in
  map BoppRateHistory.id (skipn 48 (historyOf 0 s)) = [3; 1].
Proof. vm_compute. reflexivity. Qed.

(** * More properties of the rate store *)

Lemma map_get_set {V : Type} (k k' : string) (v : V) (m : JsMap V) :
  map_get k (map_set k' v m)
  = if String.eqb k' k then Some v else map_get k m.
Proof.
  induction m as [|[k0 v0] m IH]; cbn [map_set map_get].
  - reflexivity.
  - destruct (String.eqb_spec k0 k') as [->|Hne]; cbn [map_get].
    + destruct (String.eqb k' k); reflexivity.
    + rewrite IH. destruct (String.eqb_spec k0 k) as [->|Hk]; [|reflexivity].
      apply String.eqb_neq in Hne. rewrite String.eqb_sym in Hne.
      now rewrite Hne.
Qed.

Lemma rateUnder_values (k : string) (m : JsMap BoppRate) :
  keyedMap m -> rateUnder k (map_values m) = map_get k m.
Proof.
  unfold keyedMap, rateUnder, map_values.
  induction 1 as [|[k0 r] m Hk _ IH]; cbn [map find map_get snd];
    [reflexivity|].
  cbn [fst snd] in Hk. rewrite <- Hk.
  destruct (String.eqb k0 k); [reflexivity | exact IH].
Qed.

Lemma rateUnder_snoc (k : string) (l : list BoppRate) (x : BoppRate) :
  rateUnder k (rev (l ++ [x]))
  = if String.eqb (BoppRate.key x) k then Some x else rateUnder k (rev l).
Proof. rewrite rev_app_distr. reflexivity. Qed.

Lemma overlay_fold_keyed (l : list BoppRate) :
  forall maxId m,
    keyedMap m -> wellFormedRates (map_values m) -> 0 <= maxId ->
    keyedMap (snd (fold_left Db.overlayFileRate l (maxId, m))).
Proof.
  induction l as [|r l IH]; intros maxId m Hk Hwf Hmax; [exact Hk|].
  cbn [fold_left].
  destruct (overlay_step_shape maxId m r Hk Hwf Hmax) as (H1 & H2 & H3).
  destruct (Db.overlayFileRate (maxId, m) r) as [maxId' m'].
  now apply IH.
Qed.

(** X1. Whatever the rates file holds, [getBoppRates] returns a set that
    starts with the sixteen default keys in their order, has no key twice and
    gives every rate an id. *)
Theorem getBoppRates_shape (s : Storage) :
  let rates := fst (Db.getBoppRates s) in
  firstn 16 (keysOf rates) = keysOf Db.initialDefaultRates
  /\ NoDup (keysOf rates)
  /\ (forall r, In r rates -> BoppRate.id r <> 0)
  /\ (16 <= length rates)%nat.
Proof.
  cbv zeta. fold (ratesOf s).
  destruct (ratesOf_wellFormed s) as ((extra & Hpre) & Hnd & Hid).
  assert (Hlen : length (keysOf Db.initialDefaultRates) = 16%nat)
    by reflexivity.
  split; [|split; [exact Hnd | split]].
  - rewrite Hpre, <- Hlen, firstn_app, Nat.sub_diag, firstn_all.
    cbn [firstn]. apply app_nil_r.
  - now apply Forall_forall.
  - assert (H : length (keysOf (ratesOf s)) = length (ratesOf s))
      by apply length_map.
    rewrite <- H, Hpre, length_app, Hlen. lia.
Qed.

Lemma overlay_fold_get (k : string) (m0 : JsMap BoppRate) (maxId0 : Z) :
  16 <= maxId0 ->
  forall l,
    16 <= fst (fold_left Db.overlayFileRate l (maxId0, m0))
    /\ match rateUnder k (rev l) with
       | Some f =>
           exists r,
             map_get k (snd (fold_left Db.overlayFileRate l (maxId0, m0)))
             = Some r
             /\ BoppRate.value r = BoppRate.value f
             /\ (BoppRate.id f <> 0 -> BoppRate.id r = BoppRate.id f)
             /\ (BoppRate.id f = 0 -> 16 < BoppRate.id r)
       | None =>
           map_get k (snd (fold_left Db.overlayFileRate l (maxId0, m0)))
           = map_get k m0
       end.
Proof.
  intros H0 l. induction l as [|x l (IHmax & IHget)] using rev_ind.
  - cbn. split; [exact H0 | reflexivity].
  - rewrite fold_left_app, rateUnder_snoc. cbn [fold_left].
    destruct (fold_left Db.overlayFileRate l (maxId0, m0)) as [maxId m].
    cbn [fst snd] in *. unfold Db.overlayFileRate, Db.spread.
    destruct (Z.eqb_spec (BoppRate.id x) 0) as [Hx|Hx];
      cbn [fst snd BoppRate.id BoppRate.key BoppRate.value];
      rewrite map_get_set.
    + split; [lia|].
      destruct (String.eqb (BoppRate.key x) k); [|exact IHget].
      eexists. split; [reflexivity|]. cbn [BoppRate.id BoppRate.value].
      repeat split; [congruence | intros _; lia].
    + split; [destruct (Z.gtb_spec (BoppRate.id x) maxId); lia|].
      destruct (String.eqb (BoppRate.key x) k); [|exact IHget].
      eexists. split; [reflexivity|]. cbn [BoppRate.id BoppRate.value].
      repeat split; congruence.
Qed.

(** X2. With a rates file in place, the rate [getBoppRates] returns under a
    key is, when the file has rates under that key, the last of them: its
    value, and its id, or an id above the default ids when it has none.  A
    key the file does not have keeps the default rate, and is absent when
    there is no default. *)
Theorem getBoppRates_file_over_defaults (s : Storage) (file : list BoppRate)
  (k : string) :
  rates_file s = Content file ->
  let rates := fst (Db.getBoppRates s) in
  match rateUnder k (rev file) with
  | Some f =>
      exists r,
        rateUnder k rates = Some r
        /\ BoppRate.value r = BoppRate.value f
        /\ (BoppRate.id f <> 0 -> BoppRate.id r = BoppRate.id f)
        /\ (BoppRate.id f = 0 -> 16 < BoppRate.id r)
  | None => rateUnder k rates = rateUnder k Db.initialDefaultRates
  end.
Proof.
  intros Hfile. cbv zeta. fold (ratesOf s). rewrite ratesOf_file, Hfile.
  unfold Db.overlayOnDefaults. cbv zeta. rewrite seeded_defaults.
  destruct (overlay_fold_get k (map entryOf Db.initialDefaultRates) 16
              ltac:(lia) file) as (_ & Hget).
  set (m := snd (fold_left Db.overlayFileRate file
                   (16, map entryOf Db.initialDefaultRates))) in *.
  assert (Hk : keyedMap m).
  { apply overlay_fold_keyed; [apply keyedMap_entries | | lia].
    rewrite map_values_entryOf. apply defaults_wellFormed. }
  pose proof (rateUnder_values k m Hk) as Hrv.
  destruct (rateUnder k (rev file)).
  - destruct Hget as (r & Hr & Hrest). exists r.
    split; [rewrite Hrv; exact Hr | exact Hrest].
  - rewrite Hrv. etransitivity; [exact Hget|].
    rewrite <- rateUnder_values by apply keyedMap_entries.
    now rewrite map_values_entryOf.
Qed.

Lemma getBoppRates_file_over_defaults_witness :
  let file := [BoppRate.mk 0 "profit" 11%Q; BoppRate.mk 40 "glue_rate" 3%Q;
               BoppRate.mk 0 "profit" 12%Q] in
  let s := mkStorage (Content file) Missing Missing in
  (exists r, rateUnder "profit" (fst (Db.getBoppRates s)) = Some r
             /\ BoppRate.value r = 12%Q /\ 16 < BoppRate.id r)
  /\ rateUnder "natural" (fst (Db.getBoppRates s))
     = Some (BoppRate.mk 11 "natural" 0.0000%Q).
Proof.
  intros file s. split.
  - destruct (getBoppRates_file_over_defaults s file "profit" eq_refl)
      as (r & Hr & Hv & _ & Hid).
    exists r. split; [exact Hr|]. split; [exact Hv|]. now apply Hid.
  - exact (getBoppRates_file_over_defaults s file "natural" eq_refl).
Defined.

(** X3. [getBoppRates] leaves the history file and the users file alone and
    writes the rates file only when it is missing, with the defaults; a rates
    file that cannot be used is answered with the defaults and left as it
    is.  A second call returns the same set and writes nothing. *)
Theorem getBoppRates_writes_only_a_missing_file (s : Storage) :
  let s1 := snd (Db.getBoppRates s) in
  history_file s1 = history_file s
  /\ users_file s1 = users_file s
  /\ rates_file s1 = match rates_file s with
                     | Missing => Content Db.initialDefaultRates
                     | file => file
                     end
  /\ fst (Db.getBoppRates s)
     = match rates_file s with
       | Content file => Db.overlayOnDefaults file
       | _ => Db.initialDefaultRates
       end
  /\ Db.getBoppRates s1 = (fst (Db.getBoppRates s), s1).
Proof.
  cbv zeta.
  unfold Db.getBoppRates, Db.loadRatesFromFile, bind, readFile, writeRatesFile,
    ret.
  destruct s as [rf hf uf]. cbn [rates_file history_file users_file].
  destruct rf; cbn [fst snd rates_file history_file users_file];
    repeat split.
Qed.

(** X4. [updateBoppRates] removes no rate and moves none: after the call
    the rates that were there stand where they stood, each with its id and
    its key, and what has come in stands after them, under keys that were not
    there and that the form brought. *)
Theorem updateBoppRates_keeps_rates_in_place (boot now : Z)
  (form : list BoppRate) (userId userName : string) (s : Storage) :
  let s' := snd (Db.updateBoppRates boot now form userId userName s) in
  exists added,
    map idKeyOf (fst (Db.getBoppRates s'))
    = map idKeyOf (fst (Db.getBoppRates s)) ++ added
    /\ forall p, In p added ->
                 ~ In (snd p) (keysOf (fst (Db.getBoppRates s)))
                 /\ exists f, In f form /\ BoppRate.key f = snd p.
Proof.
  cbv zeta. fold (ratesOf s).
  fold (ratesOf (snd (Db.updateBoppRates boot now form userId userName s))).
  rewrite ratesOf_update.
  rewrite mergeRates_entries by apply ratesOf_wellFormed.
  destruct (applyFormRate_fold_idKeys form (map entryOf (ratesOf s))
              (Db.maxIdOf (ratesOf s))) as (added & Heq & Hadded).
  exists added. rewrite map_values_entryOf, map_fst_entryOf in *.
  split; [exact Heq | exact Hadded].
Qed.

Lemma applyFormRate_get (k : string) (m : JsMap BoppRate) (maxId : Z)
  (f : BoppRate) :
  option_map BoppRate.value (map_get k (fst (Db.applyFormRate (m, maxId) f)))
  = if String.eqb (BoppRate.key f) k then Some (BoppRate.value f)
    else option_map BoppRate.value (map_get k m).
Proof.
  unfold Db.applyFormRate.
  destruct (map_get (BoppRate.key f) m) as [e|];
    [|destruct (BoppRate.id f =? 0)];
    cbn [fst]; rewrite map_get_set;
    destruct (String.eqb (BoppRate.key f) k); reflexivity.
Qed.

Lemma applyFormRate_fold_get (k : string) (m0 : JsMap BoppRate) (maxId0 : Z)
  (form : list BoppRate) :
  option_map BoppRate.value
    (map_get k (fst (fold_left Db.applyFormRate form (m0, maxId0))))
  = match rateUnder k (rev form) with
    | Some f => Some (BoppRate.value f)
    | None => option_map BoppRate.value (map_get k m0)
    end.
Proof.
  induction form as [|x form IH] using rev_ind; [reflexivity|].
  rewrite fold_left_app, rateUnder_snoc. cbn [fold_left].
  destruct (fold_left Db.applyFormRate form (m0, maxId0)) as [m maxId].
  rewrite applyFormRate_get.
  destruct (String.eqb (BoppRate.key x) k); [reflexivity | exact IH].
Qed.

(** X5. After [updateBoppRates] the value under a key is the value of the
    last incoming rate with that key, and the value it had before when the
    form has no rate with that key. *)
Theorem updateBoppRates_last_value_wins (boot now : Z) (form : list BoppRate)
  (userId userName : string) (s : Storage) (k : string) :
  let s' := snd (Db.updateBoppRates boot now form userId userName s) in
  option_map BoppRate.value (rateUnder k (fst (Db.getBoppRates s')))
  = match rateUnder k (rev form) with
    | Some f => Some (BoppRate.value f)
    | None =>
        option_map BoppRate.value (rateUnder k (fst (Db.getBoppRates s)))
    end.
Proof.
  cbv zeta. fold (ratesOf s).
  fold (ratesOf (snd (Db.updateBoppRates boot now form userId userName s))).
  rewrite ratesOf_update.
  rewrite mergeRates_entries by apply ratesOf_wellFormed.
  rewrite rateUnder_values.
  - rewrite applyFormRate_fold_get.
    rewrite <- (rateUnder_values k (map entryOf (ratesOf s)))
      by apply keyedMap_entries.
    now rewrite map_values_entryOf.
  - apply applyFormRate_fold_keyed.
    + apply keyedMap_entries.
    + rewrite map_values_entryOf. apply ratesOf_wellFormed.
    + apply maxIdOf_nonneg.
Qed.

(** X6. After [updateBoppRates] the rates file and the history file are
    there, so that [getBoppRates] and [getRateHistory] then write nothing;
    the users file is as it was. *)
Theorem updateBoppRates_leaves_both_files (boot now : Z) (form : list BoppRate)
  (userId userName : string) (s : Storage) :
  let s' := snd (Db.updateBoppRates boot now form userId userName s) in
  users_file s' = users_file s
  /\ snd (Db.getBoppRates s') = s'
  /\ forall boot' limit, snd (Db.getRateHistory boot' limit s') = s'.
Proof.
  cbv zeta. rewrite updateBoppRates_run. cbn [snd users_file].
  split; [reflexivity|]. split; [reflexivity|].
  intros boot' limit. now rewrite getRateHistory_run.
Qed.

Lemma NoDup_firstn {A : Type} (n : nat) (l : list A) :
  NoDup l -> NoDup (firstn n l).
Proof.
  revert n. induction l as [|x l IH]; intros [|n] Hnd; cbn [firstn];
    try constructor.
  - inversion Hnd as [|? ? Hn Hnd']; subst.
    intros Hin. apply Hn. rewrite <- (firstn_skipn n l).
    apply in_or_app. now left.
  - inversion Hnd; subst. now apply IH.
Qed.

Lemma Forall_firstn {A : Type} (P : A -> Prop) (n : nat) (l : list A) :
  Forall P l -> Forall P (firstn n l).
Proof.
  intros H. apply Forall_forall. intros x Hx.
  rewrite Forall_forall in H. apply H.
  rewrite <- (firstn_skipn n l). apply in_or_app. now left.
Qed.

(** What every call keeps true of the history read, given that it holds of
    the default history and that one more entry at the head, with the next
    id, keeps it. *)
Lemma reachable_history_ind (P : list BoppRateHistory -> Prop) :
  (forall boot, P (Db.initialMockRateHistory boot)) ->
  (forall old now userId userName snapshot,
      P old ->
      P (slice0 (BoppRateHistory.mk (Db.maxHistoryId old + 1) now userId
                   userName snapshot :: old) 50)) ->
  forall s, reachable s -> forall boot, P (historyOf boot s).
Proof.
  intros Hinit Hstep s Hreach.
  induction Hreach as [|boot' s c _ IH]; intros boot.
  - rewrite historyOf_file. apply Hinit.
  - pose proof (IH boot) as IHb. pose proof (IH boot') as IHb'.
    pose proof (auth_calls_keep_rate_files boot' c s) as Hkeep.
    destruct c; cbn [storageAfter] in *;
      try (destruct Hkeep as (_ & Hh);
           rewrite historyOf_file, Hh, <- historyOf_file; exact IHb).
    + rewrite historyOf_file.
      unfold Db.getBoppRates, Db.loadRatesFromFile, bind, readFile,
        writeRatesFile, ret.
      destruct s as [rf hf uf]. rewrite historyOf_file in IHb.
      destruct rf; exact IHb.
    + rewrite updateBoppRates_run, historyOf_file. cbn [snd history_file].
      unfold newEntry. apply Hstep. exact IHb'.
    + rewrite getRateHistory_run, historyOf_file. cbn [snd history_file].
      rewrite historyOf_file in IHb.
      destruct (history_file s); [apply Hinit | exact IHb | exact IHb].
Qed.

Lemma next_history_id_is_new (old : list BoppRateHistory) (now : Z)
  (userId userName : string) (snapshot : list BoppRate) :
  NoDup (map BoppRateHistory.id old)
  /\ Forall (fun h => 1 <= BoppRateHistory.id h) old ->
  NoDup (map BoppRateHistory.id
           (slice0 (BoppRateHistory.mk (Db.maxHistoryId old + 1) now userId
                      userName snapshot :: old) 50))
  /\ Forall (fun h => 1 <= BoppRateHistory.id h)
       (slice0 (BoppRateHistory.mk (Db.maxHistoryId old + 1) now userId
                  userName snapshot :: old) 50).
Proof.
  intros (Hnd & Hpos). rewrite slice0_nonneg by lia.
  rewrite maxHistoryId_max.
  destruct (fold_max_bound (map BoppRateHistory.id old)) as (Hle & Hin).
  split.
  - rewrite <- firstn_map. apply NoDup_firstn. cbn [map BoppRateHistory.id].
    constructor; [|exact Hnd]. intros H. specialize (Hle _ H). lia.
  - apply Forall_firstn. constructor; [|exact Hpos].
    cbn [BoppRateHistory.id].
    assert (0 <= fold_right Z.max 0 (map BoppRateHistory.id old))
      by (destruct Hin as [->|Hin]; [lia|];
          apply in_map_iff in Hin as (h & <- & Hh);
          rewrite Forall_forall in Hpos; specialize (Hpos h Hh); lia).
    lia.
Qed.

(** X7. In every state reached from a new data directory the entries of the
    history have ids that are all different and at least 1. *)
Theorem history_ids_are_distinct (boot : Z) (s : Storage) :
  reachable s ->
  NoDup (map BoppRateHistory.id (fst (Db.loadHistoryFromFile boot s)))
  /\ Forall (fun h => 1 <= BoppRateHistory.id h)
       (fst (Db.loadHistoryFromFile boot s)).
Proof.
  intros Hreach. fold (historyOf boot s).
  apply (reachable_history_ind
           (fun h => NoDup (map BoppRateHistory.id h)
                     /\ Forall (fun e => 1 <= BoppRateHistory.id e) h)).
  - intros b. split.
    + cbn. repeat constructor; cbn; intuition discriminate.
    + repeat constructor; cbn; lia.
  - intros old now userId userName snapshot.
    apply next_history_id_is_new.
  - exact Hreach.
Qed.

Lemma history_ids_are_distinct_witness :
  let s := Db.runUpdates 0
             (repeat (Db.mkUpdate 7 [] "admin" "Administrator") 3) fresh in
  NoDup (map BoppRateHistory.id (fst (Db.loadHistoryFromFile 0 s)))
  /\ Forall (fun h => 1 <= BoppRateHistory.id h)
       (fst (Db.loadHistoryFromFile 0 s)).
Proof.
  intros s. apply history_ids_are_distinct.
  unfold s. cbn [repeat Db.runUpdates fold_left].
  repeat apply (reachable_call 0 _
                  (UpdateBoppRates 7 [] "admin" "Administrator")).
  apply reachable_fresh.
Defined.

(** X8. Right after [updateBoppRates], [getRateHistory(n)] with [n] from 1
    to 50 returns the entry of that update, with the rates as they were read
    before it, and then the first [n - 1] entries of the history as it was;
    without a limit, [n] is 5. *)
Theorem getRateHistory_after_update (boot now : Z) (form : list BoppRate)
  (userId userName : string) (limit : option Z) (s : Storage) :
  let n := match limit with Some l => l | None => 5 end in
  let s' := snd (Db.updateBoppRates boot now form userId userName s) in
  1 <= n <= 50 ->
  exists e,
    fst (Db.getRateHistory boot limit s')
    = e :: firstn (Z.to_nat (n - 1)) (fst (Db.loadHistoryFromFile boot s))
    /\ BoppRateHistory.rates_snapshot e = fst (Db.getBoppRates s)
    /\ BoppRateHistory.changed_at e = now
    /\ BoppRateHistory.changed_by_id e = userId
    /\ BoppRateHistory.changed_by_name e = userName.
Proof.
  cbv zeta. intros Hn. exists (newEntry boot now userId userName s).
  split; [|repeat split].
  rewrite getRateHistory_run. cbn [fst]. rewrite historyOf_update.
  rewrite !slice0_nonneg by lia. rewrite firstn_firstn.
  replace (Nat.min (Z.to_nat (match limit with Some l => l | None => 5 end))
             (Z.to_nat 50))
    with (S (Z.to_nat (match limit with Some l => l | None => 5 end - 1)))
    by lia.
  reflexivity.
Qed.

Lemma getRateHistory_after_update_witness :
  let s' := snd (Db.updateBoppRates 0 7 [BoppRate.mk 0 "profit" 15%Q]
                   "admin" "Administrator" fresh) in
  exists e,
    fst (Db.getRateHistory 0 None s') = e :: Db.initialMockRateHistory 0
    /\ BoppRateHistory.rates_snapshot e = Db.initialDefaultRates.
Proof.
  cbv zeta.
  destruct (getRateHistory_after_update 0 7 [BoppRate.mk 0 "profit" 15%Q]
              "admin" "Administrator" None fresh ltac:(cbv zeta; lia))
    as (e & Hget & Hsnap & _).
  exists e. split; [exact Hget | exact Hsnap].
Defined.

Lemma NoDup_replace {A : Type} (l1 l2 : list A) (a b : A) :
  NoDup (l1 ++ a :: l2) -> ~ In b (l1 ++ l2) -> NoDup (l1 ++ b :: l2).
Proof.
  intros Hnd Hb. apply NoDup_remove_1 in Hnd.
  apply (NoDup_Add (Add_app b l1 l2)). now split.
Qed.

Lemma overlay_without_ids_step (maxId : Z) (m : JsMap BoppRate)
  (x : BoppRate) :
  BoppRate.id x = 0 ->
  NoDup (idsOf (map_values m)) ->
  Forall (fun r => BoppRate.id r <= maxId) (map_values m) ->
  NoDup (idsOf (map_values (snd (Db.overlayFileRate (maxId, m) x))))
  /\ Forall (fun r => BoppRate.id r <= fst (Db.overlayFileRate (maxId, m) x))
       (map_values (snd (Db.overlayFileRate (maxId, m) x))).
Proof.
  intros Hx Hnd Hle. unfold Db.overlayFileRate, Db.spread.
  rewrite Hx. cbn [Z.eqb fst snd BoppRate.id BoppRate.key BoppRate.value].
  assert (Hnew : ~ In (maxId + 1) (idsOf (map_values m))).
  { intros Hin. apply in_map_iff in Hin as (r & Hr & Hin).
    rewrite Forall_forall in Hle. specialize (Hle r Hin). lia. }
  assert (Hle' : Forall (fun r => BoppRate.id r <= maxId + 1) (map_values m))
    by (eapply Forall_impl; [|exact Hle]; cbn beta; intros; lia).
  destruct (map_get (BoppRate.key x) m) as [e|] eqn:E.
  - apply map_get_Some_split in E as (m1 & m2 & -> & Hn).
    rewrite map_set_present by exact Hn.
    unfold idsOf, map_values in *. rewrite !map_app in *.
    cbn [map snd BoppRate.id] in *. split.
    + eapply NoDup_replace; [exact Hnd|].
      intros Hin. apply Hnew. apply in_app_or in Hin as [Hin|Hin];
        apply in_or_app; [now left | right; now right].
    + apply Forall_app in Hle' as (H1 & H2).
      apply Forall_cons_iff in H2 as (_ & H2).
      apply Forall_app. split; [exact H1|]. constructor; [|exact H2].
      cbn [BoppRate.id]. lia.
  - apply map_get_None in E. rewrite map_set_absent by exact E.
    unfold idsOf, map_values in *. rewrite !map_app.
    cbn [map snd BoppRate.id]. split.
    + now apply NoDup_snoc.
    + apply Forall_app. split; [exact Hle'|].
      repeat constructor. cbn [BoppRate.id]. lia.
Qed.

Lemma overlay_without_ids_fold (l : list BoppRate) :
  Forall (fun r => BoppRate.id r = 0) l ->
  forall maxId m,
    NoDup (idsOf (map_values m)) ->
    Forall (fun r => BoppRate.id r <= maxId) (map_values m) ->
    NoDup (idsOf (map_values (snd (fold_left Db.overlayFileRate l (maxId, m))))).
Proof.
  induction 1 as [|x l Hx _ IH]; intros maxId m Hnd Hle; [exact Hnd|].
  cbn [fold_left].
  destruct (overlay_without_ids_step maxId m x Hx Hnd Hle) as (H1 & H2).
  destruct (Db.overlayFileRate (maxId, m) x) as [maxId' m'].
  now apply IH.
Qed.

(** X9. When no rate of the rates file carries an id, [getBoppRates] gives
    each of them a new one, and the set it returns has no id twice. *)
Theorem getBoppRates_ids_for_a_file_without_ids (s : Storage)
  (file : list BoppRate) :
  rates_file s = Content file ->
  Forall (fun r => BoppRate.id r = 0) file ->
  NoDup (idsOf (fst (Db.getBoppRates s))).
Proof.
  intros Hfile Hids. fold (ratesOf s). rewrite ratesOf_file, Hfile.
  unfold Db.overlayOnDefaults. cbv zeta. rewrite seeded_defaults.
  apply overlay_without_ids_fold; [exact Hids | |].
  - rewrite map_values_entryOf. apply defaults_ids_unique.
  - rewrite map_values_entryOf. unfold Db.initialDefaultRates.
    repeat (constructor; [cbn; lia|]). constructor.
Qed.

Lemma getBoppRates_ids_for_a_file_without_ids_witness :
  let file := [BoppRate.mk 0 "profit" 11%Q; BoppRate.mk 0 "glue_rate" 3%Q;
               BoppRate.mk 0 "profit" 12%Q] in
  NoDup (idsOf (fst (Db.getBoppRates (mkStorage (Content file) Missing Missing)))).
Proof.
  intros file.
  apply (getBoppRates_ids_for_a_file_without_ids
           (mkStorage (Content file) Missing Missing) file eq_refl).
  repeat constructor.
Defined.

(** A file that mixes rates with and without ids can end with an id twice:
    the id given to the first rate is the one the second brings. *)
Lemma getBoppRates_ids_for_a_mixed_file :
  idsOf (skipn 16 (fst (Db.getBoppRates
    (mkStorage (Content [BoppRate.mk 0 "glue_rate" 3%Q;
                         BoppRate.mk 17 "ink_rate" 4%Q]) Missing Missing))))
  = [17; 17].
Proof. vm_compute. reflexivity. Qed.

(** X27. After one call or more of [updateBoppRates], from any state, the
    history file holds at most 50 entries, and so does the history read in
    any state reached from a new data directory; what a call writes is the
    list read with the new entry put in front, cut after its first 50
    entries. *)
Theorem history_never_exceeds_cap (boot : Z) (s : Storage) (u : Db.Update)
  (us : list Db.Update) :
  (exists h, history_file (Db64.runUpdates boot (u :: us) s) = Content h
             /\ (length h <= 50)%nat)
  /\ (reachable s -> (length (historyOf boot s) <= 50)%nat)
  /\ exists e kept dropped,
       history_file (Db64.applyUpdate boot s u) = Content kept
       /\ e :: historyOf boot s = kept ++ dropped
       /\ BoppRateHistory.changed_at e = Db.at_time u
       /\ length kept = Nat.min 50 (S (length (historyOf boot s))).
Proof.
  split; [apply runUpdates64_history|].
  split; [apply reachable_history_cap|].
  set (e := newEntry64 boot (Db.at_time u) (Db.actorId u) (Db.actorName u) s).
  exists e, (firstn 50 (e :: historyOf boot s)),
    (skipn 50 (e :: historyOf boot s)).
  split; [|split; [|split]].
  - rewrite applyUpdate64_history. fold e. now rewrite slice0_nonneg by lia.
  - symmetry. apply firstn_skipn.
  - reflexivity.
  - rewrite length_firstn. reflexivity.
Qed.

Lemma history_never_exceeds_cap_witness :
  let u := Db.mkUpdate 7 [] "admin" "Administrator" in
  let s := storageAfter 0 (UpdateBoppRates 7 [] "admin" "Administrator") fresh in
  (length (historyOf 0 s) <= 50)%nat
  /\ exists h, history_file (Db64.runUpdates 0 (repeat u 60) s) = Content h
               /\ (length h <= 50)%nat.
Proof.
  intros u s.
  destruct (history_never_exceeds_cap 0 s u (repeat u 59)) as (Hrun & Hcap & _).
  split; [|exact Hrun].
  apply Hcap. apply (reachable_call 0), reachable_fresh.
Defined.

(** * More properties of the auth store *)

Lemma find_middle {A : Type} (p : A -> bool) (l1 l2 : list A) (x : A) :
  Forall (fun y => p y = false) l1 -> p x = true ->
  find p (l1 ++ x :: l2) = Some x.
Proof.
  induction 1 as [|y l1 Hy _ IH]; intros Hx; cbn [app find].
  - now rewrite Hx.
  - rewrite Hy. now apply IH.
Qed.

Lemma findIndex_split {A : Type} (p : A -> bool) (l : list A) :
  forall i,
    findIndex p l = Some i ->
    exists l1 x l2,
      l = l1 ++ x :: l2 /\ p x = true
      /\ Forall (fun y => p y = false) l1
      /\ forall f, update_at i f l = l1 ++ f x :: l2.
Proof.
  induction l as [|y l IH]; intros i; cbn [findIndex]; [discriminate|].
  destruct (p y) eqn:Ey.
  - intros [= <-]. exists [], y, l. repeat split; [exact Ey | constructor].
  - destruct (findIndex p l) as [j|]; [|discriminate].
    cbn [option_map]. intros [= <-].
    destruct (IH j eq_refl) as (l1 & x & l2 & -> & Hx & Hl1 & Hup).
    exists (y :: l1), x, l2. repeat split; try assumption.
    + now constructor.
    + intros f. cbn [update_at app]. now rewrite Hup.
Qed.

Lemma findIndex_None {A : Type} (p : A -> bool) (l : list A) :
  findIndex p l = None -> find p l = None.
Proof.
  induction l as [|y l IH]; cbn [findIndex find]; [reflexivity|].
  destruct (p y); [discriminate|].
  destruct (findIndex p l); [discriminate | intros _; now apply IH].
Qed.

Lemma find_split {A : Type} (p : A -> bool) (l : list A) (x : A) :
  find p l = Some x ->
  exists l1 l2,
    l = l1 ++ x :: l2 /\ p x = true
    /\ Forall (fun y => p y = false) l1
    /\ forall f, update_found p f l = l1 ++ f x :: l2.
Proof.
  induction l as [|y l IH]; cbn [find]; [discriminate|].
  destruct (p y) eqn:Ey.
  - intros [= <-]. exists [], l. repeat split; [exact Ey | constructor |].
    intros f. cbn [update_found app]. now rewrite Ey.
  - intros H. destruct (IH H) as (l1 & l2 & -> & Hx & Hl1 & Hup).
    exists (y :: l1), l2. repeat split; try assumption.
    + now constructor.
    + intros f. cbn [update_found app]. now rewrite Ey, Hup.
Qed.

Lemma find_Some_iff_exists {A : Type} (p : A -> bool) (l : list A) :
  (exists x, find p l = Some x) <-> exists x, In x l /\ p x = true.
Proof.
  split.
  - intros (x & H). exists x. now apply find_some in H.
  - intros (x & Hin & Hp). destruct (find p l) as [y|] eqn:E;
      [now exists y|].
    pose proof (find_none _ _ E x Hin). congruence.
Qed.

Lemma usersOf_saved (rf : File (list BoppRate))
  (hf : File (list BoppRateHistory)) (users : list AuthenticatedUser) :
  usersOf (mkStorage rf hf (Content users)) = users.
Proof. now rewrite usersOf_file. Qed.

(** What [generateAndStoreOTP] does, by what the lookup yields. *)
Lemma generateAndStoreOTP_cases (now : Z) (rnd : Q) (userId : string)
  (s : Storage) :
  match userWithIdAndRole userId employee s with
  | Some u =>
      exists l1 l2,
        usersOf s = l1 ++ u :: l2
        /\ Forall (fun v => Auth.idAndRoleAre userId employee v = false) l1
        /\ Auth.generateAndStoreOTP now rnd userId s
           = (Auth.basicSuccess "OTP generated successfully."
                (Some (Auth.newOtpOf rnd)),
              mkStorage (rates_file s) (history_file s)
                (Content
                   (l1 ++ AuthenticatedUser.mk (AuthenticatedUser.id u)
                            (AuthenticatedUser.name u)
                            (AuthenticatedUser.role u)
                            (AuthenticatedUser.password u)
                            (Some (Auth.newOtpOf rnd)) (Some now) :: l2)))
  | None =>
      Auth.generateAndStoreOTP now rnd userId s
      = (Auth.basicFailure
           "Failed to generate OTP. User not found or not an employee.",
         usersRead s)
  end.
Proof.
  unfold userWithIdAndRole, Auth.generateAndStoreOTP. auth_run.
  destruct (findIndex (Auth.idAndRoleAre userId employee) (usersOf s))
    as [i|] eqn:Ei.
  - destruct (findIndex_split _ _ _ Ei) as (l1 & x & l2 & Hl & Hx & Hl1 & Hup).
    assert (Hf : find (Auth.idAndRoleAre userId employee) (usersOf s) = Some x)
      by (rewrite Hl; now apply find_middle).
    rewrite Hf.
    exists l1, l2. split; [exact Hl|]. split; [exact Hl1|].
    auth_run. now rewrite Hup.
  - now rewrite (findIndex_None _ _ Ei).
Qed.

Lemma verifyOtp_same_users (now : Z) (userId otp : string) (s s' : Storage) :
  usersOf s = usersOf s' ->
  fst (Auth.verifyOtp now userId otp s) = fst (Auth.verifyOtp now userId otp s').
Proof.
  intros H. unfold Auth.verifyOtp, bind.
  rewrite !loadUsersFromFile_run, H.
  destruct (find _ _) as [u|]; [|reflexivity].
  destruct (orb _ _); [reflexivity|].
  destruct (AuthenticatedUser.otp_created_at u); [|reflexivity].
  destruct (_ >? _); [reflexivity|].
  destruct (opt_string_eqb _ _); reflexivity.
Qed.

(** X10. [generateAndStoreOTP] succeeds exactly when a user has the id and
    the role [employee]; it then puts the code it returns, and the time, on
    the first such user and leaves that user's other fields and every other
    user as they were. *)
Theorem generateAndStoreOTP_marks_one_user (now : Z) (rnd : Q)
  (userId : string) (s : Storage) :
  let r := fst (Auth.generateAndStoreOTP now rnd userId s) in
  let s1 := snd (Auth.generateAndStoreOTP now rnd userId s) in
  (BasicResponse.success r = true
   <-> exists u, In u (fst (Auth.getAllUsers s))
                 /\ AuthenticatedUser.id u = userId
                 /\ AuthenticatedUser.role u = employee)
  /\ (BasicResponse.success r = true ->
      exists l1 u l2,
        fst (Auth.getAllUsers s) = l1 ++ u :: l2
        /\ AuthenticatedUser.id u = userId
        /\ AuthenticatedUser.role u = employee
        /\ (forall v, In v l1 ->
                      ~ (AuthenticatedUser.id v = userId
                         /\ AuthenticatedUser.role v = employee))
        /\ BasicResponse.otp r = Some (Auth.newOtpOf rnd)
        /\ fst (Auth.getAllUsers s1)
           = l1 ++ AuthenticatedUser.mk userId (AuthenticatedUser.name u)
                     employee (AuthenticatedUser.password u)
                     (Some (Auth.newOtpOf rnd)) (Some now) :: l2).
Proof.
  cbv zeta. fold (usersOf s).
  fold (usersOf (snd (Auth.generateAndStoreOTP now rnd userId s))).
  pose proof (generateAndStoreOTP_cases now rnd userId s) as Hc.
  unfold userWithIdAndRole in Hc.
  destruct (find (Auth.idAndRoleAre userId employee) (usersOf s))
    as [u|] eqn:Ef.
  - destruct Hc as (l1 & l2 & Hl & Hl1 & ->). cbn [fst snd].
    pose proof (find_some _ _ Ef) as (Hin & Hp).
    apply idAndRoleAre_true in Hp as (Hid & Hrole).
    split.
    + split; [intros _; now exists u | reflexivity].
    + intros _. exists l1, u, l2. rewrite usersOf_saved, Hid, Hrole.
      split; [exact Hl|]. do 2 (split; [reflexivity|]).
      split; [|split; reflexivity].
      intros v Hv Hvp. apply idAndRoleAre_true in Hvp.
      rewrite Forall_forall in Hl1. specialize (Hl1 v Hv). congruence.
  - rewrite Hc. cbn [fst snd]. split; [|discriminate].
    split; [discriminate|]. intros (u & Hin & Hid & Hrole).
    pose proof (find_none _ _ Ef u Hin) as Hn.
    assert (Ht : Auth.idAndRoleAre userId employee u = true)
      by now apply idAndRoleAre_true.
    congruence.
Qed.

Lemma generateAndStoreOTP_marks_one_user_witness :
  let s1 := snd (Auth.generateAndStoreOTP 1000 0.25%Q "emp001" fresh) in
  exists l1 u l2,
    fst (Auth.getAllUsers fresh) = l1 ++ u :: l2
    /\ fst (Auth.getAllUsers s1)
       = l1 ++ AuthenticatedUser.mk "emp001" (AuthenticatedUser.name u)
                 employee (AuthenticatedUser.password u)
                 (Some "325000") (Some 1000) :: l2.
Proof.
  cbv zeta.
  destruct (proj2 (generateAndStoreOTP_marks_one_user 1000 0.25%Q "emp001"
                     fresh) eq_refl)
    as (l1 & u & l2 & Hl & _ & _ & _ & _ & Hs1).
  exists l1, u, l2. split; [exact Hl | exact Hs1].
Defined.

(** X11. After a successful [generateAndStoreOTP] at time [now0],
    [verifyOtp] for that id succeeds exactly with the code that was returned
    and up to 300000 ms after [now0]: a code issued earlier no longer
    counts. *)
Theorem generate_then_verify (now0 : Z) (rnd : Q) (userId : string)
  (s : Storage) :
  BasicResponse.success (fst (Auth.generateAndStoreOTP now0 rnd userId s))
  = true ->
  let s1 := snd (Auth.generateAndStoreOTP now0 rnd userId s) in
  BasicResponse.otp (fst (Auth.generateAndStoreOTP now0 rnd userId s))
  = Some (Auth.newOtpOf rnd)
  /\ forall now otp,
       LoginResponse.success (fst (Auth.verifyOtp now userId otp s1)) = true
       <-> otp = Auth.newOtpOf rnd /\ now - now0 <= 300000.
Proof.
  intros Hok. cbv zeta.
  pose proof (generateAndStoreOTP_cases now0 rnd userId s) as Hc.
  unfold userWithIdAndRole in Hc.
  destruct (find (Auth.idAndRoleAre userId employee) (usersOf s))
    as [u|] eqn:Ef; [|rewrite Hc in Hok; discriminate].
  destruct Hc as (l1 & l2 & Hl & Hl1 & Hrun). rewrite Hrun. cbn [fst snd].
  split; [reflexivity|]. intros now otp.
  pose proof (find_some _ _ Ef) as (_ & Hp).
  set (u' := AuthenticatedUser.mk (AuthenticatedUser.id u)
               (AuthenticatedUser.name u) (AuthenticatedUser.role u)
               (AuthenticatedUser.password u) (Some (Auth.newOtpOf rnd))
               (Some now0)).
  set (s1 := mkStorage (rates_file s) (history_file s)
               (Content (l1 ++ u' :: l2))).
  assert (Hfind : userWithIdAndRole userId employee s1 = Some u').
  { unfold userWithIdAndRole, s1. rewrite usersOf_saved.
    apply find_middle; [exact Hl1 | exact Hp]. }
  rewrite verifyOtp_success_found. split.
  - intros (user & stored & created & Hf & Ho & _ & Hcr & Hage & ->).
    rewrite Hfind in Hf. injection Hf as <-.
    cbn [u' AuthenticatedUser.otp AuthenticatedUser.otp_created_at] in Ho, Hcr.
    injection Ho as <-. injection Hcr as <-. now split.
  - intros (-> & Hage).
    exists u', (Auth.newOtpOf rnd), now0.
    repeat split; try assumption. apply toString_not_empty.
Qed.

Lemma generate_then_verify_witness :
  let s1 := snd (Auth.generateAndStoreOTP 1000 0.25%Q "emp001"
                   (snd (Auth.generateAndStoreOTP 10 0.75%Q "emp001" fresh))) in
  LoginResponse.success (fst (Auth.verifyOtp 300999 "emp001" "325000" s1))
  = true
  /\ ~ LoginResponse.success (fst (Auth.verifyOtp 300999 "emp001" "775000" s1))
       = true.
Proof.
  cbv zeta.
  destruct (generate_then_verify 1000 0.25%Q "emp001"
              (snd (Auth.generateAndStoreOTP 10 0.75%Q "emp001" fresh))
              eq_refl) as (_ & Hv).
  split.
  - apply Hv. split; [vm_compute; reflexivity | lia].
  - intros H. apply Hv in H as (H & _). vm_compute in H. discriminate.
Defined.

Lemma find_app_None {A : Type} (p : A -> bool) (l l' : list A) :
  find p l = None -> find p (l ++ l') = find p l'.
Proof.
  induction l as [|x l IH]; cbn [find app]; [reflexivity|].
  destruct (p x); [discriminate | exact IH].
Qed.

Lemma find_same_test {A : Type} (p q : A -> bool) (l : list A) :
  (forall x, p x = q x) -> find p l = find q l.
Proof.
  intros H. induction l as [|x l IH]; cbn [find]; [reflexivity|].
  now rewrite H, IH.
Qed.

Lemma update_found_None {A : Type} (p : A -> bool) (f : A -> A) (l : list A) :
  find p l = None -> update_found p f l = l.
Proof.
  induction l as [|x l IH]; cbn [find update_found]; [reflexivity|].
  destruct (p x); [discriminate|]. intros H. now rewrite IH.
Qed.

(** What [revokeOTP] does, by what the lookup yields. *)
Lemma revokeOTP_cases (userId : string) (s : Storage) :
  match userWithIdAndRole userId employee s with
  | Some u =>
      exists l1 l2,
        usersOf s = l1 ++ u :: l2
        /\ Forall (fun v => Auth.idAndRoleAre userId employee v = false) l1
        /\ Auth.revokeOTP userId s
           = (Auth.basicSuccess
                ("OTP for " ++ AuthenticatedUser.name u
                   ++ " has been revoked.")%string None,
              mkStorage (rates_file s) (history_file s)
                (Content
                   (l1 ++ AuthenticatedUser.mk (AuthenticatedUser.id u)
                            (AuthenticatedUser.name u)
                            (AuthenticatedUser.role u)
                            (AuthenticatedUser.password u) None None :: l2)))
  | None =>
      Auth.revokeOTP userId s
      = (Auth.basicFailure "User not found or not an employee.", usersRead s)
  end.
Proof.
  unfold userWithIdAndRole, Auth.revokeOTP. auth_run.
  destruct (find (Auth.idAndRoleAre userId employee) (usersOf s))
    as [u|] eqn:Ef; [|reflexivity].
  destruct (find_split _ _ _ Ef) as (l1 & l2 & Hl & Hx & Hl1 & Hup).
  exists l1, l2. split; [exact Hl|]. split; [exact Hl1|].
  auth_run. now rewrite Hup.
Qed.

(** What [updateAdminDetails] does, by what the lookup yields. *)
Lemma updateAdminDetails_cases (adminId name : string)
  (newPassword : option string) (s : Storage) :
  match userWithIdAndRole adminId admin s with
  | Some u =>
      exists l1 l2,
        usersOf s = l1 ++ u :: l2
        /\ Forall (fun v => Auth.idAndRoleAre adminId admin v = false) l1
        /\ Auth.updateAdminDetails adminId name newPassword s
           = (Auth.basicSuccess "Admin details updated successfully." None,
              mkStorage (rates_file s) (history_file s)
                (Content
                   (l1 ++ AuthenticatedUser.mk (AuthenticatedUser.id u)
                            (if truthy_string (Some name) then name
                             else AuthenticatedUser.name u)
                            (AuthenticatedUser.role u)
                            (if truthy_string newPassword then newPassword
                             else AuthenticatedUser.password u)
                            (AuthenticatedUser.otp u)
                            (AuthenticatedUser.otp_created_at u) :: l2)))
  | None =>
      Auth.updateAdminDetails adminId name newPassword s
      = (Auth.basicFailure "Admin user not found.", usersRead s)
  end.
Proof.
  unfold userWithIdAndRole, Auth.updateAdminDetails. auth_run.
  destruct (find (Auth.idAndRoleAre adminId admin) (usersOf s))
    as [u|] eqn:Ef; [|reflexivity].
  destruct (find_split _ _ _ Ef) as (l1 & l2 & Hl & Hx & Hl1 & Hup).
  exists l1, l2. split; [exact Hl|]. split; [exact Hl1|].
  auth_run. now rewrite Hup.
Qed.

(** What [addUser] does, by what the lookup yields. *)
Lemma addUser_cases (userId userName passwordProvided : string) (role : Role)
  (s : Storage) :
  match find (Auth.idIsNoCase userId) (usersOf s) with
  | Some _ =>
      Auth.addUser userId userName passwordProvided role s
      = (Auth.basicFailure "User with this ID already exists.", usersRead s)
  | None =>
      Auth.addUser userId userName passwordProvided role s
      = (Auth.basicSuccess
           ("User " ++ userName ++ " added successfully.")%string None,
         mkStorage (rates_file s) (history_file s)
           (Content
              (usersOf s
                 ++ [AuthenticatedUser.mk userId userName role
                       (if Role_eqb role admin then Some passwordProvided
                        else None)
                       None None])))
  end.
Proof.
  unfold Auth.addUser. auth_run.
  destruct (find _ _); auth_run; reflexivity.
Qed.

(** The answer of [loginUser], by the first user with the id. *)
Lemma loginUser_answer (userId : string) (password : option string)
  (s : Storage) :
  fst (Auth.loginUser userId password s)
  = match userWithId userId s with
    | None => Auth.loginFailure "User not found"
    | Some user =>
        match AuthenticatedUser.role user with
        | admin =>
            if String.eqb userId "admin"
            then if opt_string_eqb password (Some "admin")
                 then Auth.loginSuccess user
                 else Auth.loginFailure
                        "Invalid credentials for this admin user."
            else if opt_string_eqb (AuthenticatedUser.password user) password
                 then Auth.loginSuccess user
                 else Auth.loginFailure
                        "Invalid credentials for this admin user."
        | employee =>
            Auth.loginFailure
              "Login method not applicable for this user type here."
        end
    end.
Proof.
  unfold userWithId, Auth.loginUser, bind. rewrite loadUsersFromFile_run.
  destruct (find (Auth.idIs userId) (usersOf s)) as [user|] eqn:Ef;
    [|reflexivity].
  rewrite (find_idIs_id _ _ _ Ef).
  destruct (AuthenticatedUser.role user); cbn [Role_eqb]; [|reflexivity].
  destruct (String.eqb userId "admin"); cbn [andb negb].
  - destruct (opt_string_eqb password (Some "admin")); reflexivity.
  - destruct (opt_string_eqb _ password); reflexivity.
Qed.

(** The answer of [verifyOtp] without a user, and for one without a code. *)
Lemma verifyOtp_answer_without_code (now : Z) (userId otp : string)
  (s : Storage) :
  match userWithIdAndRole userId employee s with
  | None =>
      fst (Auth.verifyOtp now userId otp s) = Auth.loginFailure "User not found"
  | Some user =>
      AuthenticatedUser.otp user = None ->
      fst (Auth.verifyOtp now userId otp s)
      = Auth.loginFailure
          "No active OTP found for this user. Please generate one."
  end.
Proof.
  unfold userWithIdAndRole, Auth.verifyOtp, bind.
  rewrite loadUsersFromFile_run.
  destruct (find _ _) as [user|]; [|reflexivity].
  intros ->. reflexivity.
Qed.

Lemma fetchUserDetails_answer (userId : string) (s : Storage) :
  fst (Auth.fetchUserDetails userId s)
  = match find (Auth.idIsNoCase userId) (usersOf s) with
    | Some user => detailsOf user
    | None => UserDetailsResponse.mk false None (Some "User not found")
    end.
Proof.
  unfold Auth.fetchUserDetails. auth_run.
  destruct (find _ _); reflexivity.
Qed.

Lemma idIsNoCase_same (a b : string) (u : AuthenticatedUser) :
  toLowerCase a = toLowerCase b ->
  Auth.idIsNoCase a u = Auth.idIsNoCase b u.
Proof. unfold Auth.idIsNoCase. now intros ->. Qed.

Lemma idIsNoCase_None_idIs (userId : string)
  (users : list AuthenticatedUser) :
  find (Auth.idIsNoCase userId) users = None ->
  find (Auth.idIs userId) users = None.
Proof.
  induction users as [|u users IH]; cbn [find]; [reflexivity|].
  unfold Auth.idIsNoCase at 1, Auth.idIs at 1.
  destruct (String.eqb_spec (AuthenticatedUser.id u) userId) as [->|_].
  - now rewrite String.eqb_refl.
  - destruct (String.eqb _ _); [discriminate | exact IH].
Qed.

Lemma idIs_None_idAndRoleAre (userId : string) (r : Role)
  (users : list AuthenticatedUser) :
  find (Auth.idIs userId) users = None ->
  find (Auth.idAndRoleAre userId r) users = None.
Proof.
  induction users as [|u users IH]; cbn [find]; [reflexivity|].
  unfold Auth.idIs at 1, Auth.idAndRoleAre at 1.
  destruct (String.eqb _ _); [discriminate | exact IH].
Qed.

(** X12. After a successful [revokeOTP], [verifyOtp] for that id answers
    that no code is active, whatever the code and the time; the call names
    the user in its message and clears code and time of that one user. *)
Theorem revokeOTP_then_verifyOtp (userId : string) (s : Storage) :
  BasicResponse.success (fst (Auth.revokeOTP userId s)) = true ->
  let s1 := snd (Auth.revokeOTP userId s) in
  (forall now otp,
      fst (Auth.verifyOtp now userId otp s1)
      = Auth.loginFailure
          "No active OTP found for this user. Please generate one.")
  /\ exists l1 u l2,
       fst (Auth.getAllUsers s) = l1 ++ u :: l2
       /\ fst (Auth.getAllUsers s1)
          = l1 ++ AuthenticatedUser.mk userId (AuthenticatedUser.name u)
                    employee (AuthenticatedUser.password u) None None :: l2
       /\ BasicResponse.message (fst (Auth.revokeOTP userId s))
          = Some ("OTP for " ++ AuthenticatedUser.name u
                    ++ " has been revoked.")%string.
Proof.
  intros Hok. cbv zeta. fold (usersOf s).
  fold (usersOf (snd (Auth.revokeOTP userId s))).
  pose proof (revokeOTP_cases userId s) as Hc.
  destruct (userWithIdAndRole userId employee s) as [u|] eqn:Ef;
    [|rewrite Hc in Hok; discriminate].
  destruct Hc as (l1 & l2 & Hl & Hl1 & Hrun). rewrite Hrun. cbn [fst snd].
  unfold userWithIdAndRole in Ef.
  pose proof (find_some _ _ Ef) as (_ & Hp).
  pose proof (proj1 (idAndRoleAre_true _ _ _) Hp) as (Hid & Hrole).
  split.
  - intros now otp.
    set (u' := AuthenticatedUser.mk (AuthenticatedUser.id u)
                 (AuthenticatedUser.name u) (AuthenticatedUser.role u)
                 (AuthenticatedUser.password u) None None).
    pose proof (verifyOtp_answer_without_code now userId otp
                  (mkStorage (rates_file s) (history_file s)
                     (Content (l1 ++ u' :: l2)))) as Hv.
    unfold userWithIdAndRole in Hv. rewrite usersOf_saved in Hv.
    rewrite (find_middle _ l1 l2 u' Hl1 Hp) in Hv. now apply Hv.
  - exists l1, u, l2. rewrite usersOf_saved, Hid, Hrole.
    split; [exact Hl|]. split; reflexivity.
Qed.

Lemma revokeOTP_then_verifyOtp_witness :
  fst (Auth.verifyOtp 120000 "emp001" "325000"
         (snd (Auth.revokeOTP "emp001" sampleStorage)))
  = Auth.loginFailure "No active OTP found for this user. Please generate one.".
Proof.
  exact (proj1 (revokeOTP_then_verifyOtp "emp001" sampleStorage eq_refl)
           120000 "325000").
Defined.

(** X13. [verifyOtp] does not use the code up: after a success the users
    are as before, and the same code is accepted again at every time up to
    300000 ms after the code was made, with the same answer. *)
Theorem verifyOtp_keeps_the_code (now : Z) (userId otp : string)
  (s : Storage) :
  LoginResponse.success (fst (Auth.verifyOtp now userId otp s)) = true ->
  let s1 := snd (Auth.verifyOtp now userId otp s) in
  fst (Auth.getAllUsers s1) = fst (Auth.getAllUsers s)
  /\ exists created,
       now - created <= 300000
       /\ forall later,
            (LoginResponse.success (fst (Auth.verifyOtp later userId otp s1))
             = true <-> later - created <= 300000)
            /\ (later - created <= 300000 ->
                fst (Auth.verifyOtp later userId otp s1)
                = fst (Auth.verifyOtp now userId otp s)).
Proof.
  intros Hok. cbv zeta. rewrite verifyOtp_run.
  fold (usersOf (usersRead s)). fold (usersOf s).
  split; [apply usersOf_usersRead|].
  apply verifyOtp_success_found in Hok
    as (user & stored & created & Hf & Ho & Hne & Hc & Hage & ->).
  exists created. split; [exact Hage|]. intros later.
  rewrite (verifyOtp_same_users later userId stored (usersRead s) s
             (usersOf_usersRead s)).
  rewrite !(verifyOtp_on_record _ userId stored s user stored created)
    by assumption.
  rewrite String.eqb_refl.
  destruct (Z.gtb_spec (now - created) 300000) as [Hgt|_]; [lia|].
  destruct (Z.gtb_spec (later - created) 300000) as [Hgt|Hle]; cbn.
  - split; [split; [discriminate | lia] | lia].
  - split; [split; [intros _; exact Hle | reflexivity] | reflexivity].
Qed.

Lemma verifyOtp_keeps_the_code_witness :
  LoginResponse.success
    (fst (Auth.verifyOtp 120000 "emp001" "325000"
            (snd (Auth.verifyOtp 120000 "emp001" "325000" sampleStorage))))
  = true.
Proof.
  destruct (verifyOtp_keeps_the_code 120000 "emp001" "325000" sampleStorage
              eq_refl) as (_ & created & Hage & H).
  apply (proj1 (H 120000)). exact Hage.
Defined.

Lemma addUser_success_new (userId userName passwordProvided : string)
  (role : Role) (s : Storage) :
  BasicResponse.success
    (fst (Auth.addUser userId userName passwordProvided role s)) = true ->
  find (Auth.idIsNoCase userId) (usersOf s) = None
  /\ snd (Auth.addUser userId userName passwordProvided role s)
     = mkStorage (rates_file s) (history_file s)
         (Content
            (usersOf s
               ++ [AuthenticatedUser.mk userId userName role
                     (if Role_eqb role admin then Some passwordProvided
                      else None)
                     None None])).
Proof.
  pose proof (addUser_cases userId userName passwordProvided role s) as Hc.
  destruct (find _ _); rewrite Hc; cbn [fst snd]; [discriminate|].
  intros _. split; reflexivity.
Qed.

(** X14. Over users whose ids are ASCII text, and for an id of ASCII text:
    after a successful [addUser], the user stands last in the list, with the
    password only when the role is [admin]; [fetchUserDetails] finds it
    under its id with the letters A to Z in any mix of upper and lower case,
    and found nobody under these before. *)
Theorem addUser_then_fetchUserDetails
  (userId userName passwordProvided : string) (role : Role) (s : Storage) :
  asciiIds (usersOf s) = true ->
  asciiOnly userId = true ->
  BasicResponse.success
    (fst (Auth.addUser userId userName passwordProvided role s)) = true ->
  let s1 := snd (Auth.addUser userId userName passwordProvided role s) in
  fst (Auth.getAllUsers s1)
  = fst (Auth.getAllUsers s)
      ++ [AuthenticatedUser.mk userId userName role
            (match role with
             | admin => Some passwordProvided
             | employee => None
             end) None None]
  /\ forall asked,
       asciiOnly asked = true ->
       toLowerCase asked = toLowerCase userId ->
       UserDetailsResponse.success (fst (Auth.fetchUserDetails asked s))
       = false
       /\ fst (Auth.fetchUserDetails asked s1)
          = UserDetailsResponse.mk true (Some (userId, userName, role)) None.
Proof.
  intros _ _ Hok. cbv zeta.
  destruct (addUser_success_new _ _ _ _ _ Hok) as (Hnone & ->).
  fold (usersOf s).
  fold (usersOf (mkStorage (rates_file s) (history_file s)
    (Content
       (usersOf s
          ++ [AuthenticatedUser.mk userId userName role
                (if Role_eqb role admin then Some passwordProvided else None)
                None None])))).
  rewrite usersOf_saved. split; [now destruct role|].
  intros asked _ Hlow. rewrite !fetchUserDetails_answer, usersOf_saved.
  assert (Hasked : find (Auth.idIsNoCase asked) (usersOf s) = None).
  { rewrite <- Hnone. apply find_same_test. intros u.
    now apply idIsNoCase_same. }
  rewrite Hasked, (find_app_None _ _ _ Hasked). cbn [find].
  unfold Auth.idIsNoCase. cbn [AuthenticatedUser.id].
  rewrite Hlow, String.eqb_refl. split; reflexivity.
Qed.

Lemma addUser_then_fetchUserDetails_witness :
  fst (Auth.fetchUserDetails "EMP002"
         (snd (Auth.addUser "Emp002" "Carol" "pw" employee fresh)))
  = UserDetailsResponse.mk true (Some ("Emp002", "Carol", employee)) None.
Proof.
  exact (proj2 (proj2 (addUser_then_fetchUserDetails "Emp002" "Carol" "pw"
                         employee fresh eq_refl eq_refl eq_refl)
                  "EMP002" eq_refl eq_refl)).
Defined.

(** X15. After a successful [addUser]: an added admin logs in with exactly
    the password given to [addUser], unless the id is ["admin"], for which
    [loginUser] takes ["admin"] alone; an added employee is sent away by
    [loginUser] and has no code for [verifyOtp] yet. *)
Theorem addUser_then_login (userId userName passwordProvided : string)
  (role : Role) (s : Storage) :
  BasicResponse.success
    (fst (Auth.addUser userId userName passwordProvided role s)) = true ->
  let s1 := snd (Auth.addUser userId userName passwordProvided role s) in
  match role with
  | admin =>
      forall password,
        LoginResponse.success (fst (Auth.loginUser userId password s1)) = true
        <-> password = Some (if String.eqb userId "admin" then "admin"
                             else passwordProvided)
  | employee =>
      (forall password,
          fst (Auth.loginUser userId password s1)
          = Auth.loginFailure
              "Login method not applicable for this user type here.")
      /\ forall now otp,
           fst (Auth.verifyOtp now userId otp s1)
           = Auth.loginFailure
               "No active OTP found for this user. Please generate one."
  end.
Proof.
  intros Hok. cbv zeta.
  destruct (addUser_success_new _ _ _ _ _ Hok) as (Hnone & ->).
  pose proof (idIsNoCase_None_idIs _ _ Hnone) as Hid.
  set (new := AuthenticatedUser.mk userId userName role
                (if Role_eqb role admin then Some passwordProvided else None)
                None None).
  set (s1 := mkStorage (rates_file s) (history_file s)
               (Content (usersOf s ++ [new]))).
  assert (Hfind : userWithId userId s1 = Some new).
  { unfold userWithId, s1. rewrite usersOf_saved, (find_app_None _ _ _ Hid).
    cbn [find]. unfold Auth.idIs. cbn [new AuthenticatedUser.id].
    now rewrite String.eqb_refl. }
  destruct role.
  - intros password. rewrite loginUser_answer, Hfind.
    cbn [new AuthenticatedUser.role AuthenticatedUser.password Role_eqb].
    destruct (String.eqb userId "admin").
    + destruct (opt_string_eqb password (Some "admin")) eqn:E; cbn.
      * apply opt_string_eqb_eq in E. now split.
      * split; [discriminate|]. intros Hp.
        apply opt_string_eqb_eq in Hp. congruence.
    + destruct (opt_string_eqb (Some passwordProvided) password) eqn:E; cbn.
      * apply opt_string_eqb_eq in E. now split.
      * split; [discriminate|]. intros Hp. symmetry in Hp.
        apply opt_string_eqb_eq in Hp. congruence.
  - split.
    + intros password. now rewrite loginUser_answer, Hfind.
    + intros now otp.
      pose proof (verifyOtp_answer_without_code now userId otp s1) as Hv.
      assert (Hf : userWithIdAndRole userId employee s1 = Some new).
      { unfold userWithIdAndRole, s1.
        rewrite usersOf_saved,
          (find_app_None _ _ _ (idIs_None_idAndRoleAre _ employee _ Hid)).
        cbn [find]. unfold Auth.idAndRoleAre.
        cbn [new AuthenticatedUser.id AuthenticatedUser.role Role_eqb].
        now rewrite String.eqb_refl. }
      rewrite Hf in Hv. now apply Hv.
Qed.

Lemma addUser_then_login_witness :
  LoginResponse.success
    (fst (Auth.loginUser "adm002" (Some "pw")
            (snd (Auth.addUser "adm002" "Dan" "pw" admin fresh)))) = true.
Proof.
  apply (addUser_then_login "adm002" "Dan" "pw" admin fresh eq_refl).
  reflexivity.
Defined.

Lemma deleteUser_success_gone (userId : string) (s : Storage) :
  BasicResponse.success (fst (Auth.deleteUser userId s)) = true ->
  snd (Auth.deleteUser userId s)
  = mkStorage (rates_file s) (history_file s)
      (Content (filter (fun u => negb (Auth.idIs userId u)) (usersOf s)))
  /\ find (Auth.idIs userId)
       (filter (fun u => negb (Auth.idIs userId u)) (usersOf s)) = None
  /\ exists x, In x (usersOf s) /\ AuthenticatedUser.id x = userId.
Proof.
  rewrite deleteUser_run.
  destruct (orb _ _); [discriminate|].
  destruct (Nat.ltb _ _) eqn:E; [|discriminate].
  intros _. split; [reflexivity|]. split.
  - destruct (find _ _) as [u|] eqn:Ef; [|reflexivity].
    apply find_some in Ef as (Hin & Hp).
    apply filter_In in Hin as (_ & Hn). rewrite Hp in Hn. discriminate.
  - apply Nat.ltb_lt, filter_length_lt in E as (x & Hin & Hp).
    exists x. split; [exact Hin|].
    apply negb_false_iff in Hp. now apply String.eqb_eq in Hp.
Qed.

(** X16. After a successful [deleteUser], every call that looks a user up
    by the exact id answers that there is none, and leaves the storage as
    it is. *)
Theorem deleteUser_then_unknown (userId : string) (s : Storage) :
  BasicResponse.success (fst (Auth.deleteUser userId s)) = true ->
  let s1 := snd (Auth.deleteUser userId s) in
  (forall password,
      Auth.loginUser userId password s1
      = (Auth.loginFailure "User not found", s1))
  /\ (forall now otp,
         Auth.verifyOtp now userId otp s1
         = (Auth.loginFailure "User not found", s1))
  /\ (forall now rnd,
         Auth.generateAndStoreOTP now rnd userId s1
         = (Auth.basicFailure
              "Failed to generate OTP. User not found or not an employee.",
            s1))
  /\ Auth.revokeOTP userId s1
     = (Auth.basicFailure "User not found or not an employee.", s1)
  /\ forall name newPassword,
       Auth.updateAdminDetails userId name newPassword s1
       = (Auth.basicFailure "Admin user not found.", s1).
Proof.
  intros Hok. cbv zeta.
  destruct (deleteUser_success_gone _ _ Hok) as (-> & Hnone & _).
  set (s1 := mkStorage (rates_file s) (history_file s)
               (Content (filter (fun u => negb (Auth.idIs userId u))
                           (usersOf s)))).
  assert (Hread : usersRead s1 = s1) by reflexivity.
  assert (Hid : userWithId userId s1 = None)
    by (unfold userWithId, s1; now rewrite usersOf_saved).
  assert (Hrole : forall r, userWithIdAndRole userId r s1 = None).
  { intros r. unfold userWithIdAndRole, s1. rewrite usersOf_saved.
    now apply idIs_None_idAndRoleAre. }
  repeat split.
  - intros password. apply injective_projections; cbn [fst snd].
    + now rewrite loginUser_answer, Hid.
    + now rewrite loginUser_run.
  - intros now otp. apply injective_projections; cbn [fst snd].
    + pose proof (verifyOtp_answer_without_code now userId otp s1) as Hv.
      now rewrite Hrole in Hv.
    + now rewrite verifyOtp_run.
  - intros now rnd.
    pose proof (generateAndStoreOTP_cases now rnd userId s1) as Hg.
    now rewrite Hrole, Hread in Hg.
  - pose proof (revokeOTP_cases userId s1) as Hr.
    now rewrite Hrole, Hread in Hr.
  - intros name newPassword.
    pose proof (updateAdminDetails_cases userId name newPassword s1) as Hu.
    now rewrite Hrole, Hread in Hu.
Qed.

Lemma deleteUser_then_unknown_witness :
  Auth.loginUser "boss" (Some "s3cret")
    (snd (Auth.deleteUser "boss" sampleStorage))
  = (Auth.loginFailure "User not found",
     snd (Auth.deleteUser "boss" sampleStorage)).
Proof.
  exact (proj1 (deleteUser_then_unknown "boss" sampleStorage eq_refl)
           (Some "s3cret")).
Defined.

(** X17. In a state reached from a new data directory whose users have ids
    of ASCII text, a successful [deleteUser] frees the id:
    [fetchUserDetails] no longer finds it, with the letters A to Z in
    whatever case, and [addUser] with it succeeds. *)
Theorem deleteUser_frees_the_id (userId : string) (s : Storage) :
  reachable s ->
  asciiIds (usersOf s) = true ->
  BasicResponse.success (fst (Auth.deleteUser userId s)) = true ->
  let s1 := snd (Auth.deleteUser userId s) in
  forall asked,
    asciiOnly asked = true ->
    toLowerCase asked = toLowerCase userId ->
    fst (Auth.fetchUserDetails asked s1)
    = UserDetailsResponse.mk false None (Some "User not found")
    /\ forall userName passwordProvided role,
         BasicResponse.success
           (fst (Auth.addUser asked userName passwordProvided role s1))
         = true.
Proof.
  intros Hreach _ Hok. cbv zeta.
  destruct (reachable_usersInv s Hreach) as (Hnd & _ & _).
  destruct (deleteUser_success_gone _ _ Hok) as (-> & _ & (x & Hx & Hxid)).
  intros asked _ Hlow.
  assert (Hnone : find (Auth.idIsNoCase asked)
                    (filter (fun u => negb (Auth.idIs userId u)) (usersOf s))
                  = None).
  { destruct (find _ _) as [u|] eqn:Ef; [|reflexivity]. exfalso.
    apply find_some in Ef as (Hin & Hp).
    apply filter_In in Hin as (Hin & Hn).
    unfold Auth.idIsNoCase in Hp. apply String.eqb_eq in Hp.
    apply negb_true_iff, String.eqb_neq in Hn. apply Hn.
    rewrite <- Hxid. f_equal.
    apply (NoDup_map_inj (fun u => toLowerCase (AuthenticatedUser.id u))
             (usersOf s)); try assumption.
    cbn beta. rewrite Hp, Hlow. now rewrite Hxid. }
  split.
  - now rewrite fetchUserDetails_answer, usersOf_saved, Hnone.
  - intros userName passwordProvided role.
    pose proof (addUser_cases asked userName passwordProvided role
                  (mkStorage (rates_file s) (history_file s)
                     (Content (filter (fun u => negb (Auth.idIs userId u))
                                 (usersOf s))))) as Hc.
    rewrite usersOf_saved, Hnone in Hc. now rewrite Hc.
Qed.

Lemma deleteUser_frees_the_id_witness :
  BasicResponse.success
    (fst (Auth.addUser "EMP001" "Eve" "pw" admin
            (snd (Auth.deleteUser "emp001" fresh)))) = true.
Proof.
  exact (proj2 (deleteUser_frees_the_id "emp001" fresh reachable_fresh
                  eq_refl eq_refl "EMP001" eq_refl eq_refl)
           "Eve" "pw" admin).
Defined.

Lemma NoDup_ids_before (users : list AuthenticatedUser)
  (l1 l2 : list AuthenticatedUser) (u : AuthenticatedUser) :
  NoDup (map AuthenticatedUser.id users) ->
  users = l1 ++ u :: l2 ->
  Forall (fun v => Auth.idIs (AuthenticatedUser.id u) v = false) l1.
Proof.
  intros Hnd ->. apply Forall_forall. intros v Hv.
  unfold Auth.idIs. apply String.eqb_neq. intros Heq.
  rewrite map_app in Hnd. cbn [map] in Hnd.
  apply NoDup_remove_2 in Hnd. apply Hnd, in_or_app. left.
  rewrite <- Heq. now apply in_map.
Qed.

(** X18. [updateAdminDetails] succeeds exactly when a user has the id and
    the role [admin]; it changes that one user, and there only the name
    and the password: an empty name leaves the name, an empty or absent
    password leaves the password. *)
Theorem updateAdminDetails_changes_one_admin (adminId name : string)
  (newPassword : option string) (s : Storage) :
  let r := fst (Auth.updateAdminDetails adminId name newPassword s) in
  let s1 := snd (Auth.updateAdminDetails adminId name newPassword s) in
  (BasicResponse.success r = true
   <-> exists u, In u (fst (Auth.getAllUsers s))
                 /\ AuthenticatedUser.id u = adminId
                 /\ AuthenticatedUser.role u = admin)
  /\ (BasicResponse.success r = true ->
      exists l1 u l2,
        fst (Auth.getAllUsers s) = l1 ++ u :: l2
        /\ AuthenticatedUser.id u = adminId
        /\ AuthenticatedUser.role u = admin
        /\ fst (Auth.getAllUsers s1)
           = l1 ++ AuthenticatedUser.mk adminId
                     (if String.eqb name "" then AuthenticatedUser.name u
                      else name)
                     admin
                     (match newPassword with
                      | Some p => if String.eqb p ""
                                  then AuthenticatedUser.password u
                                  else Some p
                      | None => AuthenticatedUser.password u
                      end)
                     (AuthenticatedUser.otp u)
                     (AuthenticatedUser.otp_created_at u) :: l2).
Proof.
  cbv zeta. fold (usersOf s).
  fold (usersOf (snd (Auth.updateAdminDetails adminId name newPassword s))).
  pose proof (updateAdminDetails_cases adminId name newPassword s) as Hc.
  unfold userWithIdAndRole in Hc.
  destruct (find (Auth.idAndRoleAre adminId admin) (usersOf s))
    as [u|] eqn:Ef.
  - destruct Hc as (l1 & l2 & Hl & Hl1 & ->). cbn [fst snd].
    pose proof (find_some _ _ Ef) as (Hin & Hp).
    apply idAndRoleAre_true in Hp as (Hid & Hrole).
    split.
    + split; [intros _; now exists u | reflexivity].
    + intros _. exists l1, u, l2. rewrite usersOf_saved, Hid, Hrole.
      split; [exact Hl|]. do 2 (split; [reflexivity|]).
      cbn [truthy_string].
      destruct (String.eqb name ""); cbn [negb];
        destruct newPassword as [p|]; cbn [truthy_string];
        try destruct (String.eqb p ""); reflexivity.
  - rewrite Hc. cbn [fst snd]. split; [|discriminate].
    split; [discriminate|]. intros (u & Hin & Hid & Hrole).
    pose proof (find_none _ _ Ef u Hin) as Hn.
    assert (Ht : Auth.idAndRoleAre adminId admin u = true)
      by now apply idAndRoleAre_true.
    congruence.
Qed.

Lemma updateAdminDetails_changes_one_admin_witness :
  exists l1 u l2,
    fst (Auth.getAllUsers sampleStorage) = l1 ++ u :: l2
    /\ fst (Auth.getAllUsers
              (snd (Auth.updateAdminDetails "boss" "" (Some "") sampleStorage)))
       = l1 ++ AuthenticatedUser.mk "boss" (AuthenticatedUser.name u) admin
                 (AuthenticatedUser.password u) (AuthenticatedUser.otp u)
                 (AuthenticatedUser.otp_created_at u) :: l2.
Proof.
  destruct (proj2 (updateAdminDetails_changes_one_admin "boss" "" (Some "")
                     sampleStorage) eq_refl)
    as (l1 & u & l2 & Hl & _ & _ & Hs1).
  exists l1, u, l2. split; [exact Hl | exact Hs1].
Defined.

(** X19. In a state reached from a new data directory, after a successful
    [updateAdminDetails]: the user ["admin"] still logs in with ["admin"]
    and nothing else, whatever password was set; any other admin logs in
    with exactly the new password when one was given and not empty, and
    with what was accepted before otherwise. *)
Theorem updateAdminDetails_then_login (adminId name : string)
  (newPassword : option string) (s : Storage) :
  reachable s ->
  BasicResponse.success
    (fst (Auth.updateAdminDetails adminId name newPassword s)) = true ->
  let s1 := snd (Auth.updateAdminDetails adminId name newPassword s) in
  forall password,
    LoginResponse.success (fst (Auth.loginUser adminId password s1)) = true
    <-> if String.eqb adminId "admin" then password = Some "admin"
        else if truthy_string newPassword then password = newPassword
        else LoginResponse.success (fst (Auth.loginUser adminId password s))
             = true.
Proof.
  intros Hreach Hok. cbv zeta.
  pose proof (usersInv_ids_unique _ (reachable_usersInv s Hreach)) as Hnd.
  pose proof (updateAdminDetails_cases adminId name newPassword s) as Hc.
  destruct (userWithIdAndRole adminId admin s) as [u|] eqn:Ef;
    [|rewrite Hc in Hok; discriminate].
  destruct Hc as (l1 & l2 & Hl & _ & ->). cbn [snd].
  unfold userWithIdAndRole in Ef.
  pose proof (find_some _ _ Ef) as (_ & Hp).
  apply idAndRoleAre_true in Hp as (Hid & Hrole).
  pose proof (NoDup_ids_before _ l1 l2 u Hnd Hl) as Hl1. rewrite Hid in Hl1.
  assert (Hu : Auth.idIs adminId u = true)
    by (unfold Auth.idIs; rewrite Hid; apply String.eqb_refl).
  set (u' := AuthenticatedUser.mk _ _ _ _ _ _).
  assert (Hbefore : userWithId adminId s = Some u).
  { unfold userWithId. rewrite Hl. now apply find_middle. }
  assert (Hafter : userWithId adminId
                     (mkStorage (rates_file s) (history_file s)
                        (Content (l1 ++ u' :: l2))) = Some u').
  { unfold userWithId. rewrite usersOf_saved. now apply find_middle. }
  intros password. rewrite !loginUser_answer, Hbefore, Hafter.
  cbn [u' AuthenticatedUser.role AuthenticatedUser.password].
  rewrite Hrole.
  destruct (String.eqb adminId "admin").
  - destruct (opt_string_eqb password (Some "admin")) eqn:E; cbn.
    + apply opt_string_eqb_eq in E. now split.
    + split; [discriminate|]. intros Hpw.
      apply opt_string_eqb_eq in Hpw. congruence.
  - destruct (truthy_string newPassword);
      [|destruct (opt_string_eqb _ password); reflexivity].
    destruct (opt_string_eqb newPassword password) eqn:E; cbn.
    + apply opt_string_eqb_eq in E. now split.
    + split; [discriminate|]. intros Hpw. symmetry in Hpw.
      apply opt_string_eqb_eq in Hpw. congruence.
Qed.

Lemma updateAdminDetails_then_login_witness :
  ~ LoginResponse.success
      (fst (Auth.loginUser "admin" (Some "hunter2")
              (snd (Auth.updateAdminDetails "admin" "Root" (Some "hunter2")
                      fresh)))) = true.
Proof.
  intros H.
  apply (updateAdminDetails_then_login "admin" "Root" (Some "hunter2") fresh
           reachable_fresh eq_refl) in H.
  discriminate.
Defined.

(** X20. In a state reached from a new data directory whose users have ids
    of ASCII text, the user [fetchUserDetails] reports for an id of ASCII
    text is the one user with that id up to the case of the letters A to Z;
    [loginUser] and [verifyOtp] want the id as stored: under the id as
    asked, when it differs, they find no user, and under the reported id,
    when they succeed, they return that same user. *)
Theorem fetchUserDetails_reports_the_stored_id (asked i n : string)
  (r : Role) (s : Storage) :
  reachable s ->
  asciiIds (usersOf s) = true ->
  asciiOnly asked = true ->
  UserDetailsResponse.user (fst (Auth.fetchUserDetails asked s))
  = Some (i, n, r) ->
  toLowerCase i = toLowerCase asked
  /\ (i <> asked ->
      forall password now otp,
        fst (Auth.loginUser asked password s)
        = Auth.loginFailure "User not found"
        /\ fst (Auth.verifyOtp now asked otp s)
           = Auth.loginFailure "User not found")
  /\ forall password now otp u,
       LoginResponse.user (fst (Auth.loginUser i password s)) = Some u
       \/ LoginResponse.user (fst (Auth.verifyOtp now i otp s)) = Some u ->
       u = AuthenticatedUser.mk i n r None None None.
Proof.
  intros Hreach _ _ Hfetch.
  pose proof (reachable_usersInv s Hreach) as Hinv.
  pose proof (usersInv_ids_unique _ Hinv) as Hnd.
  destruct Hinv as (Hlow & _ & _).
  rewrite fetchUserDetails_answer in Hfetch.
  destruct (find (Auth.idIsNoCase asked) (usersOf s)) as [x|] eqn:Ef;
    [|discriminate].
  cbn [detailsOf UserDetailsResponse.user] in Hfetch.
  injection Hfetch as <- <- <-.
  apply find_some in Ef as (Hx & Hp).
  unfold Auth.idIsNoCase in Hp. apply String.eqb_eq in Hp.
  split; [exact Hp|]. split.
  - intros Hne password now otp.
    assert (Hnone : userWithId asked s = None).
    { unfold userWithId.
      destruct (find (Auth.idIs asked) (usersOf s)) as [y|] eqn:Ey;
        [|reflexivity].
      exfalso. apply Hne.
      pose proof (find_idIs_id _ _ _ Ey) as Hy.
      apply find_some in Ey as (Hyin & _). rewrite <- Hy. f_equal.
      apply (NoDup_map_inj (fun u => toLowerCase (AuthenticatedUser.id u))
               (usersOf s)); try assumption.
      cbn beta. now rewrite Hp, Hy. }
    split; [now rewrite loginUser_answer, Hnone|].
    pose proof (verifyOtp_answer_without_code now asked otp s) as Hv.
    unfold userWithIdAndRole in Hv. unfold userWithId in Hnone.
    now rewrite (idIs_None_idAndRoleAre _ employee _ Hnone) in Hv.
  - intros password now otp u [Hu|Hu].
    + rewrite loginUser_answer in Hu.
      destruct (userWithId (AuthenticatedUser.id x) s) as [y|] eqn:Ey;
        [|discriminate].
      unfold userWithId in Ey.
      pose proof (find_idIs_id _ _ _ Ey) as Hy.
      apply find_some in Ey as (Hyin & _).
      assert (y = x) as ->
        by (apply (NoDup_map_inj AuthenticatedUser.id (usersOf s));
            assumption).
      destruct (AuthenticatedUser.role x) eqn:Er; [|discriminate].
      destruct (String.eqb _ "admin"), (opt_string_eqb _ _);
        cbn in Hu; try discriminate; injection Hu as <-;
        unfold Auth.publicUser; now rewrite Er.
    + destruct (LoginResponse.success
                  (fst (Auth.verifyOtp now (AuthenticatedUser.id x) otp s)))
        eqn:Es.
      * apply verifyOtp_success_found in Es
          as (y & stored & created & Hf & Ho & Hne & Hc & Hage & ->).
        rewrite (verifyOtp_on_record _ _ _ _ y stored created) in Hu
          by assumption.
        destruct (Z.gtb_spec (now - created) 300000) as [Hgt|_]; [lia|].
        rewrite String.eqb_refl in Hu. injection Hu as <-.
        unfold userWithIdAndRole in Hf.
        apply find_some in Hf as (Hyin & Hyp).
        apply idAndRoleAre_true in Hyp as (Hy & _).
        assert (y = x) as ->
          by (apply (NoDup_map_inj AuthenticatedUser.id (usersOf s));
              assumption).
        reflexivity.
      * exfalso. revert Es Hu.
        unfold Auth.verifyOtp, bind. rewrite loadUsersFromFile_run.
        destruct (find _ _) as [y|]; [|discriminate].
        destruct (orb _ _); [discriminate|].
        destruct (AuthenticatedUser.otp_created_at y); [|discriminate].
        destruct (_ >? _); [discriminate|].
        destruct (opt_string_eqb _ _); discriminate.
Qed.

Lemma fetchUserDetails_reports_the_stored_id_witness :
  fst (Auth.loginUser "ADMIN" (Some "admin") fresh)
  = Auth.loginFailure "User not found".
Proof.
  destruct (fetchUserDetails_reports_the_stored_id "ADMIN" "admin"
              "Administrator" admin fresh reachable_fresh eq_refl eq_refl
              eq_refl)
    as (_ & H & _).
  assert (Hne : "admin" <> "ADMIN") by discriminate.
  exact (proj1 (H Hne (Some "admin") 0 "")).
Defined.

Lemma find_replace {A : Type} (p : A -> bool) (l1 l2 : list A) (x x' a : A) :
  p x' = p x ->
  find p (l1 ++ x :: l2) = Some a ->
  exists a', find p (l1 ++ x' :: l2) = Some a' /\ (a' = a \/ a = x /\ a' = x').
Proof.
  intros Hp. induction l1 as [|y l1 IH]; cbn [app find].
  - rewrite Hp. destruct (p x).
    + intros [= <-]. exists x'. split; [reflexivity | now right].
    + intros H. exists a. split; [exact H | now left].
  - destruct (p y); [|exact IH].
    intros H. exists a. split; [exact H | now left].
Qed.

Lemma rolesInv_replace (l1 l2 : list AuthenticatedUser)
  (u u' : AuthenticatedUser) :
  AuthenticatedUser.id u' = AuthenticatedUser.id u ->
  AuthenticatedUser.role u' = AuthenticatedUser.role u ->
  secretsFitRole u' ->
  Forall secretsFitRole (l1 ++ u :: l2) /\ defaultEmployeeKept (l1 ++ u :: l2) ->
  Forall secretsFitRole (l1 ++ u' :: l2)
  /\ defaultEmployeeKept (l1 ++ u' :: l2).
Proof.
  intros Hid Hrole Hfit (Hall & (e & He & Her)). split.
  - apply Forall_app in Hall as (H1 & H2).
    apply Forall_app. split; [exact H1|].
    inversion H2; subst. now constructor.
  - destruct (find_replace (Auth.idIs "employee") l1 l2 u u' e)
      as (e' & He' & [->|(-> & ->)]); try assumption.
    + unfold Auth.idIs. now rewrite Hid.
    + now exists e.
    + exists u'. split; [exact He' | congruence].
Qed.

Lemma rolesInv_preserved (boot : Z) (c : Call) (s : Storage) :
  Forall secretsFitRole (usersOf s) /\ defaultEmployeeKept (usersOf s) ->
  Forall secretsFitRole (usersOf (storageAfter boot c s))
  /\ defaultEmployeeKept (usersOf (storageAfter boot c s)).
Proof.
  intros Hinv.
  destruct (db_calls_keep_users_file boot s) as (Hget & Hupd & Hhist).
  destruct c; cbn [storageAfter].
  - now rewrite (usersOf_same_file _ s Hget).
  - now rewrite (usersOf_same_file _ s (Hupd _ _ _ _)).
  - now rewrite (usersOf_same_file _ s (Hhist _)).
  - now rewrite fetchUserDetails_run, usersOf_usersRead.
  - now rewrite loginUser_run, usersOf_usersRead.
  - pose proof (generateAndStoreOTP_cases now rnd userId s) as Hc.
    unfold userWithIdAndRole in Hc.
    destruct (find _ _) as [u|] eqn:Ef.
    + destruct Hc as (l1 & l2 & Hl & _ & ->). cbn [snd].
      rewrite usersOf_saved. rewrite Hl in Hinv.
      apply find_some in Ef as (Hin & Hp).
      apply idAndRoleAre_true in Hp as (_ & Hrole).
      apply (rolesInv_replace l1 l2 u); try reflexivity; [|exact Hinv].
      destruct Hinv as (Hall & _). apply Forall_app in Hall as (_ & H2).
      inversion H2 as [|? ? Hu _]; subst.
      unfold secretsFitRole in *. cbn [AuthenticatedUser.role
        AuthenticatedUser.password]. now rewrite Hrole in *.
    + rewrite Hc. cbn [snd]. now rewrite usersOf_usersRead.
  - now rewrite verifyOtp_run, usersOf_usersRead.
  - pose proof (addUser_cases userId userName passwordProvided role s) as Hc.
    destruct (find _ _); rewrite Hc; cbn [snd];
      [now rewrite usersOf_usersRead|].
    rewrite usersOf_saved. destruct Hinv as (Hall & (e & He & Her)). split.
    + apply Forall_app. split; [exact Hall|]. constructor; [|constructor].
      unfold secretsFitRole. destruct role; cbn; [split|]; reflexivity.
    + exists e. split; [now apply find_app_Some | exact Her].
  - rewrite deleteUser_users.
    destruct (String.eqb userIdToDelete "admin"); cbn [orb]; [exact Hinv|].
    destruct (String.eqb_spec userIdToDelete "employee") as [->|Hne];
      [exact Hinv|].
    destruct Hinv as (Hall & (e & He & Her)). split.
    + apply Forall_forall. intros u Hin. apply filter_In in Hin as (Hin & _).
      rewrite Forall_forall in Hall. now apply Hall.
    + exists e. split; [|exact Her]. rewrite find_filter; [exact He|].
      intros u Hu. unfold Auth.idIs in *. apply String.eqb_eq in Hu.
      apply negb_true_iff, String.eqb_neq. congruence.
  - pose proof (updateAdminDetails_cases adminId name newPassword s) as Hc.
    unfold userWithIdAndRole in Hc.
    destruct (find _ _) as [u|] eqn:Ef.
    + destruct Hc as (l1 & l2 & Hl & _ & ->). cbn [snd].
      rewrite usersOf_saved. rewrite Hl in Hinv.
      apply find_some in Ef as (Hin & Hp).
      apply idAndRoleAre_true in Hp as (_ & Hrole).
      apply (rolesInv_replace l1 l2 u); try reflexivity; [|exact Hinv].
      destruct Hinv as (Hall & _). apply Forall_app in Hall as (_ & H2).
      inversion H2 as [|? ? Hu _]; subst.
      unfold secretsFitRole in *. cbn [AuthenticatedUser.role
        AuthenticatedUser.otp AuthenticatedUser.otp_created_at].
      now rewrite Hrole in *.
    + rewrite Hc. cbn [snd]. now rewrite usersOf_usersRead.
  - change (Auth.getAllUsers s) with (Auth.loadUsersFromFile s).
    rewrite loadUsersFromFile_run. cbn [snd]. now rewrite usersOf_usersRead.
  - pose proof (revokeOTP_cases userId s) as Hc.
    unfold userWithIdAndRole in Hc.
    destruct (find _ _) as [u|] eqn:Ef.
    + destruct Hc as (l1 & l2 & Hl & _ & ->). cbn [snd].
      rewrite usersOf_saved. rewrite Hl in Hinv.
      apply find_some in Ef as (Hin & Hp).
      apply idAndRoleAre_true in Hp as (_ & Hrole).
      apply (rolesInv_replace l1 l2 u); try reflexivity; [|exact Hinv].
      destruct Hinv as (Hall & _). apply Forall_app in Hall as (_ & H2).
      inversion H2 as [|? ? Hu _]; subst.
      unfold secretsFitRole in *. cbn [AuthenticatedUser.role
        AuthenticatedUser.password]. now rewrite Hrole in *.
    + rewrite Hc. cbn [snd]. now rewrite usersOf_usersRead.
Qed.

(** X21. In every state reached from a new data directory, no employee has
    a password and no admin has a code or its time on record, and the user
    ["employee"] is there with the role [employee]: no call changes a role,
    [addUser] gives a password to admins only, and the codes go to
    employees only. *)
Theorem reachable_roles_keep_their_secrets (s : Storage) :
  reachable s ->
  Forall secretsFitRole (fst (Auth.getAllUsers s))
  /\ defaultEmployeeKept (fst (Auth.getAllUsers s)).
Proof.
  fold (usersOf s). induction 1 as [|boot s c _ IH].
  - split.
    + unfold usersOf. cbn. repeat constructor.
    + eexists. split; reflexivity.
  - now apply rolesInv_preserved.
Qed.

Lemma reachable_roles_keep_their_secrets_witness :
  Forall secretsFitRole
    (fst (Auth.getAllUsers
            (snd (Auth.addUser "adm002" "Dan" "pw" admin fresh)))).
Proof.
  apply (reachable_roles_keep_their_secrets
           (storageAfter 0 (AddUser "adm002" "Dan" "pw" admin) fresh)).
  apply reachable_call, reachable_fresh.
Defined.

(** X22. What [loginUser] and [verifyOtp] return as the user is a stored
    user with the id asked for, cut down to id, name and role: the password,
    the code and its time are never part of the answer. *)
Theorem login_answers_carry_no_secret (userId : string)
  (password : option string) (now : Z) (otp : string) (s : Storage)
  (u : AuthenticatedUser) :
  LoginResponse.user (fst (Auth.loginUser userId password s)) = Some u
  \/ LoginResponse.user (fst (Auth.verifyOtp now userId otp s)) = Some u ->
  AuthenticatedUser.password u = None
  /\ AuthenticatedUser.otp u = None
  /\ AuthenticatedUser.otp_created_at u = None
  /\ exists v, In v (fst (Auth.getAllUsers s))
               /\ AuthenticatedUser.id v = userId
               /\ u = AuthenticatedUser.mk userId (AuthenticatedUser.name v)
                        (AuthenticatedUser.role v) None None None.
Proof.
  fold (usersOf s).
  assert (Hpub : forall v, In v (usersOf s) -> AuthenticatedUser.id v = userId ->
                   Some (Auth.publicUser v) = Some u ->
                   AuthenticatedUser.password u = None
                   /\ AuthenticatedUser.otp u = None
                   /\ AuthenticatedUser.otp_created_at u = None
                   /\ exists v, In v (usersOf s)
                        /\ AuthenticatedUser.id v = userId
                        /\ u = AuthenticatedUser.mk userId
                                 (AuthenticatedUser.name v)
                                 (AuthenticatedUser.role v) None None None).
  { intros v Hin Hid [= <-]. do 3 (split; [reflexivity|]).
    exists v. split; [exact Hin|]. split; [exact Hid|].
    unfold Auth.publicUser. now rewrite Hid. }
  intros [Hu|Hu].
  - rewrite loginUser_answer in Hu. unfold userWithId in Hu.
    destruct (find (Auth.idIs userId) (usersOf s)) as [v|] eqn:Ef;
      [|discriminate].
    pose proof (find_idIs_id _ _ _ Ef) as Hid.
    apply find_some in Ef as (Hin & _).
    destruct (AuthenticatedUser.role v); [|discriminate].
    destruct (String.eqb _ "admin"), (opt_string_eqb _ _);
      cbn in Hu; try discriminate; now apply (Hpub v).
  - revert Hu. unfold Auth.verifyOtp, bind. rewrite loadUsersFromFile_run.
    destruct (find _ _) as [v|] eqn:Ef; [|discriminate].
    apply find_some in Ef as (Hin & Hp).
    apply idAndRoleAre_true in Hp as (Hid & _).
    destruct (orb _ _); [discriminate|].
    destruct (AuthenticatedUser.otp_created_at v); [|discriminate].
    destruct (_ >? _); [discriminate|].
    destruct (opt_string_eqb _ _); [|discriminate].
    cbn. now apply (Hpub v).
Qed.

Lemma login_answers_carry_no_secret_witness :
  exists u,
    LoginResponse.user (fst (Auth.loginUser "boss" (Some "s3cret")
                               sampleStorage)) = Some u
    /\ AuthenticatedUser.password u = None.
Proof.
  eexists. split; [reflexivity|].
  exact (proj1 (login_answers_carry_no_secret "boss" (Some "s3cret") 0 ""
                  sampleStorage _ (or_introl eq_refl))).
Defined.

(** ** The digits of a code *)

Lemma of_lu_digit (k : N) (d : Decimal.uint) :
  (k < 10)%N ->
  DecimalPos.Unsigned.of_lu (digit k d)
  = (k + 10 * DecimalPos.Unsigned.of_lu d)%N.
Proof.
  intros Hk. destruct k as [|p];
    [|do 4 (try destruct p as [p|p|]); try lia];
    rewrite DecimalPos.Unsigned.of_lu_eqn; reflexivity.
Qed.

Lemma revapp_digit (k : N) (d acc : Decimal.uint) :
  Decimal.revapp (digit k d) acc = Decimal.revapp d (digit k acc).
Proof.
  destruct k as [|p]; [reflexivity|].
  do 4 (try destruct p as [p|p|]); reflexivity.
Qed.

Lemma unorm_digit (k : N) (d : Decimal.uint) :
  (0 < k)%N -> Decimal.unorm (digit k d) = digit k d.
Proof.
  intros Hk. destruct k as [|p]; [lia|].
  do 4 (try destruct p as [p|p|]); reflexivity.
Qed.

Lemma string_of_uint_digit (k : N) (d : Decimal.uint) :
  String.length (NilEmpty.string_of_uint (digit k d))
  = S (String.length (NilEmpty.string_of_uint d)).
Proof.
  destruct k as [|p]; [reflexivity|].
  do 4 (try destruct p as [p|p|]); reflexivity.
Qed.

Lemma digit_not_Nil (k : N) (d : Decimal.uint) : digit k d <> Decimal.Nil.
Proof.
  destruct k as [|p]; [discriminate|].
  do 4 (try destruct p as [p|p|]); discriminate.
Qed.

(** [toString] of a number from 100000 to 999999 has six characters. *)
Lemma toString_six_digits (n : Z) :
  100000 <= n <= 999999 -> String.length (toString n) = 6%nat.
Proof.
  intros Hn. destruct n as [|p|p]; try lia.
  unfold toString. cbn [Z.to_int NilZero.string_of_int].
  set (m := N.pos p).
  assert (Hm : (100000 <= m <= 999999)%N) by (unfold m; lia).
  set (q1 := (m / 10)%N). set (q2 := (q1 / 10)%N). set (q3 := (q2 / 10)%N).
  set (q4 := (q3 / 10)%N). set (q5 := (q4 / 10)%N).
  pose proof (N.div_mod m 10 ltac:(discriminate)) as E0.
  pose proof (N.div_mod q1 10 ltac:(discriminate)) as E1.
  pose proof (N.div_mod q2 10 ltac:(discriminate)) as E2.
  pose proof (N.div_mod q3 10 ltac:(discriminate)) as E3.
  pose proof (N.div_mod q4 10 ltac:(discriminate)) as E4.
  pose proof (N.mod_lt m 10 ltac:(discriminate)) as L0.
  pose proof (N.mod_lt q1 10 ltac:(discriminate)) as L1.
  pose proof (N.mod_lt q2 10 ltac:(discriminate)) as L2.
  pose proof (N.mod_lt q3 10 ltac:(discriminate)) as L3.
  pose proof (N.mod_lt q4 10 ltac:(discriminate)) as L4.
  fold q1 in E0. fold q2 in E1. fold q3 in E2. fold q4 in E3. fold q5 in E4.
  set (little :=
         digit (m mod 10)
           (digit (q1 mod 10)
              (digit (q2 mod 10)
                 (digit (q3 mod 10)
                    (digit (q4 mod 10) (digit q5 Decimal.Nil)))))).
  assert (Hq5 : (0 < q5 < 10)%N).
  { clear -Hm E0 E1 E2 E3 E4 L0 L1 L2 L3 L4.
    generalize dependent (m mod 10)%N. generalize dependent (q1 mod 10)%N.
    generalize dependent (q2 mod 10)%N. generalize dependent (q3 mod 10)%N.
    generalize dependent (q4 mod 10)%N. clearbody q5 q4 q3 q2 q1 m.
    intros. lia. }
  assert (Hval : DecimalPos.Unsigned.of_lu little = m).
  { unfold little. rewrite !of_lu_digit by (assumption || lia).
    change (DecimalPos.Unsigned.of_lu Decimal.Nil) with 0%N. lia. }
  assert (Hto : Pos.to_uint p = Decimal.unorm (Decimal.rev little)).
  { rewrite <- DecimalPos.Unsigned.to_of, DecimalPos.Unsigned.of_lu_rev, Hval.
    reflexivity. }
  rewrite Hto. unfold Decimal.rev, little. rewrite !revapp_digit.
  cbn [Decimal.revapp].
  rewrite unorm_digit by lia.
  assert (Hne : forall k d, NilZero.string_of_uint (digit k d)
                            = NilEmpty.string_of_uint (digit k d)).
  { intros k d. pose proof (digit_not_Nil k d).
    destruct (digit k d); try reflexivity. congruence. }
  rewrite Hne, !string_of_uint_digit. reflexivity.
Qed.

(** X23. For a draw of [Math.random()], a binary64 number from 0 up to, not
    including, 1, the code [generateAndStoreOTP] hands out is the decimal
    text of a number from 100000 to 999999, and so has six characters. *)
Theorem generated_code_has_six_digits (now : Z) (rnd : Q) (userId : string)
  (s : Storage) (code : string) :
  (binary64 rnd == rnd)%Q -> (0 <= rnd)%Q -> (rnd < 1)%Q ->
  BasicResponse.otp (fst (Auth.generateAndStoreOTP now rnd userId s))
  = Some code ->
  String.length code = 6%nat
  /\ exists n, 100000 <= n <= 999999 /\ code = toString n.
Proof.
  intros Hd H0 H1 Hcode.
  pose proof (otpNumberOf_range rnd H0 (binary64_below_one rnd Hd H0 H1))
    as Hrange.
  assert (Hc : code = Auth.newOtpOf rnd).
  { pose proof (generateAndStoreOTP_cases now rnd userId s) as Hg.
    destruct (userWithIdAndRole userId employee s).
    - destruct Hg as (l1 & l2 & _ & _ & Hrun). rewrite Hrun in Hcode.
      now injection Hcode as <-.
    - rewrite Hg in Hcode. discriminate. }
  subst code. unfold Auth.newOtpOf. split.
  - now apply toString_six_digits.
  - eexists. split; [exact Hrange | reflexivity].
Qed.

(** The draw is one on which the two roundings show: without them the sum
    would be floored to 124616. *)
Lemma generated_code_has_six_digits_witness :
  String.length (Auth.newOtpOf (123183457807755 # 4503599627370496)) = 6%nat
  /\ Auth.newOtpOf (123183457807755 # 4503599627370496) = "124617".
Proof.
  split; [|vm_compute; reflexivity].
  refine (proj1 (generated_code_has_six_digits 1000
                   (123183457807755 # 4503599627370496) "emp001" fresh
                   (Auth.newOtpOf (123183457807755 # 4503599627370496))
                   _ _ _ _)).
  - vm_compute. reflexivity.
  - discriminate.
  - reflexivity.
  - vm_compute. reflexivity.
Defined.

(** ** The session in the browser *)

Lemma withDate_same (u : AuthenticatedUser) : AuthContext.withDate u = u.
Proof.
  destruct u as [i n r p o c]. unfold AuthContext.withDate. cbn.
  now destruct c.
Qed.

(** What is stored goes with who is logged in. *)
Lemma act_keeps_storage_in_step (c : AuthContext.t) (a : AuthContext.Action) :
  match AuthContext.user c with
  | Some u => AuthContext.emsUser c = Some (AuthContext.UserJson u)
  | None => AuthContext.emsUser c = None
            \/ AuthContext.emsUser c = Some AuthContext.EmptyText
  end ->
  match AuthContext.user (AuthContext.act c a) with
  | Some u => AuthContext.emsUser (AuthContext.act c a)
              = Some (AuthContext.UserJson u)
  | None => AuthContext.emsUser (AuthContext.act c a) = None
            \/ AuthContext.emsUser (AuthContext.act c a)
               = Some AuthContext.EmptyText
  end.
Proof.
  intros H. destruct a as [userData | | upd]; cbn [AuthContext.act].
  - reflexivity.
  - now left.
  - unfold AuthContext.updateLoggedInUser.
    destruct (AuthContext.user c) eqn:E; [reflexivity|].
    now rewrite E.
Qed.

Lemma session_in_step (item : option AuthContext.Item)
  (actions : list AuthContext.Action) :
  let c := AuthContext.session item actions in
  AuthContext.isLoading c = false
  /\ match AuthContext.user c with
     | Some u => AuthContext.emsUser c = Some (AuthContext.UserJson u)
     | None => AuthContext.emsUser c = None
               \/ AuthContext.emsUser c = Some AuthContext.EmptyText
     end.
Proof.
  cbv zeta. unfold AuthContext.session.
  induction actions as [|a actions IH] using rev_ind.
  - cbn [fold_left]. destruct item as [[| |u]|]; cbn.
    + split; [reflexivity | now right].
    + split; [reflexivity | now left].
    + split; [reflexivity | now rewrite withDate_same].
    + split; [reflexivity | now left].
  - rewrite fold_left_app. cbn [fold_left]. destruct IH as (Hl & Hs). split.
    + destruct a as [userData | | upd]; cbn [AuthContext.act]; try exact Hl.
      unfold AuthContext.updateLoggedInUser.
      now destruct (AuthContext.user _).
    + now apply act_keeps_storage_in_step.
Qed.

(** X24. In a session of [AuthProvider], that is after the mount effect and
    any calls of [login], [logout] and [updateLoggedInUser], loading is
    over, the text under ["emsUser"] is the JSON of the logged-in user, or
    absent or empty when nobody is logged in, and loading the page anew
    over what is stored brings back the same user. *)
Theorem session_survives_reload (item : option AuthContext.Item)
  (actions : list AuthContext.Action) :
  let c := AuthContext.session item actions in
  AuthContext.isLoading c = false
  /\ (forall u, AuthContext.user c = Some u
                <-> AuthContext.emsUser c = Some (AuthContext.UserJson u))
  /\ AuthContext.emsUser c <> Some AuthContext.Unparsable
  /\ AuthContext.user (AuthContext.session (AuthContext.emsUser c) [])
     = AuthContext.user c.
Proof.
  cbv zeta. destruct (session_in_step item actions) as (Hl & Hs).
  set (c := AuthContext.session item actions) in *.
  split; [exact Hl|].
  unfold AuthContext.session at 1. cbn [fold_left].
  unfold AuthContext.mountEffect, AuthContext.initial.
  cbn [AuthContext.emsUser AuthContext.user].
  destruct (AuthContext.user c) as [v|].
  - rewrite Hs, withDate_same. split; [|split; [discriminate | reflexivity]].
    intros u. split; [now intros [= ->] | now intros [= ->]].
  - destruct Hs as [-> | ->];
      (split; [|split; [discriminate | reflexivity]]);
      intros u; split; discriminate.
Qed.

Lemma session_survives_reload_witness :
  AuthContext.user
    (AuthContext.session
       (AuthContext.emsUser
          (AuthContext.session (Some AuthContext.Unparsable)
             [AuthContext.Login
                (AuthenticatedUser.mk "emp001" "Alice Smith" employee None
                   None None)]))
       [])
  = Some (AuthenticatedUser.mk "emp001" "Alice Smith" employee None None
            None).
Proof.
  destruct (session_survives_reload (Some AuthContext.Unparsable)
              [AuthContext.Login
                 (AuthenticatedUser.mk "emp001" "Alice Smith" employee None
                    None None)])
    as (_ & _ & _ & H).
  exact H.
Defined.

(** X25. Handing [login] the user of a successful [loginUser] sends the
    browser to the admin dashboard, the user of a successful [verifyOtp]
    to the employee dashboard; what is then logged in and stored is that
    user as answered, with id, name and role and nothing else. *)
Theorem server_answer_opens_the_dashboard (userId : string)
  (password : option string) (now : Z) (otp : string) (s : Storage)
  (u : AuthenticatedUser) (c : AuthContext.t) :
  (LoginResponse.user (fst (Auth.loginUser userId password s)) = Some u ->
   AuthContext.login u c
   = AuthContext.mk (Some u) (AuthContext.isLoading c)
       (Some (AuthContext.UserJson u))
       (AuthContext.pushed c ++ ["/admin/dashboard"])
   /\ u = AuthenticatedUser.mk userId (AuthenticatedUser.name u) admin
            None None None)
  /\ (LoginResponse.user (fst (Auth.verifyOtp now userId otp s)) = Some u ->
      AuthContext.login u c
      = AuthContext.mk (Some u) (AuthContext.isLoading c)
          (Some (AuthContext.UserJson u))
          (AuthContext.pushed c ++ ["/employee/dashboard"])
      /\ u = AuthenticatedUser.mk userId (AuthenticatedUser.name u) employee
               None None None).
Proof.
  unfold AuthContext.login. rewrite withDate_same. split.
  - rewrite loginUser_answer. unfold userWithId.
    destruct (find (Auth.idIs userId) (usersOf s)) as [v|] eqn:Ef;
      [|discriminate].
    pose proof (find_idIs_id _ _ _ Ef) as Hid.
    destruct (AuthenticatedUser.role v) eqn:Er; [|discriminate].
    destruct (String.eqb _ "admin"), (opt_string_eqb _ _); cbn;
      try discriminate; intros [= <-]; unfold Auth.publicUser;
      cbn; rewrite Er, Hid; split; reflexivity.
  - unfold Auth.verifyOtp, bind. rewrite loadUsersFromFile_run.
    destruct (find _ _) as [v|] eqn:Ef; [|discriminate].
    apply find_some in Ef as (_ & Hp).
    apply idAndRoleAre_true in Hp as (Hid & Er).
    destruct (orb _ _); [discriminate|].
    destruct (AuthenticatedUser.otp_created_at v); [|discriminate].
    destruct (_ >? _); [discriminate|].
    destruct (opt_string_eqb _ _); [|discriminate].
    cbn. intros [= <-]. unfold Auth.publicUser.
    cbn. rewrite Er, Hid. split; reflexivity.
Qed.

Lemma server_answer_opens_the_dashboard_witness :
  AuthContext.pushed
    (AuthContext.login
       (AuthenticatedUser.mk "boss" "Bo Ss" admin None None None)
       (AuthContext.session None []))
  = ["/admin/dashboard"].
Proof.
  destruct (server_answer_opens_the_dashboard "boss" (Some "s3cret") 0 ""
              sampleStorage
              (AuthenticatedUser.mk "boss" "Bo Ss" admin None None None)
              (AuthContext.session None [])) as (H & _).
  destruct (H eq_refl) as (-> & _). reflexivity.
Defined.

(** ** Files that cannot be read *)

(** X26. [updateBoppRates] over a rates file or a history file that cannot
    be read works from the defaults, as over a missing file, and writes the
    result: what the file held is replaced, and both files can be read
    afterwards. *)
Theorem updateBoppRates_replaces_unreadable_files (boot now : Z)
  (form : list BoppRate) (userId userName : string) (s : Storage) :
  let s' := snd (Db.updateBoppRates boot now form userId userName s) in
  let fresh' := snd (Db.updateBoppRates boot now form userId userName fresh) in
  (rates_file s = Unreadable -> rates_file s' = rates_file fresh')
  /\ (history_file s = Unreadable ->
      exists e,
        history_file s' = Content (e :: Db.initialMockRateHistory boot)
        /\ BoppRateHistory.id e = 3
        /\ BoppRateHistory.rates_snapshot e = fst (Db.getBoppRates s))
  /\ (exists rates history,
         rates_file s' = Content rates /\ history_file s' = Content history).
Proof.
  cbv zeta. rewrite !updateBoppRates_run. cbn [snd rates_file history_file].
  split; [|split].
  - intros H. now rewrite !ratesOf_file, H.
  - intros H. eexists. rewrite historyOf_file, H. split; [|split].
    + reflexivity.
    + unfold newEntry. rewrite historyOf_file, H. reflexivity.
    + reflexivity.
  - eexists. eexists. split; reflexivity.
Qed.
